(** * Long-run orchestrator: state store, control loop and status reporter

    A shallow embedding of
    [.codex/skills/longrun-orchestrator/scripts/orchestrate.py] and
    [.codex/skills/longrun-orchestrator/scripts/status.py].

    The two scripts are sequential programs whose whole behaviour is what
    they do to the file system and which processes they start.  They are
    embedded as functions in a state-and-exception monad over a [World]
    (a file system, the trace of the operations performed so far and the
    number of commands waited for).  What a process would leave behind if
    it were killed, and what another process can see while it runs, is
    the replay of a prefix of its trace.

    What the model leaves out:
    - a path is a list of components and [p / s] appends the single
      component [s]; links, [..] and separators inside [s] are not
      modelled, and [Path(s).resolve()] is a function of the surroundings;
    - a file is known up to what [json.loads] makes of its text; the
      formatting of [json.dumps] is not modelled, only that the text it
      produces parses back to the value;
    - strings are byte strings, compared byte by byte (the order of the
      code points of UTF-8 text);
    - the commands run are opaque: each yields an exit code, and what it
      writes to its log or elsewhere on the disk is not tracked;
    - text printed on standard error ([argparse] usage, tracebacks) is not
      recorded;
    - [argparse] is taken to have accepted the command line, and processes
      run one after the other: a worker is studied on the disk its parent
      has left at some point, not interleaved with the parent's last
      steps. *)

From Stdlib Require Import ZArith Ascii String List DecimalString.
From stdpp Require Import base option list gmap strings sorting.

Local Open Scope string_scope.
Local Open Scope Z_scope.
Local Open Scope list_scope.
Local Set Warnings "-register-all,-clear-no-such-hyp".

(** ** JSON values

    The values [json.loads] can return for the documents these scripts
    handle (no floats occur in a state file).  A Python [dict] is kept as an
    association list in insertion order; [dict_get] is [d.get(k)]. *)

Inductive Json : Type :=
| JNull
| JBool (b : bool)
| JInt (n : Z)
| JStr (s : string)
| JList (l : list Json)
| JObj (kvs : list (string * Json)).

Fixpoint assoc {A : Type} (k : string) (kvs : list (string * A)) : option A :=
  match kvs with
  | [] => None
  | (k', v) :: rest => if String.eqb k k' then Some v else assoc k rest
  end.

(** [d.get(k)]: the value bound to [k], [None] (here [JNull]) when absent. *)
Definition dict_get (k : string) (kvs : list (string * Json)) : Json :=
  default JNull (assoc k kvs).

(** Python truthiness of a JSON value, as used by [if err:]. *)
Definition truthy (j : Json) : bool :=
  match j with
  | JNull => false
  | JBool b => b
  | JInt n => negb (n =? 0)
  | JStr s => negb (String.eqb s "")
  | JList l => match l with [] => false | _ => true end
  | JObj kvs => match kvs with [] => false | _ => true end
  end.

(** Truthiness of an optional string ([if explicit:], [if env_run_dir:],
    [elif args.run_id:]): [None] and the empty string are false. *)
Definition truthy_str (o : option string) : bool :=
  match o with
  | Some s => negb (String.eqb s "")
  | None => false
  end.

(** ** Paths

    A [pathlib.Path] that has been resolved is the list of its components
    from the root.  [p / name] appends one component. *)

Abbreviation Path := (list string).

Definition path_div (p : Path) (name : string) : Path := p ++ [name].
Infix "</>" := path_div (at level 50, left associativity).

(** [p.name]: the final component, the empty string for the root. *)
Definition name (p : Path) : string := List.last p "".

(** [p.parent]. *)
Definition parent (p : Path) : Path := removelast p.

(** [str(p)]. *)
Fixpoint str_components (p : Path) : string :=
  match p with
  | [] => ""
  | c :: rest => "/" +:+ c +:+ str_components rest
  end.

Definition str (p : Path) : string :=
  match p with
  | [] => "/"
  | _ => str_components p
  end.

(** Index of the last ['.'] of a file name ([name.rfind('.')]). *)
Fixpoint rfind_dot (s : string) : option nat :=
  match s with
  | EmptyString => None
  | String c r =>
      match rfind_dot r with
      | Some i => Some (S i)
      | None => if Ascii.eqb c "."%char then Some 0%nat else None
      end
  end.

(** [PurePath.suffix]: the part of the name from its last dot on, when that
    dot is neither the first nor the last character. *)
Definition suffix_of_name (n : string) : string :=
  match rfind_dot n with
  | Some i =>
      if ((0 <? i)%nat && (i <? String.length n - 1)%nat)%bool
      then String.substring i (String.length n - i) n
      else ""
  | None => ""
  end.

Definition suffix (p : Path) : string := suffix_of_name (name p).

(** [PurePath.with_suffix] on the name: the old suffix is cut off and the
    new one appended. *)
Definition with_suffix_name (n suf : string) : string :=
  let old := suffix_of_name n in
  if String.eqb old ""
  then n +:+ suf
  else String.substring 0 (String.length n - String.length old) n +:+ suf.

(** [p.with_suffix(suf)]; [None] is the [ValueError] pathlib raises for a
    path with an empty name. *)
Definition with_suffix (p : Path) (suf : string) : option Path :=
  if String.eqb (name p) "" then None
  else Some (parent p </> with_suffix_name (name p) suf).

(** ** File system *)

(** What a file holds, up to what [json.loads] makes of it: text that
    parses (kept as the value it parses to; [json.dumps] of that value is
    such a text) or any other text, for which [json.loads] raises. *)
Inductive Content : Type :=
| JsonText (j : Json)
| OtherText.

Inductive Node : Type :=
| Dir
| File (c : Content).

Abbreviation FS := (gmap Path Node).

(** The root always exists. *)
Definition node (fs : FS) (p : Path) : option Node :=
  match p with
  | [] => Some Dir
  | _ => fs !! p
  end.

Definition is_dir (fs : FS) (p : Path) : bool :=
  match node fs p with Some Dir => true | _ => false end.

Definition is_file (fs : FS) (p : Path) : bool :=
  match node fs p with Some (File _) => true | _ => false end.

(** [p.iterdir()]: the entries directly below [p], in the order the
    operating system happens to list them. *)
Definition iterdir (fs : FS) (p : Path) : list Path :=
  filter (λ q, parent q = p ∧ q ≠ []) (map fst (map_to_list fs)).

(** ** Worlds, events and the monad of the scripts *)

(** The exceptions the scripts can end with.  [SystemExit_msg s] is
    [raise SystemExit(s)] with a message, [SystemExit_code n] is what
    [ArgumentParser.error] raises after printing the usage text. *)
Inductive Exn : Type :=
| FileExistsError
| FileNotFoundError
| NotADirectoryError
| IsADirectoryError
| ValueError
| TypeError
| AttributeError
| JSONDecodeError
| SystemExit_msg (s : string)
| SystemExit_code (n : Z).

(** One entry per operation performed on the outside world.
    [EvTruncate p] is [open(p, "w")], [EvWriteFlush p c] the write of the
    whole text [c] and the close that flushes it, [EvReplace] is
    [os.replace].  [EvOpenAppend p] opens a log for appending.
    [EvRun cmd log rc] is [bash -lc cmd] run to its end with exit code
    [rc], its output going to [log]; [EvSpawn] is the background worker
    started with [LONGRUN_RUN_DIR] set as given.  [EvStat], [EvList] and
    [EvRead] are [is_dir]/[is_file], [iterdir] and [read_text].
    [EvPrint s] prints the line [s], [EvPrintField l v] the line
    ["<l>: <v>"] for the Python value [v], [EvPrintJson j] the text
    [json.dumps(j, indent=2)]. *)
Inductive Event : Type :=
| EvMkdir (p : Path)
| EvTruncate (p : Path)
| EvWriteFlush (p : Path) (c : Content)
| EvReplace (src dst : Path)
| EvOpenAppend (p : Path)
| EvRun (cmd : string) (log : Path) (rc : Z)
| EvSpawn (argv : list string) (run_dir_env : option string) (log : Path) (pid : Z)
| EvStat (p : Path)
| EvList (p : Path)
| EvRead (p : Path)
| EvPrint (line : string)
| EvPrintField (label : string) (v : Json)
| EvPrintJson (j : Json).

(** The effect of an operation on the file system.  The output a command
    appends to its log, and whatever else it does to the disk, is not
    tracked. *)
Definition apply_event (ev : Event) (fs : FS) : FS :=
  match ev with
  | EvMkdir p => <[p := Dir]> fs
  | EvTruncate p => <[p := File OtherText]> fs
  | EvWriteFlush p c => <[p := File c]> fs
  | EvReplace src dst =>
      match fs !! src with
      | Some n => <[dst := n]> (delete src fs)
      | None => fs
      end
  | EvOpenAppend p =>
      match fs !! p with
      | Some _ => fs
      | None => <[p := File OtherText]> fs
      end
  | _ => fs
  end.

(** The file system after a sequence of operations: what is on disk when
    the process is killed right after the last of them. *)
Definition replay (evs : list Event) (fs : FS) : FS :=
  fold_left (λ f ev, apply_event ev f) evs fs.

Record World : Type := mkWorld {
  fs : FS;
  trace : list Event;
  nruns : nat
}.

Definition initial (fs0 : FS) : World :=
  {| fs := fs0; trace := []; nruns := 0 |}.

Inductive Result (A : Type) : Type :=
| Ok (a : A)
| Raise (e : Exn).
Arguments Ok {A} a.
Arguments Raise {A} e.

Definition M (A : Type) : Type := World → Result A * World.

#[global] Instance M_ret : MRet M := λ A a w, (Ok a, w).
#[global] Instance M_bind : MBind M := λ A B f m w,
  match m w with
  | (Ok a, w') => f a w'
  | (Raise e, w') => (Raise e, w')
  end.

Definition raise {A : Type} (e : Exn) : M A := λ w, (Raise e, w).

Definition get_fs : M FS := λ w, (Ok (fs w), w).

(** Perform an operation: the disk changes and the trace grows. *)
Definition emit (ev : Event) : M unit := λ w,
  (Ok tt, {| fs := apply_event ev (fs w);
             trace := trace w ++ [ev];
             nruns := nruns w |}).

(** The exit status the shell sees for a script that ends with
    [raise SystemExit(main())]: the value returned, 1 for a [SystemExit]
    carrying a message and for an uncaught exception. *)
Definition exit_status (r : Result Z) : Z :=
  match r with
  | Ok n => n
  | Raise (SystemExit_code n) => n
  | Raise _ => 1
  end.

(** Whether the script ended in an exception that nothing handles (a
    traceback), as opposed to returning or exiting on purpose. *)
Definition unhandled {A : Type} (r : Result A) : bool :=
  match r with
  | Ok _ => false
  | Raise (SystemExit_msg _) => false
  | Raise (SystemExit_code _) => false
  | Raise _ => true
  end.

(** ** File operations *)

(** The directories above [p], outermost first, without the root and
    without [p] itself. *)
Definition ancestors (p : Path) : list Path :=
  map (λ k, take k p) (seq 1 (length p - 1)).

Fixpoint mkdir_each (qs : list Path) : M unit :=
  match qs with
  | [] => mret tt
  | q :: rest =>
      f ← get_fs;
      match node f q with
      | Some Dir => mkdir_each rest
      | Some (File _) => raise NotADirectoryError
      | None => emit (EvMkdir q);; mkdir_each rest
      end
  end.

(** [p.mkdir(parents=True, exist_ok=...)]. *)
Definition mkdir (p : Path) (exist_ok : bool) : M unit :=
  f ← get_fs;
  match node f p with
  | Some Dir => if exist_ok then mret tt else raise FileExistsError
  | Some (File _) => raise FileExistsError
  | None => mkdir_each (ancestors p);; emit (EvMkdir p)
  end.

(** The checks the operating system makes when a file is opened for
    writing or appending. *)
Definition check_writable (p : Path) : M unit :=
  f ← get_fs;
  match node f (parent p) with
  | None => raise FileNotFoundError
  | Some (File _) => raise NotADirectoryError
  | Some Dir =>
      match node f p with
      | Some Dir => raise IsADirectoryError
      | _ => mret tt
      end
  end.

(** [p.write_text(data)]: open for writing (the file is created or cut to
    length zero), write, and close, which flushes the data to the file. *)
Definition write_text (p : Path) (c : Content) : M unit :=
  check_writable p;;
  emit (EvTruncate p);;
  emit (EvWriteFlush p c).

(** [src.replace(dst)]: [os.replace], one atomic rename. *)
Definition replace (src dst : Path) : M unit :=
  f ← get_fs;
  match node f src with
  | None => raise FileNotFoundError
  | Some _ =>
      match node f dst with
      | Some Dir => raise IsADirectoryError
      | _ => emit (EvReplace src dst)
      end
  end.

(** [p.open("ab", buffering=0)]. *)
Definition open_append (p : Path) : M unit :=
  check_writable p;;
  emit (EvOpenAppend p).

(** [p.read_text(encoding="utf-8")] followed by [json.loads]. *)
Definition read_json (p : Path) : M Json :=
  emit (EvRead p);;
  f ← get_fs;
  match node f p with
  | None => raise FileNotFoundError
  | Some Dir => raise IsADirectoryError
  | Some (File OtherText) => raise JSONDecodeError
  | Some (File (JsonText j)) => mret j
  end.

(** ** What the scripts read from their surroundings *)

(** [git_toplevel] is the standard output of
    [git rev-parse --show-toplevel], [None] when [subprocess.run] raises
    (git exits nonzero outside a repository, or is not installed).
    [resolve] is [Path(s).resolve()]. [environ_LONGRUN_RUN_DIR] is
    [os.environ.get("LONGRUN_RUN_DIR")].  [clock_tag] and [clock_iso] are the
    two readings of [datetime.now()], formatted.  [wait k] is the exit code
    of the [k]-th command the process waits for (counted from 0), and
    [popen_pid] the process id of the background worker. *)
Record Env : Type := mkEnv {
  git_toplevel : option string;
  resolve : string → Path;
  environ_LONGRUN_RUN_DIR : option string;
  clock_tag : string;
  clock_iso : string;
  wait : nat → Z;
  popen_pid : Z;
  sys_executable : string;
  script_file : string
}.

(** [str.isspace] on the ASCII range. *)
Definition isspace (c : ascii) : bool :=
  let n := nat_of_ascii c in
  ((9 <=? n)%nat && (n <=? 13)%nat) || ((28 <=? n)%nat && (n <=? 32)%nat).

Fixpoint lstrip (s : string) : string :=
  match s with
  | EmptyString => EmptyString
  | String c r => if isspace c then lstrip r else s
  end.

Fixpoint rstrip (s : string) : string :=
  match s with
  | EmptyString => EmptyString
  | String c r =>
      match rstrip r with
      | EmptyString => if isspace c then EmptyString else String c EmptyString
      | r' => String c r'
      end
  end.

(** [s.strip()]. *)
Definition strip (s : string) : string := rstrip (lstrip s).

(** [f"{n}"] for integers. *)
Definition fmt_int (n : Z) : string := NilZero.string_of_int (Z.to_int n).
Definition fmt_nat (n : nat) : string := NilZero.string_of_uint (Nat.to_uint n).

Definition not_in_repo_msg : string :=
  "Not in a git repo. Pass --workspace to choose the workspace root explicitly.".

(** * orchestrate.py *)

Module Orchestrate.

Section WithEnv.
Variable env : Env.

(** [resolve_workspace_root(explicit)]: an explicit root wins; else the
    git toplevel; else the script exits with a message. *)
Definition resolve_workspace_root (explicit : option string) : M Path :=
  let discover : M Path :=
    match git_toplevel env with
    | Some out =>
        let root := strip out in
        if truthy_str (Some root) then mret (resolve env root)
        else raise (SystemExit_msg not_in_repo_msg)
    | None => raise (SystemExit_msg not_in_repo_msg)
    end in
  match explicit with
  | Some s => if truthy_str explicit then mret (resolve env s) else discover
  | None => discover
  end.

(** The [RunState] dataclass. *)
Record RunState : Type := mkRunState {
  run_id : string;
  label : string;
  workspace : string;
  created_at : string;
  status : string;
  main_cmd : string;
  then_cmds : list string;
  main_pid : option Z;
  main_rc : option Z;
  then_rcs : option (list Z);
  error : option string
}.

Definition set_status (v : string) (s : RunState) : RunState :=
  mkRunState (run_id s) (label s) (workspace s) (created_at s) v (main_cmd s)
    (then_cmds s) (main_pid s) (main_rc s) (then_rcs s) (error s).

Definition set_main_rc (v : option Z) (s : RunState) : RunState :=
  mkRunState (run_id s) (label s) (workspace s) (created_at s) (status s)
    (main_cmd s) (then_cmds s) (main_pid s) v (then_rcs s) (error s).

Definition set_then_rcs (v : option (list Z)) (s : RunState) : RunState :=
  mkRunState (run_id s) (label s) (workspace s) (created_at s) (status s)
    (main_cmd s) (then_cmds s) (main_pid s) (main_rc s) v (error s).

Definition set_error (v : option string) (s : RunState) : RunState :=
  mkRunState (run_id s) (label s) (workspace s) (created_at s) (status s)
    (main_cmd s) (then_cmds s) (main_pid s) (main_rc s) (then_rcs s) v.

Definition json_opt {A : Type} (f : A → Json) (o : option A) : Json :=
  match o with
  | Some a => f a
  | None => JNull
  end.

(** [dataclasses.asdict(state)]: every field, in declaration order. *)
Definition asdict (s : RunState) : Json :=
  JObj [ ("run_id", JStr (run_id s));
         ("label", JStr (label s));
         ("workspace", JStr (workspace s));
         ("created_at", JStr (created_at s));
         ("status", JStr (status s));
         ("main_cmd", JStr (main_cmd s));
         ("then_cmds", JList (map JStr (then_cmds s)));
         ("main_pid", json_opt JInt (main_pid s));
         ("main_rc", json_opt JInt (main_rc s));
         ("then_rcs", json_opt (λ l, JList (map JInt l)) (then_rcs s));
         ("error", json_opt JStr (error s)) ].

Definition field_names : list string :=
  [ "run_id"; "label"; "workspace"; "created_at"; "status"; "main_cmd";
    "then_cmds"; "main_pid"; "main_rc"; "then_rcs"; "error" ].

Definition as_str (j : Json) : option string :=
  match j with JStr s => Some s | _ => None end.

Definition as_int (j : Json) : option Z :=
  match j with JInt n => Some n | _ => None end.

Definition as_list {A : Type} (f : Json → option A) (j : Json)
  : option (list A) :=
  match j with JList l => mapM f l | _ => None end.

Definition as_opt {A : Type} (f : Json → option A) (j : Json)
  : option (option A) :=
  match j with JNull => Some None | _ => Some <$> f j end.

(** A field that has a default in the dataclass may be missing. *)
Definition defaulted {A : Type} (f : Json → option (option A))
  (o : option Json) : option (option A) :=
  match o with
  | Some j => f j
  | None => Some None
  end.

(** [RunState] built from the keywords of the dictionary [d], as the
    reload does.  [None] is the [TypeError] Python raises when [d] is
    not a mapping, misses a field that has no default or has a key that is
    no field.  Python stores the values as they come; here they must also
    have the types the dataclass declares, which holds for every document
    [asdict] produced. *)
Definition RunState_of_kwargs (d : Json) : option RunState :=
  match d with
  | JObj kvs =>
      if forallb (λ kv, existsb (String.eqb kv.1) field_names) kvs then
        v_run_id ← assoc "run_id" kvs ≫= as_str;
        v_label ← assoc "label" kvs ≫= as_str;
        v_workspace ← assoc "workspace" kvs ≫= as_str;
        v_created_at ← assoc "created_at" kvs ≫= as_str;
        v_status ← assoc "status" kvs ≫= as_str;
        v_main_cmd ← assoc "main_cmd" kvs ≫= as_str;
        v_then_cmds ← assoc "then_cmds" kvs ≫= as_list as_str;
        v_main_pid ← defaulted (as_opt as_int) (assoc "main_pid" kvs);
        v_main_rc ← defaulted (as_opt as_int) (assoc "main_rc" kvs);
        v_then_rcs ← defaulted (as_opt (as_list as_int)) (assoc "then_rcs" kvs);
        v_error ← defaulted (as_opt as_str) (assoc "error" kvs);
        Some (mkRunState v_run_id v_label v_workspace v_created_at v_status
                v_main_cmd v_then_cmds v_main_pid v_main_rc v_then_rcs v_error)
      else None
  | _ => None
  end.

(** [write_json(path, obj)]: the text goes to [path] with [".tmp"] added
    to its suffix, and that file is then renamed over [path]. *)
Definition write_json (path : Path) (obj : Json) : M unit :=
  match with_suffix path (suffix path +:+ ".tmp") with
  | None => raise ValueError
  | Some tmp =>
      write_text tmp (JsonText obj);;
      replace tmp path
  end.

(** [now_tag()]. *)
Definition now_tag : string := clock_tag env.

(** [make_run_dir(root, label)]. *)
Definition make_run_dir (root : Path) (label : string) : M Path :=
  let run_id := label +:+ "_" +:+ now_tag in
  let run_dir := root </> ".codex" </> "longrun" </> run_id in
  mkdir run_dir false;;
  mret run_dir.

(** [subprocess.Popen(["bash", "-lc", cmd], ...)] and [p.wait()]: the
    command is started with its output going to [log] and the script
    blocks until it ends. *)
Definition popen_wait (cmd : string) (log : Path) : M Z := λ w,
  let rc := wait env (nruns w) in
  (Ok rc, {| fs := fs w;
             trace := trace w ++ [EvRun cmd log rc];
             nruns := S (nruns w) |}).

(** [spawn_detached(argv, log_path)]. *)
Definition spawn_detached (argv : list string) (log_path : Path) : M Z :=
  open_append log_path;;
  emit (EvSpawn argv None log_path (popen_pid env));;
  mret (popen_pid env).

(** [run_shell(cmd, stdout_path)], with [stderr_to_stdout] at its default:
    the command runs under [bash -lc] and is waited for. *)
Definition run_shell (cmd : string) (stdout_path : Path) : M Z :=
  open_append stdout_path;;
  popen_wait cmd stdout_path.

(** The parsed command line. *)
Record Args : Type := mkArgs {
  args_label : string;
  args_workspace : option string;
  args_cmd : string;
  args_then : list string;
  args_detach : bool
}.

(** How the loop over the follow-ups ends: by the [return 1] inside it, or
    by running off the end of the list with the codes collected. *)
Inductive LoopExit : Type :=
| Returned (code : Z)
| Fell_through (then_rcs : list Z).

(** The [for i, cmd in enumerate(state.then_cmds, start=1)] loop; [i] is
    the number of the step about to run and [then_rcs] the local list. *)
Fixpoint followups (state_path then_log : Path) (state : RunState)
    (i : nat) (cmds : list string) (then_rcs : list Z) : M LoopExit :=
  match cmds with
  | [] => mret (Fell_through then_rcs)
  | cmd :: rest =>
      rc ← run_shell cmd then_log;
      let then_rcs := (then_rcs ++ [rc])%list in
      if negb (rc =? 0) then
        let state := set_status "failed" state in
        let state := set_then_rcs (Some then_rcs) state in
        let state :=
          set_error (Some ("follow-up failed at step " +:+ fmt_nat i
                             +:+ " rc=" +:+ fmt_int rc)) state in
        write_json state_path (asdict state);;
        mret (Returned 1)
      else followups state_path then_log state (S i) rest then_rcs
  end.

(** [state = RunState(..json.loads(state_path.read_text()))]. *)
Definition reload (state_path : Path) : M RunState :=
  d ← read_json state_path;
  match RunState_of_kwargs d with
  | Some s => mret s
  | None => raise TypeError
  end.

(** Lines 185 to 213 of [main]: the run proper, on the state in memory. *)
Definition control_loop (run_dir : Path) (state : RunState) : M Z :=
  let state_path := run_dir </> "state.json" in
  let main_log := run_dir </> "main.log" in
  let then_log := run_dir </> "then.log" in
  let state := set_status "running" state in
  write_json state_path (asdict state);;
  main_rc ← run_shell (main_cmd state) main_log;
  let state := set_main_rc (Some main_rc) state in
  if negb (main_rc =? 0) then
    let state := set_status "failed" state in
    let state :=
      set_error (Some ("main command failed with rc=" +:+ fmt_int main_rc))
        state in
    write_json state_path (asdict state);;
    mret 1
  else
    r ← followups state_path then_log state 1 (then_cmds state) [];
    match r with
    | Returned code => mret code
    | Fell_through then_rcs =>
        let state := set_then_rcs (Some then_rcs) state in
        let state := set_status "completed" state in
        write_json state_path (asdict state);;
        mret 0
    end.

(** [main()], after [argparse] has accepted the command line: lines 118
    to 183, then [control_loop]. *)
Definition main (args : Args) : M Z :=
  ws ← resolve_workspace_root (args_workspace args);
  let env_run_dir := environ_LONGRUN_RUN_DIR env in
  run_dir ←
    (if truthy_str env_run_dir then
       let run_dir := resolve env (default "" env_run_dir) in
       mkdir run_dir true;;
       mret run_dir
     else make_run_dir ws (args_label args));
  let state_path := run_dir </> "state.json" in
  let orch_log := run_dir </> "orchestrator.log" in
  let state :=
    mkRunState (name run_dir) (args_label args) (str ws) (clock_iso env)
      "created" (args_cmd args) (args_then args) None None None None in
  write_json state_path (asdict state);;
  if args_detach args then
    let argv : list string :=
      ([ sys_executable env; script_file env;
         "--label"; args_label args;
         "--workspace"; str ws;
         "--cmd"; args_cmd args ]
       ++ flat_map (λ t, ["--then"; t]) (args_then args))%list in
    open_append orch_log;;
    emit (EvSpawn argv (Some (str run_dir)) orch_log (popen_pid env));;
    write_json (run_dir </> "detached.json")
      (JObj [("orchestrator_pid", JInt (popen_pid env))]);;
    emit (EvPrint (run_id state));;
    mret 0
  else
    state ← (if truthy_str env_run_dir then reload state_path else mret state);
    control_loop run_dir state.

End WithEnv.
End Orchestrate.

(** * status.py *)

Module Status.

Section WithEnv.
Variable env : Env.

(** [resolve_workspace_root(explicit)], the same text as in
    [orchestrate.py]. *)
Definition resolve_workspace_root (explicit : option string) : M Path :=
  let discover : M Path :=
    match git_toplevel env with
    | Some out =>
        let root := strip out in
        if truthy_str (Some root) then mret (resolve env root)
        else raise (SystemExit_msg not_in_repo_msg)
    | None => raise (SystemExit_msg not_in_repo_msg)
    end in
  match explicit with
  | Some s => if truthy_str explicit then mret (resolve env s) else discover
  | None => discover
  end.

(** The order of [sorted(dirs, key=lambda p: p.name)]: Python compares
    strings code point by code point, which on UTF-8 text is the byte
    order of [String.leb]. *)
Definition name_le (p q : Path) : Prop := String.le (name p) (name q).

#[global] Instance name_le_dec (p q : Path) : Decision (name_le p q) :=
  String.le_dec (name p) (name q).

(** [latest_run_dir(ws)]. *)
Definition latest_run_dir (ws : Path) : M (option Path) :=
  let base := ws </> ".codex" </> "longrun" in
  emit (EvStat base);;
  f ← get_fs;
  if negb (is_dir f base) then mret None
  else
    emit (EvList base);;
    let dirs := filter (λ p, is_dir f p) (iterdir f base) in
    match dirs with
    | [] => mret None
    | _ => mret (last (merge_sort name_le dirs))
    end.

(** The parsed command line. *)
Record Args : Type := mkArgs {
  args_workspace : option string;
  args_run_id : option string;
  args_latest : bool;
  args_json : bool
}.

(** Lines 53 to 61 of [main]: the workspace root, then the run directory
    by [--latest], else by [--run-id], else [ap.error], which raises
    [SystemExit(2)]. *)
Definition select_run_dir (args : Args) : M (option Path) :=
  ws ← resolve_workspace_root (args_workspace args);
  let base := ws </> ".codex" </> "longrun" in
  if args_latest args then latest_run_dir ws
  else if truthy_str (args_run_id args)
  then mret (Some (base </> default "" (args_run_id args)))
  else raise (SystemExit_code 2).

Definition print_field (label : string) (v : Json) : M unit :=
  emit (EvPrintField label v).

(** Lines 63 to 90 of [main]: what is printed about the run directory
    found. *)
Definition report (args : Args) (run_dir : option Path) : M Z :=
  match run_dir with
  | None => emit (EvPrint "(no runs found)");; mret 1
  | Some run_dir =>
      emit (EvStat run_dir);;
      f ← get_fs;
      if negb (is_dir f run_dir) then
        emit (EvPrint "(no runs found)");; mret 1
      else
        let state_path := run_dir </> "state.json" in
        emit (EvStat state_path);;
        if negb (is_file f state_path) then
          emit (EvPrint ("(missing state.json in " +:+ str run_dir +:+ ")"));;
          mret 1
        else
          state ← read_json state_path;
          if args_json args then
            emit (EvPrintJson state);; mret 0
          else
            match state with
            | JObj kvs =>
                let status := dict_get "status" kvs in
                let label := dict_get "label" kvs in
                let main_rc := dict_get "main_rc" kvs in
                let err := dict_get "error" kvs in
                emit (EvPrint ("run_id: " +:+ name run_dir));;
                print_field "label" label;;
                print_field "status" status;;
                (match main_rc with
                 | JNull => mret tt
                 | _ => print_field "main_rc" main_rc
                 end);;
                (if truthy err then print_field "error" err else mret tt);;
                emit (EvPrint "logs: main.log / then.log / orchestrator.log");;
                mret 0
            | _ => raise AttributeError
            end
  end.

(** [main()], after [argparse] has parsed the command line. *)
Definition main (args : Args) : M Z :=
  run_dir ← select_run_dir args;
  report args run_dir.

End WithEnv.
End Status.

(** * Vocabulary of the statements *)

(** The world after the operations [evs], [k] of which waited for a
    command. *)
Definition after (w : World) (evs : list Event) (k : nat) : World :=
  {| fs := replay evs (fs w);
     trace := trace w ++ evs;
     nruns := nruns w + k |}.

(** The temporary file [write_json] uses for [path]. *)
Definition tmp_of (path : Path) : Path :=
  parent path </> (name path +:+ ".tmp").

(** The operations of one successful [write_json]. *)
Definition write_events (path : Path) (obj : Json) : list Event :=
  [ EvTruncate (tmp_of path);
    EvWriteFlush (tmp_of path) (JsonText obj);
    EvReplace (tmp_of path) path ].

(** The operations of one [run_shell]. *)
Definition run_events (cmd : string) (log : Path) (rc : Z) : list Event :=
  [ EvOpenAppend log; EvRun cmd log rc ].

(** The commands a trace handed to [bash -lc], in order. *)
Definition commands_run (evs : list Event) : list string :=
  omap (λ ev, match ev with EvRun cmd _ _ => Some cmd | _ => None end) evs.

(** The paths whose entry an operation can change. *)
Definition touched (ev : Event) : list Path :=
  match ev with
  | EvMkdir p | EvTruncate p | EvWriteFlush p _ | EvOpenAppend p => [p]
  | EvReplace src dst => [src; dst]
  | _ => []
  end.

(** The files the control loop opens inside a run directory. *)
Definition run_files : list string :=
  [ "state.json"; "state.json.tmp"; "main.log"; "then.log" ].

(** A run directory the control loop can work in: it is a directory and
    none of the files the loop opens in it is itself a directory. *)
Definition usable (f : FS) (rd : Path) : Prop :=
  node f rd = Some Dir ∧
  ∀ n, n ∈ run_files → node f (rd </> n) ≠ Some Dir.

(** A file system in which the run directory [rd] can be made (or is
    already there): no file sits where a directory is needed, and no
    directory where the loop needs a file. *)
Definition can_host (f : FS) (rd : Path) : bool :=
  forallb (λ q, negb (is_file f q)) (ancestors rd)
  && negb (is_file f rd)
  && forallb (λ n, negb (is_dir f (rd </> n))) run_files.

(** Whether the workspace root can be determined. *)
Definition workspace_known (env : Env) (explicit : option string) : bool :=
  truthy_str explicit
  || match git_toplevel env with
     | Some out => truthy_str (Some (strip out))
     | None => false
     end.

(** ** The orchestrator's run *)

(** The run directory [main] works in, for the workspace root [ws]: the
    one named by [LONGRUN_RUN_DIR] when that is set and not empty, else
    [<ws>/.codex/longrun/<label>_<tag>]. *)
Definition run_dir_of (env : Env) (args : Orchestrate.Args) (ws : Path)
  : Path :=
  if truthy_str (environ_LONGRUN_RUN_DIR env)
  then resolve env (default "" (environ_LONGRUN_RUN_DIR env))
  else ws </> ".codex" </> "longrun"
          </> (Orchestrate.args_label args +:+ "_" +:+ clock_tag env).

(** The record of the run started by [args], with the given values for the
    fields that change while it runs. *)
Definition run_record (env : Env) (args : Orchestrate.Args) (ws : Path)
    (status : string) (main_rc : option Z) (then_rcs : option (list Z))
    (error : option string) : Orchestrate.RunState :=
  {| Orchestrate.run_id := name (run_dir_of env args ws);
     Orchestrate.label := Orchestrate.args_label args;
     Orchestrate.workspace := str ws;
     Orchestrate.created_at := clock_iso env;
     Orchestrate.status := status;
     Orchestrate.main_cmd := Orchestrate.args_cmd args;
     Orchestrate.then_cmds := Orchestrate.args_then args;
     Orchestrate.main_pid := None;
     Orchestrate.main_rc := main_rc;
     Orchestrate.then_rcs := then_rcs;
     Orchestrate.error := error |}.

(** The disk lets [main] start in [rd]: [rd] can be hosted, and unless
    the process was told to reuse a directory, [rd] is not there yet. *)
Definition can_start (env : Env) (f : FS) (rd : Path) : bool :=
  can_host f rd
  && (truthy_str (environ_LONGRUN_RUN_DIR env)
      || match node f rd with None => true | Some _ => false end).

(** Operations of the control loop inside the run directory [rd]: they
    act on entries directly below [rd], and a rename takes one of the
    loop's own files as its source. *)
Definition inside (rd : Path) (ev : Event) : Prop :=
  match ev with
  | EvMkdir _ => False
  | EvTruncate p | EvWriteFlush p _ | EvOpenAppend p => ∃ n, p = rd </> n
  | EvReplace src dst =>
      ∃ n m, n ∈ run_files ∧ src = rd </> n ∧ dst = rd </> m
  | _ => True
  end.

(** The operations of follow-ups that all exit 0. *)
Definition quiet_runs (log : Path) (cmds : list string) : list Event :=
  flat_map (λ cmd, run_events cmd log 0) cmds.

(** The record in memory when step [n] of the chain has exited with [c],
    [st] being the record the chain started with. *)
Definition failed_at (st : Orchestrate.RunState) (n : nat) (codes : list Z)
    (c : Z) : Orchestrate.RunState :=
  Orchestrate.set_error
    (Some ("follow-up failed at step " +:+ fmt_nat n +:+ " rc=" +:+ fmt_int c))
    (Orchestrate.set_then_rcs (Some codes)
       (Orchestrate.set_status "failed" st)).

(** The record in memory once the run is under way, and once the main
    command has exited with [c]. *)
Definition running (st : Orchestrate.RunState) : Orchestrate.RunState :=
  Orchestrate.set_status "running" st.

Definition main_done (st : Orchestrate.RunState) (c : Z)
  : Orchestrate.RunState :=
  Orchestrate.set_main_rc (Some c) (running st).

(** The read the reattached worker makes of the state file. *)
Definition reload_events (env : Env) (state_path : Path) : list Event :=
  if truthy_str (environ_LONGRUN_RUN_DIR env) then [EvRead state_path] else [].

Definition is_mkdir (ev : Event) : Prop :=
  match ev with EvMkdir _ => True | _ => False end.

(** The operations of follow-ups [cmds] that exit with [codes]. *)
Definition followup_events (log : Path) (cmds : list string)
    (codes : list Z) : list Event :=
  flat_map (λ x, run_events x.1 log x.2) (zip cmds codes).

(** The trace of a foreground run up to the end of the main command,
    which exits with [c]: the directories made ([pre]), the record written
    as created, read back by a reattached worker, written as running, and
    the main command run. *)
Definition head_events (env : Env) (args : Orchestrate.Args) (ws : Path)
    (pre : list Event) (c : Z) : list Event :=
  let rd := run_dir_of env args ws in
  pre
  ++ write_events (rd </> "state.json")
       (Orchestrate.asdict (run_record env args ws "created" None None None))
  ++ reload_events env (rd </> "state.json")
  ++ write_events (rd </> "state.json")
       (Orchestrate.asdict (run_record env args ws "running" None None None))
  ++ run_events (Orchestrate.args_cmd args) (rd </> "main.log") c.

(** The two error messages. *)
Definition main_failed_msg (c : Z) : string :=
  "main command failed with rc=" +:+ fmt_int c.

Definition followup_failed_msg (n : nat) (c : Z) : string :=
  "follow-up failed at step " +:+ fmt_nat n +:+ " rc=" +:+ fmt_int c.

Definition is_run (ev : Event) : Prop :=
  match ev with EvRun _ _ _ => True | _ => False end.

(** The fifteen characters of the time tag that ends a run's name. *)
Definition tag_of_name (n : string) : string :=
  String.substring (String.length n - 15) 15 n.

(** ** Concrete surroundings used in the examples *)

(** A resolver for absolute paths without [..] or links: the components
    between the slashes. *)
Fixpoint split_slash (s : string) : string * list string :=
  match s with
  | EmptyString => (EmptyString, [])
  | String c r =>
      let '(cur, rest) := split_slash r in
      if Ascii.eqb c "/"%char then (EmptyString, cur :: rest)
      else (String c cur, rest)
  end.

Definition components (s : string) : Path :=
  let '(cur, rest) := split_slash s in
  filter (λ c, c ≠ "") (cur :: rest).

(** A process outside any git repository, started at 03:04:05 on
    2 January 2024; the main command and the first follow-up it waits for
    exit 0, the second follow-up exits 5. *)
Definition demo_env : Env :=
  {| git_toplevel := None;
     resolve := components;
     environ_LONGRUN_RUN_DIR := None;
     clock_tag := "20240102_030405";
     clock_iso := "2024-01-02T03:04:05";
     wait := λ k, nth k [0; 0; 5; 0] 0;
     popen_pid := 4242;
     sys_executable := "/usr/bin/python3";
     script_file := "/skills/orchestrate.py" |}.

Definition runs_root : Path := ["work"; ".codex"; "longrun"].

(** A workspace with two runs: [b_20240101_000000], which completed, and
    the more recent [a_20250101_000000], whose state file does not
    parse. *)
Definition demo_fs : FS :=
  list_to_map
    [ (["work"], Dir);
      (["work"; ".codex"], Dir);
      (runs_root, Dir);
      (runs_root </> "b_20240101_000000", Dir);
      (runs_root </> "b_20240101_000000" </> "state.json",
       File (JsonText (JObj [ ("label", JStr "b");
                              ("status", JStr "completed");
                              ("main_rc", JInt 0) ])));
      (runs_root </> "a_20250101_000000", Dir);
      (runs_root </> "a_20250101_000000" </> "state.json", File OtherText) ].

(** The same surroundings with other exit codes. *)
Definition with_wait (f : nat → Z) (env : Env) : Env :=
  {| git_toplevel := git_toplevel env;
     resolve := resolve env;
     environ_LONGRUN_RUN_DIR := environ_LONGRUN_RUN_DIR env;
     clock_tag := clock_tag env;
     clock_iso := clock_iso env;
     wait := f;
     popen_pid := popen_pid env;
     sys_executable := sys_executable env;
     script_file := script_file env |}.

(** [orchestrate.py --label job --workspace /work --cmd make
     --then a --then b --then c]. *)
Definition demo_args : Orchestrate.Args :=
  {| Orchestrate.args_label := "job";
     Orchestrate.args_workspace := Some "/work";
     Orchestrate.args_cmd := "make";
     Orchestrate.args_then := ["a"; "b"; "c"];
     Orchestrate.args_detach := false |}.

Definition demo_run_dir : Path := runs_root </> "job_20240102_030405".

(** The parent of a detached run: the same command line with
    [--detach]. *)
Definition detach_args : Orchestrate.Args :=
  {| Orchestrate.args_label := "job";
     Orchestrate.args_workspace := Some "/work";
     Orchestrate.args_cmd := "make";
     Orchestrate.args_then := ["a"; "b"; "c"];
     Orchestrate.args_detach := true |}.

(** The worker that parent spawns: it starts one second later and finds
    the run directory in [LONGRUN_RUN_DIR]. *)
Definition worker_env : Env :=
  {| git_toplevel := None;
     resolve := components;
     environ_LONGRUN_RUN_DIR := Some "/work/.codex/longrun/job_20240102_030405";
     clock_tag := "20240102_030406";
     clock_iso := "2024-01-02T03:04:06";
     wait := λ k, nth k [0; 0; 5; 0] 0;
     popen_pid := 4243;
     sys_executable := "/usr/bin/python3";
     script_file := "/skills/orchestrate.py" |}.

(** A field of the JSON object stored at [path]. *)
Definition state_field (f : FS) (path : Path) (key : string) : option Json :=
  match f !! path with
  | Some (File (JsonText (JObj kvs))) => assoc key kvs
  | _ => None
  end.

(** ** What an operation may do *)

(** [m] performs only operations that satisfy [P], the disk it leaves is
    the replay of those operations, and a value it returns satisfies
    [Q]. *)
Definition emits {A : Type} (P : Event → Prop) (Q : A → Prop) (m : M A)
  : Prop :=
  ∀ w, ∃ evs,
    fs (m w).2 = replay evs (fs w)
    ∧ trace (m w).2 = trace w ++ evs
    ∧ Forall P evs
    ∧ match (m w).1 with Ok a => Q a | Raise _ => True end.

(** Operations that stay with the run directory [rd]: directories are
    made at [rd] and above it only, files are opened directly below [rd]
    only, and a rename moves [<n>.tmp] onto [<n>], both directly below
    [rd]. *)
Definition within (rd : Path) (ev : Event) : Prop :=
  match ev with
  | EvMkdir q => q = rd ∨ q ∈ ancestors rd
  | EvTruncate p | EvWriteFlush p _ | EvOpenAppend p => ∃ n, p = rd </> n
  | EvReplace src dst => ∃ n, src = rd </> (n +:+ ".tmp") ∧ dst = rd </> n
  | _ => True
  end.



(** The fields of [RunState] that have no default. *)
Definition required_fields : list string :=
  [ "run_id"; "label"; "workspace"; "created_at"; "status"; "main_cmd";
    "then_cmds" ].

(** What [status.py] prints about the run directory [rd] whose state file
    holds the record [st]. *)
Definition report_lines (rd : Path) (st : Orchestrate.RunState) : list Event :=
  [ EvPrint ("run_id: " +:+ name rd);
    EvPrintField "label" (JStr (Orchestrate.label st));
    EvPrintField "status" (JStr (Orchestrate.status st)) ]
  ++ match Orchestrate.main_rc st with
     | Some c => [EvPrintField "main_rc" (JInt c)]
     | None => []
     end
  ++ match Orchestrate.error st with
     | Some e => if String.eqb e "" then [] else [EvPrintField "error" (JStr e)]
     | None => []
     end
  ++ [EvPrint "logs: main.log / then.log / orchestrator.log"].

(** The records a reader may find: not yet started or running with no
    result recorded; completed with main code 0 and one zero code per
    follow-up; failed with an error message and either a nonzero main
    code and no follow-up codes, or main code 0 and follow-up codes of
    which the last, and only the last, is nonzero. *)
Definition consistent (st : Orchestrate.RunState) : Prop :=
  ((Orchestrate.status st = "created" ∨ Orchestrate.status st = "running")
   ∧ Orchestrate.main_rc st = None
   ∧ Orchestrate.then_rcs st = None
   ∧ Orchestrate.error st = None)
  ∨ (Orchestrate.status st = "completed"
     ∧ Orchestrate.main_rc st = Some 0
     ∧ Orchestrate.error st = None
     ∧ Orchestrate.then_rcs st
       = Some (repeat 0 (length (Orchestrate.then_cmds st))))
  ∨ (Orchestrate.status st = "failed"
     ∧ is_Some (Orchestrate.error st)
     ∧ ((∃ c, c ≠ 0 ∧ Orchestrate.main_rc st = Some c
              ∧ Orchestrate.then_rcs st = None)
        ∨ (Orchestrate.main_rc st = Some 0
           ∧ ∃ k c, c ≠ 0
                    ∧ (k < length (Orchestrate.then_cmds st))%nat
                    ∧ Orchestrate.then_rcs st = Some (repeat 0 k ++ [c])))).

(** A stretch of a trace: operations that leave [path] alone, or one
    whole [write_json] of a document to [path]. *)
Definition stretch_events (path : Path) (s : list Event + Json) : list Event :=
  match s with
  | inl evs => evs
  | inr obj => write_events path obj
  end.

(** ** Handing a run over to a worker *)

(** The files the detaching parent opens besides the state file. *)
Definition detach_files : list string :=
  [ "orchestrator.log"; "detached.json"; "detached.json.tmp" ].

(** The disk lets the parent hand the run in [rd] over: none of those
    files is a directory. *)
Definition can_detach (f : FS) (rd : Path) : bool :=
  forallb (λ n, negb (is_dir f (rd </> n))) detach_files.

(** The command line the parent starts the worker with. *)
Definition worker_argv (env : Env) (args : Orchestrate.Args) (ws : Path)
  : list string :=
  [ sys_executable env; script_file env;
    "--label"; Orchestrate.args_label args;
    "--workspace"; str ws;
    "--cmd"; Orchestrate.args_cmd args ]
  ++ flat_map (λ t, ["--then"; t]) (Orchestrate.args_then args).

(** What the parent does after the run directory is made, as long as
    nothing fails. *)
Definition detach_tail (env : Env) (rd : Path) : list Event :=
  write_events (rd </> "detached.json")
    (JObj [("orchestrator_pid", JInt (popen_pid env))])
  ++ [ EvPrint (name rd) ].

Definition detach_events (env : Env) (args : Orchestrate.Args) (ws : Path)
  : list Event :=
  let rd := run_dir_of env args ws in
  write_events (rd </> "state.json")
    (Orchestrate.asdict (run_record env args ws "created" None None None))
  ++ [ EvOpenAppend (rd </> "orchestrator.log");
       EvSpawn (worker_argv env args ws) (Some (str rd))
         (rd </> "orchestrator.log") (popen_pid env) ]
  ++ detach_tail env rd.

(** The options [worker_argv] spells out, as [argparse] reads them when no
    value starts with a dash: those of the parent with the workspace root
    made explicit and without [--detach]. *)
Definition worker_args (args : Orchestrate.Args) (ws : Path)
  : Orchestrate.Args :=
  {| Orchestrate.args_label := Orchestrate.args_label args;
     Orchestrate.args_workspace := Some (str ws);
     Orchestrate.args_cmd := Orchestrate.args_cmd args;
     Orchestrate.args_then := Orchestrate.args_then args;
     Orchestrate.args_detach := false |}.

(** Operations on the parent's own files in [rd]. *)
Definition handover (rd : Path) (ev : Event) : Prop :=
  ∀ q, q ∈ touched ev → ∃ n, n ∈ detach_files ∧ q = rd </> n.

(** Whether a trace has started a worker. *)
Definition is_spawn (ev : Event) : bool :=
  match ev with EvSpawn _ _ _ _ => true | _ => false end.

Definition spawned (evs : list Event) : bool := existsb is_spawn evs.

(** * Proofs *)

(** ** The monad *)

Lemma bind_Ok {A B : Type} (m : M A) (f : A → M B) w a w' :
  m w = (Ok a, w') → (m ≫= f) w = f a w'.
Proof. intros H. unfold mbind, M_bind. by rewrite H. Qed.

Lemma bind_Raise {A B : Type} (m : M A) (f : A → M B) w e w' :
  m w = (Raise e, w') → (m ≫= f) w = (Raise e, w').
Proof. intros H. unfold mbind, M_bind. by rewrite H. Qed.

Lemma after_nil w : after w [] 0 = w.
Proof.
  destruct w as [f t k]. unfold after; simpl.
  by rewrite app_nil_r, Nat.add_0_r.
Qed.

Lemma replay_app evs1 evs2 f :
  replay (evs1 ++ evs2) f = replay evs2 (replay evs1 f).
Proof. unfold replay. apply fold_left_app. Qed.

Lemma after_after w evs1 k1 evs2 k2 :
  after (after w evs1 k1) evs2 k2 = after w (evs1 ++ evs2) (k1 + k2).
Proof.
  unfold after; simpl. by rewrite replay_app, <- app_assoc, Nat.add_assoc.
Qed.

Lemma after_initial fs0 evs k :
  after (initial fs0) evs k = {| fs := replay evs fs0; trace := evs; nruns := k |}.
Proof. reflexivity. Qed.

Lemma emit_after ev w : emit ev w = (Ok tt, after w [ev] 0).
Proof. unfold emit, after; simpl. by rewrite Nat.add_0_r. Qed.

(** ** Frame: operations leave the other paths alone *)

Lemma apply_event_untouched (ev : Event) (f : FS) (q : Path) :
  q ∉ touched ev → apply_event ev f !! q = f !! q.
Proof.
  intros Hq. destruct ev; simpl in *; try done.
  - apply lookup_insert_ne. set_solver.
  - apply lookup_insert_ne. set_solver.
  - apply lookup_insert_ne. set_solver.
  - destruct (f !! src) eqn:E; [|done].
    rewrite lookup_insert_ne by set_solver.
    apply lookup_delete_ne. set_solver.
  - destruct (f !! p) eqn:E; [done|].
    apply lookup_insert_ne. set_solver.
Qed.

Lemma replay_untouched (evs : list Event) (f : FS) (q : Path) :
  Forall (λ ev, q ∉ touched ev) evs → replay evs f !! q = f !! q.
Proof.
  revert f. induction evs as [|ev evs IH]; intros f Hall; [done|].
  inversion Hall as [|? ? H1 H2]; subst. simpl.
  change (replay evs (apply_event ev f) !! q = f !! q).
  rewrite IH by done. by apply apply_event_untouched.
Qed.

(** ** Paths *)

Lemma name_div (p : Path) n : name (p </> n) = n.
Proof. unfold name, path_div. apply List.last_last. Qed.

Lemma parent_div (p : Path) n : parent (p </> n) = p.
Proof. unfold parent, path_div. apply removelast_last. Qed.

Lemma node_div (f : FS) (p : Path) n : node f (p </> n) = f !! (p </> n).
Proof. unfold path_div. by destruct p. Qed.

Lemma div_inj (p : Path) n m : p </> n = p </> m → n = m.
Proof. unfold path_div. intros H. apply app_inv_head in H. congruence. Qed.

Lemma div_ne_self (p : Path) n : p </> n ≠ p.
Proof.
  unfold path_div. intros H. apply (f_equal length) in H.
  rewrite length_app in H. simpl in H. lia.
Qed.

(** ** Workspace root *)

Section Workspace.
Variable env : Env.

Lemma orchestrate_root_unknown explicit w :
  workspace_known env explicit = false →
  Orchestrate.resolve_workspace_root env explicit w
  = (Raise (SystemExit_msg not_in_repo_msg), w).
Proof.
  unfold workspace_known, Orchestrate.resolve_workspace_root.
  intros [H1 H2]%orb_false_elim.
  destruct (git_toplevel env) as [out|]; destruct explicit as [s|];
    rewrite ?H1, ?H2; reflexivity.
Qed.

Lemma status_root_unknown explicit w :
  workspace_known env explicit = false →
  Status.resolve_workspace_root env explicit w
  = (Raise (SystemExit_msg not_in_repo_msg), w).
Proof.
  unfold workspace_known, Status.resolve_workspace_root.
  intros [H1 H2]%orb_false_elim.
  destruct (git_toplevel env) as [out|]; destruct explicit as [s|];
    rewrite ?H1, ?H2; reflexivity.
Qed.

Lemma status_root_known explicit w :
  workspace_known env explicit = true →
  ∃ ws, Status.resolve_workspace_root env explicit w = (Ok ws, w).
Proof.
  unfold workspace_known, Status.resolve_workspace_root.
  intros H. destruct explicit as [s|]; simpl in *.
  - destruct (negb (s =? "")%string); [by eexists|].
    simpl in H. destruct (git_toplevel env) as [out|]; [|done].
    simpl in H. rewrite H. by eexists.
  - destruct (git_toplevel env) as [out|]; [|done].
    simpl in H. rewrite H. by eexists.
Qed.

End Workspace.

(** C10. With no workspace root on the command line (none, or an empty
    one) and no git repository around the current directory, both
    [orchestrate.py] and [status.py] end with the "Not in a git repo"
    message before any operation on the file system: the trace is empty and
    the disk is as it was.  The current directory is never used as the
    root. *)
Theorem no_root_no_repo_exits (env : Env) (oargs : Orchestrate.Args)
    (sargs : Status.Args) (fs0 : FS) :
  truthy_str (Orchestrate.args_workspace oargs) = false →
  truthy_str (Status.args_workspace sargs) = false →
  git_toplevel env = None →
  Orchestrate.main env oargs (initial fs0)
  = (Raise (SystemExit_msg not_in_repo_msg), initial fs0)
  ∧ Status.main env sargs (initial fs0)
  = (Raise (SystemExit_msg not_in_repo_msg), initial fs0).
Proof.
  intros Ho Hs Hg. split.
  - unfold Orchestrate.main. apply bind_Raise.
    apply orchestrate_root_unknown. unfold workspace_known.
    by rewrite Ho, Hg.
  - unfold Status.main, Status.select_run_dir.
    apply bind_Raise, bind_Raise.
    apply status_root_unknown. unfold workspace_known.
    by rewrite Hs, Hg.
Qed.

Lemma no_root_no_repo_exits_witness :
  Orchestrate.main demo_env
    (Orchestrate.mkArgs "job" None "make" ["make test"] false)
    (initial demo_fs)
  = (Raise (SystemExit_msg not_in_repo_msg), initial demo_fs)
  ∧ Status.main demo_env (Status.mkArgs None None true false)
      (initial demo_fs)
  = (Raise (SystemExit_msg not_in_repo_msg), initial demo_fs).
Proof.
  apply (no_root_no_repo_exits demo_env
           (Orchestrate.mkArgs "job" None "make" ["make test"] false)
           (Status.mkArgs None None true false) demo_fs);
    reflexivity.
Defined.

(** ** Status reporter *)

Section StatusFacts.
Variable env : Env.

Lemma latest_run_dir_fs ws w r w' :
  Status.latest_run_dir ws w = (r, w') → fs w' = fs w.
Proof.
  unfold Status.latest_run_dir, mbind, M_bind, emit, get_fs, mret, M_ret.
  simpl. destruct (is_dir (fs w) _); simpl.
  - destruct (filter _ _); intros [= <- <-]; reflexivity.
  - intros [= <- <-]; reflexivity.
Qed.

(** Finding the run directory reads the disk and changes nothing. *)
Lemma select_run_dir_fs args w r w' :
  Status.select_run_dir env args w = (r, w') → fs w' = fs w.
Proof.
  unfold Status.select_run_dir. unfold mbind at 1. unfold M_bind.
  destruct (workspace_known env (Status.args_workspace args)) eqn:K.
  - destruct (status_root_known env _ w K) as [ws ->].
    destruct (Status.args_latest args).
    + apply latest_run_dir_fs.
    + destruct (truthy_str (Status.args_run_id args));
        intros [= <- <-]; reflexivity.
  - rewrite (status_root_unknown env _ w K). intros [= <- <-]; reflexivity.
Qed.

End StatusFacts.

(** C5, as the code has it.  When the workspace root is known: with
    neither [--latest] nor a (non-empty) [--run-id] the script ends through
    [ap.error], exit status 2, before touching the disk; with both,
    [--latest] is tested first and wins, the run identifier is ignored and
    the script behaves exactly as with [--latest] alone. *)
Theorem status_selector_arguments (env : Env) (args : Status.Args) (fs0 : FS) :
  workspace_known env (Status.args_workspace args) = true →
  (Status.args_latest args = false →
   truthy_str (Status.args_run_id args) = false →
   Status.main env args (initial fs0)
   = (Raise (SystemExit_code 2), initial fs0)
   ∧ exit_status (Status.main env args (initial fs0)).1 = 2)
  ∧ (Status.args_latest args = true →
     Status.main env args (initial fs0)
     = Status.main env
         (Status.mkArgs (Status.args_workspace args) None true
            (Status.args_json args))
         (initial fs0)).
Proof.
  intros K. destruct (status_root_known env _ (initial fs0) K) as [ws Hws].
  split.
  - intros Hl Hr.
    assert (Status.main env args (initial fs0)
            = (Raise (SystemExit_code 2), initial fs0)) as E.
    { unfold Status.main, Status.select_run_dir.
      apply bind_Raise. rewrite (bind_Ok _ _ _ _ _ Hws).
      by rewrite Hl, Hr. }
    by rewrite E.
  - intros Hl. unfold Status.main, Status.select_run_dir. simpl.
    rewrite Hl. unfold mbind at 1 3. unfold M_bind.
    rewrite !(bind_Ok _ _ _ _ _ Hws).
    destruct (Status.latest_run_dir ws (initial fs0)) as [[o|e] w1];
      [|done].
    unfold Status.report. destruct o as [rd|]; [|done].
    unfold mbind, M_bind, emit, get_fs; simpl.
    repeat (match goal with |- context [if ?b then _ else _] => destruct b end;
            simpl; try reflexivity).
Qed.

Lemma status_selector_arguments_witness :
  Status.main demo_env (Status.mkArgs (Some "/work") None false false)
    (initial demo_fs)
  = (Raise (SystemExit_code 2), initial demo_fs).
Proof.
  apply (status_selector_arguments demo_env
           (Status.mkArgs (Some "/work") None false false) demo_fs);
    reflexivity.
Defined.

(** C5 as stated fails: with both [--latest] and [--run-id] given the
    script reports on the latest run and exits 0, not 2. *)
Lemma status_both_selectors_accepted :
  let args :=
    Status.mkArgs (Some "/work") (Some "a_20250101_000000") true false in
  Status.args_latest args = true
  ∧ truthy_str (Status.args_run_id args) = true
  ∧ (Status.main demo_env args (initial demo_fs)).1 = Ok 0
  ∧ exit_status (Status.main demo_env args (initial demo_fs)).1 ≠ 2.
Proof. vm_compute. repeat split; (reflexivity || discriminate). Qed.

(** C2, as the code has it.  Once a run directory [rd] has been found and
    is a directory: when [state.json] is not there (or is not a regular
    file) the script prints the missing-state line and returns 1; when it
    is there and does not parse, [json.loads] raises and nothing catches
    the exception. *)
Theorem status_missing_or_unparsable (env : Env) (args : Status.Args)
    (fs0 : FS) (rd : Path) (w1 : World) :
  Status.select_run_dir env args (initial fs0) = (Ok (Some rd), w1) →
  is_dir fs0 rd = true →
  (is_file fs0 (rd </> "state.json") = false →
   Status.main env args (initial fs0)
   = (Ok 1,
      after w1 [ EvStat rd; EvStat (rd </> "state.json");
                 EvPrint ("(missing state.json in " +:+ str rd +:+ ")") ] 0))
  ∧ (fs0 !! (rd </> "state.json") = Some (File OtherText) →
     Status.main env args (initial fs0)
     = (Raise JSONDecodeError,
        after w1 [ EvStat rd; EvStat (rd </> "state.json");
                   EvRead (rd </> "state.json") ] 0)
     ∧ unhandled (Status.main env args (initial fs0)).1 = true).
Proof.
  intros Hsel Hdir.
  pose proof (select_run_dir_fs env args _ _ _ Hsel) as Hfs. simpl in Hfs.
  assert (∀ evs, after w1 evs 0
                 = {| fs := replay evs (fs w1); trace := trace w1 ++ evs;
                      nruns := nruns w1 |}) as Hafter.
  { intros evs. unfold after. by rewrite Nat.add_0_r. }
  split.
  - intros Hfile. unfold Status.main. rewrite (bind_Ok _ _ _ _ _ Hsel).
    unfold Status.report, mbind, M_bind, emit, get_fs; simpl.
    rewrite Hfs, Hdir; simpl. rewrite Hfile; simpl.
    rewrite Hafter. unfold mret, M_ret. simpl.
    by rewrite Hfs, <- !app_assoc.
  - intros Hfile.
    assert (Status.main env args (initial fs0)
            = (Raise JSONDecodeError,
               after w1 [ EvStat rd; EvStat (rd </> "state.json");
                          EvRead (rd </> "state.json") ] 0)) as E.
    { unfold Status.main. rewrite (bind_Ok _ _ _ _ _ Hsel).
      unfold Status.report, mbind, M_bind, emit, get_fs; simpl.
      rewrite Hfs, Hdir; simpl.
      unfold is_file, read_json, mbind, M_bind, emit, get_fs; simpl.
      rewrite ?node_div, ?Hfs, ?Hfile; simpl.
      rewrite ?node_div, ?Hfs, ?Hfile; simpl.
      rewrite Hafter. unfold raise. simpl.
      by rewrite ?Hfs, <- !app_assoc. }
    by rewrite E.
Qed.

Lemma status_missing_or_unparsable_witness :
  let rd := runs_root </> "a_20250101_000000" in
  let args :=
    Status.mkArgs (Some "/work") (Some "a_20250101_000000") false false in
  (Status.main demo_env args (initial demo_fs)).1 = Raise JSONDecodeError.
Proof.
  intros rd args.
  destruct (status_missing_or_unparsable demo_env args demo_fs rd
              (initial demo_fs)) as [_ H]; [reflexivity | reflexivity |].
  destruct (H eq_refl) as [E _]. rewrite E. reflexivity.
Defined.

(** C2 as stated fails on a state file that does not parse: the script
    ends in an uncaught [JSONDecodeError] instead of returning 1. *)
Lemma status_crashes_on_unparsable_state :
  let args :=
    Status.mkArgs (Some "/work") (Some "a_20250101_000000") false false in
  let state_path := runs_root </> "a_20250101_000000" </> "state.json" in
  demo_fs !! state_path = Some (File OtherText)
  ∧ (Status.main demo_env args (initial demo_fs)).1 = Raise JSONDecodeError
  ∧ (Status.main demo_env args (initial demo_fs)).1 ≠ Ok 1
  ∧ unhandled (Status.main demo_env args (initial demo_fs)).1 = true.
Proof. vm_compute. repeat split; (reflexivity || discriminate). Qed.

(** ** Names and suffixes *)

Lemma substring_whole (s : string) :
  String.substring 0 (String.length s) s = s.
Proof. induction s as [|c s IH]; [done|]. simpl. by rewrite IH. Qed.

Lemma substring_split (s : string) (i : nat) :
  (i ≤ String.length s)%nat →
  String.substring 0 i s +:+ String.substring i (String.length s - i) s = s.
Proof.
  revert i. induction s as [|c s IH]; intros i Hi.
  - simpl in Hi. assert (i = 0%nat) as -> by lia. reflexivity.
  - destruct i as [|i].
    + rewrite Nat.sub_0_r, substring_whole. reflexivity.
    + change (String c (String.substring 0 i s
                        +:+ String.substring i (String.length s - i) s)
              = String c s).
      f_equal. apply IH. simpl in Hi. lia.
Qed.

Lemma length_substring_tail (s : string) (i : nat) :
  (i ≤ String.length s)%nat →
  String.length (String.substring i (String.length s - i) s)
  = (String.length s - i)%nat.
Proof.
  revert i. induction s as [|c s IH]; intros i Hi.
  - simpl in Hi. by assert (i = 0%nat) as -> by lia.
  - destruct i as [|i].
    + by rewrite Nat.sub_0_r, substring_whole.
    + change (String.length (String.substring i (String.length s - i) s)
              = (String.length s - i)%nat).
      apply IH. simpl in Hi. lia.
Qed.

Lemma append_assoc (a b c : string) : (a +:+ b) +:+ c = a +:+ (b +:+ c).
Proof.
  induction a as [|x a IH]; [done|].
  change (String x ((a +:+ b) +:+ c) = String x (a +:+ (b +:+ c))).
  by rewrite IH.
Qed.

Lemma append_tmp_ne (n : string) : n +:+ ".tmp" ≠ n.
Proof.
  induction n as [|c n IH]; [done|].
  change (String c (n +:+ ".tmp") ≠ String c n). congruence.
Qed.

(** Adding [".tmp"] to the suffix appends it to the name. *)
Lemma with_suffix_name_tmp (n : string) :
  with_suffix_name n (suffix_of_name n +:+ ".tmp") = n +:+ ".tmp".
Proof.
  unfold with_suffix_name.
  destruct (String.eqb_spec (suffix_of_name n) "") as [E|E].
  - by rewrite E.
  - unfold suffix_of_name in *.
    destruct (rfind_dot n) as [i|]; [|done].
    destruct ((0 <? i)%nat && (i <? String.length n - 1)%nat)%bool eqn:B;
      [|done].
    apply andb_true_iff in B as [_ B]. apply Nat.ltb_lt in B.
    rewrite length_substring_tail by lia.
    replace (String.length n - (String.length n - i))%nat with i by lia.
    rewrite <- append_assoc. f_equal. apply substring_split. lia.
Qed.

Lemma with_suffix_tmp (path : Path) :
  name path ≠ "" →
  with_suffix path (suffix path +:+ ".tmp") = Some (tmp_of path).
Proof.
  intros Hn. unfold with_suffix, suffix, tmp_of.
  destruct (String.eqb_spec (name path) "") as [E|E]; [done|].
  by rewrite with_suffix_name_tmp.
Qed.

Lemma path_with_name (path : Path) :
  name path ≠ "" → path = parent path </> name path.
Proof.
  intros Hn. unfold name, parent, path_div in *.
  destruct path as [|c path] using rev_ind; [done|].
  by rewrite List.last_last, removelast_last.
Qed.

Lemma tmp_of_ne (path : Path) : name path ≠ "" → tmp_of path ≠ path.
Proof.
  intros Hn E. unfold tmp_of in E.
  rewrite (path_with_name path Hn) in E at 3.
  apply div_inj in E. by apply append_tmp_ne in E.
Qed.

Lemma parent_tmp_of (path : Path) : parent (tmp_of path) = parent path.
Proof. apply parent_div. Qed.

Lemma tmp_of_div (rd : Path) (n : string) :
  tmp_of (rd </> n) = rd </> (n +:+ ".tmp").
Proof. unfold tmp_of. by rewrite parent_div, name_div. Qed.

(** ** File operations that succeed *)

Lemma node_nonempty (f : FS) (p : Path) : p ≠ [] → node f p = f !! p.
Proof. by destruct p. Qed.

Lemma name_nonempty (p : Path) : name p ≠ "" → p ≠ [].
Proof. by intros H ->. Qed.

Lemma div_nonempty (p : Path) (n : string) : p </> n ≠ [].
Proof. unfold path_div. by destruct p. Qed.

Lemma check_writable_ok (p : Path) (w : World) :
  node (fs w) (parent p) = Some Dir →
  node (fs w) p ≠ Some Dir →
  check_writable p w = (Ok tt, w).
Proof.
  intros Hp Hn. unfold check_writable, mbind, M_bind, get_fs. rewrite Hp.
  destruct (node (fs w) p) as [[|c]|]; done.
Qed.

Lemma write_text_ok (p : Path) (c : Content) (w : World) :
  node (fs w) (parent p) = Some Dir →
  node (fs w) p ≠ Some Dir →
  write_text p c w = (Ok tt, after w [EvTruncate p; EvWriteFlush p c] 0).
Proof.
  intros Hp Hn. unfold write_text.
  rewrite (bind_Ok _ _ _ _ _ (check_writable_ok p w Hp Hn)).
  rewrite (bind_Ok _ _ _ _ _ (emit_after _ w)).
  rewrite emit_after, after_after. reflexivity.
Qed.

Lemma open_append_ok (p : Path) (w : World) :
  node (fs w) (parent p) = Some Dir →
  node (fs w) p ≠ Some Dir →
  open_append p w = (Ok tt, after w [EvOpenAppend p] 0).
Proof.
  intros Hp Hn. unfold open_append.
  rewrite (bind_Ok _ _ _ _ _ (check_writable_ok p w Hp Hn)).
  apply emit_after.
Qed.

Lemma replace_ok (src dst : Path) (w : World) :
  is_Some (node (fs w) src) →
  node (fs w) dst ≠ Some Dir →
  replace src dst w = (Ok tt, after w [EvReplace src dst] 0).
Proof.
  intros [n Hs] Hd. unfold replace, mbind, M_bind, get_fs. rewrite Hs.
  destruct (node (fs w) dst) as [[|c]|]; try done; apply emit_after.
Qed.

(** What is at [path] while [write_json path obj] proceeds. *)
Lemma write_events_lookup (path : Path) (obj : Json) (f : FS) :
  name path ≠ "" →
  (∀ k, (k < 3)%nat →
        replay (take k (write_events path obj)) f !! path = f !! path)
  ∧ replay (write_events path obj) f !! path = Some (File (JsonText obj))
  ∧ replay (write_events path obj) f !! tmp_of path = None.
Proof.
  intros Hn. pose proof (tmp_of_ne path Hn) as Hne.
  split; [|split].
  - intros k Hk. apply replay_untouched.
    destruct k as [|[|[|k]]]; [| | |lia]; simpl;
      repeat constructor; simpl; set_solver.
  - unfold write_events, replay; simpl.
    rewrite lookup_insert_eq. by rewrite lookup_insert_eq.
  - unfold write_events, replay; simpl.
    rewrite lookup_insert_eq.
    rewrite lookup_insert_ne by done. by rewrite lookup_delete_eq.
Qed.

Lemma write_json_ok (path : Path) (obj : Json) (w : World) :
  name path ≠ "" →
  node (fs w) (parent path) = Some Dir →
  node (fs w) (tmp_of path) ≠ Some Dir →
  node (fs w) path ≠ Some Dir →
  Orchestrate.write_json path obj w
  = (Ok tt, after w (write_events path obj) 0).
Proof.
  intros Hn Hp Ht Hd. unfold Orchestrate.write_json.
  rewrite (with_suffix_tmp path Hn).
  pose proof (tmp_of_ne path Hn) as Hne.
  assert (tmp_of path ≠ []) as Htne by apply div_nonempty.
  rewrite (bind_Ok _ _ _ _ _ (write_text_ok (tmp_of path) _ w
             ltac:(by rewrite parent_tmp_of) Ht)).
  rewrite replace_ok.
  - by rewrite after_after.
  - simpl. rewrite node_nonempty by done.
    unfold replay; simpl. rewrite lookup_insert_eq. by eexists.
  - simpl. rewrite node_nonempty by (by apply name_nonempty).
    unfold replay; simpl. rewrite !lookup_insert_ne by done.
    by rewrite <- (node_nonempty _ _ (name_nonempty _ Hn)).
Qed.

Lemma check_writable_cases (p : Path) (w : World) :
  check_writable p w = (Ok tt, w) ∨ ∃ e, check_writable p w = (Raise e, w).
Proof.
  unfold check_writable, mbind, M_bind, get_fs, raise, mret, M_ret.
  destruct (node (fs w) (parent p)) as [[|c]|]; eauto.
  destruct (node (fs w) p) as [[|c]|]; eauto.
Qed.

Lemma write_text_cases (p : Path) (c : Content) (w : World) :
  write_text p c w = (Ok tt, after w [EvTruncate p; EvWriteFlush p c] 0)
  ∨ ∃ e, write_text p c w = (Raise e, w).
Proof.
  unfold write_text.
  destruct (check_writable_cases p w) as [E | [e E]].
  - left. rewrite (bind_Ok _ _ _ _ _ E).
    by rewrite (bind_Ok _ _ _ _ _ (emit_after _ w)), emit_after, after_after.
  - right. exists e. by rewrite (bind_Raise _ _ _ _ _ E).
Qed.

(** Whether it succeeds or not, [write_json] performs the first [n] of
    its three steps, and all three exactly when it succeeds. *)
Lemma write_json_steps (path : Path) (obj : Json) (w : World) :
  name path ≠ "" →
  ∃ n, (n ≤ 3)%nat
       ∧ (Orchestrate.write_json path obj w).2
         = after w (take n (write_events path obj)) 0
       ∧ ((Orchestrate.write_json path obj w).1 = Ok tt ↔ n = 3%nat).
Proof.
  intros Hn. unfold Orchestrate.write_json.
  rewrite (with_suffix_tmp path Hn).
  pose proof (tmp_of_ne path Hn) as Hne.
  assert (tmp_of path ≠ []) as Htne by apply div_nonempty.
  destruct (write_text_cases (tmp_of path) (JsonText obj) w) as [E | [e E]].
  - rewrite (bind_Ok _ _ _ _ _ E).
    unfold replace, mbind, M_bind, get_fs.
    set (w2 := after w _ _).
    assert (node (fs w2) (tmp_of path)
            = Some (File (JsonText obj))) as ->.
    { rewrite node_nonempty by done. unfold w2, after, replay; simpl.
      apply lookup_insert_eq. }
    destruct (node (fs w2) path) as [[|c]|].
    + exists 2%nat. split; [lia|]. split; [done|]. split; [done|lia].
    + exists 3%nat. split; [lia|]. rewrite emit_after. unfold w2.
      rewrite after_after. by split.
    + exists 3%nat. split; [lia|]. rewrite emit_after. unfold w2.
      rewrite after_after. by split.
  - rewrite (bind_Raise _ _ _ _ _ E).
    exists 0%nat. split; [lia|]. simpl. rewrite after_nil.
    split; [done|]. split; [done|lia].
Qed.

(** C4. A state-store write, [write_json path obj], goes in three steps:
    a sibling of [path] in the same directory, named as [path] with
    [".tmp"] appended, is created or cut to length zero; the full document
    is written to it and flushed by the close; it is renamed over [path].
    A write carries out these steps in this order, all three when it
    succeeds (as it does whenever the directory is there and neither name
    is taken by a directory) and the first few when it fails.  Whenever
    the process is observed or stopped (after none, one or two of the
    steps) [path] still holds exactly what it held before, and after the
    third it holds the complete new document: no reader can find a
    partly written file at [path]. *)
Theorem write_json_atomic (path : Path) (obj : Json) (w : World) :
  name path ≠ "" →
  let tmp := parent path </> (name path +:+ ".tmp") in
  let steps :=
    [ EvTruncate tmp; EvWriteFlush tmp (JsonText obj); EvReplace tmp path ] in
  parent tmp = parent path
  ∧ tmp ≠ path
  ∧ (∃ n, (n ≤ 3)%nat
          ∧ (Orchestrate.write_json path obj w).2 = after w (take n steps) 0
          ∧ ((Orchestrate.write_json path obj w).1 = Ok tt ↔ n = 3%nat))
  ∧ (node (fs w) (parent path) = Some Dir →
     node (fs w) tmp ≠ Some Dir →
     node (fs w) path ≠ Some Dir →
     Orchestrate.write_json path obj w = (Ok tt, after w steps 0))
  ∧ (∀ k, (k < length steps)%nat →
          replay (take k steps) (fs w) !! path = fs w !! path)
  ∧ replay steps (fs w) !! path = Some (File (JsonText obj)).
Proof.
  intros Hn tmp steps.
  destruct (write_events_lookup path obj (fs w) Hn) as (Hold & Hnew & _).
  split; [apply parent_tmp_of|].
  split; [by apply tmp_of_ne|].
  split; [by apply write_json_steps|].
  split; [by apply write_json_ok|].
  split; [exact Hold | exact Hnew].
Qed.

Lemma write_json_atomic_witness :
  let path := runs_root </> "b_20240101_000000" </> "state.json" in
  let obj := JObj [("status", JStr "running")] in
  Orchestrate.write_json path obj (initial demo_fs)
  = (Ok tt,
     after (initial demo_fs)
       [ EvTruncate (runs_root </> "b_20240101_000000" </> "state.json.tmp");
         EvWriteFlush (runs_root </> "b_20240101_000000" </> "state.json.tmp")
           (JsonText obj);
         EvReplace (runs_root </> "b_20240101_000000" </> "state.json.tmp")
           path ] 0).
Proof.
  intros path obj.
  destruct (write_json_atomic path obj (initial demo_fs))
    as (_ & _ & _ & H & _); [discriminate|].
  apply H; [reflexivity | discriminate | discriminate].
Defined.

(** ** The control loop inside a usable run directory *)

Section ControlLoop.
Variable env : Env.
Variable rd : Path.

Lemma usable_step (f : FS) (ev : Event) :
  usable f rd → inside rd ev → usable (apply_event ev f) rd.
Proof.
  intros [Hrd Hch] Hin. split.
  - destruct rd as [|c rd'] eqn:Erd; [done|]. rewrite <- Erd in *.
    rewrite node_nonempty in * by (by rewrite Erd).
    rewrite apply_event_untouched; [done|].
    destruct ev; simpl in *; try set_solver.
    + destruct Hin as [n ->]. pose proof (div_ne_self rd n). set_solver.
    + destruct Hin as [n ->]. pose proof (div_ne_self rd n). set_solver.
    + destruct Hin as (n & m & _ & -> & ->).
      pose proof (div_ne_self rd n). pose proof (div_ne_self rd m).
      set_solver.
    + destruct Hin as [n ->]. pose proof (div_ne_self rd n). set_solver.
  - intros n Hn. pose proof (Hch n Hn) as Hc. rewrite node_div in Hc |- *.
    destruct ev; simpl in *; try done.
    + rewrite lookup_insert. by case_decide.
    + rewrite lookup_insert. by case_decide.
    + destruct Hin as (n0 & m & Hn0 & -> & ->).
      destruct (f !! (rd </> n0)) as [nd|] eqn:E; [|done].
      rewrite lookup_insert. case_decide.
      * intros [= ->]. specialize (Hch n0 Hn0).
        rewrite node_div in Hch. done.
      * rewrite lookup_delete. by case_decide.
    + destruct (f !! p) eqn:E; [done|].
      rewrite lookup_insert. by case_decide.
Qed.

Lemma usable_replay (evs : list Event) (f : FS) :
  usable f rd → Forall (inside rd) evs → usable (replay evs f) rd.
Proof.
  revert f. induction evs as [|ev evs IH]; intros f Hu Hall; [done|].
  inversion Hall; subst. apply IH; [|done]. by apply usable_step.
Qed.

Lemma inside_write_events (obj : Json) :
  Forall (inside rd) (write_events (rd </> "state.json") obj).
Proof.
  unfold write_events. rewrite tmp_of_div.
  repeat constructor; simpl; eauto.
  exists "state.json.tmp", "state.json". split; [|done].
  unfold run_files. set_solver.
Qed.

Lemma inside_run_events (cmd : string) (n : string) (rc : Z) :
  Forall (inside rd) (run_events cmd (rd </> n) rc).
Proof. repeat constructor; simpl; eauto. Qed.

Lemma write_state_ok (obj : Json) (w : World) :
  usable (fs w) rd →
  Orchestrate.write_json (rd </> "state.json") obj w
  = (Ok tt, after w (write_events (rd </> "state.json") obj) 0).
Proof.
  intros [Hrd Hch]. apply write_json_ok.
  - by rewrite name_div.
  - by rewrite parent_div.
  - rewrite tmp_of_div. apply Hch. unfold run_files. set_solver.
  - apply Hch. unfold run_files. set_solver.
Qed.

Lemma run_shell_ok (cmd : string) (n : string) (w : World) :
  usable (fs w) rd → n ∈ run_files →
  Orchestrate.run_shell env cmd (rd </> n) w
  = (Ok (wait env (nruns w)),
     after w (run_events cmd (rd </> n) (wait env (nruns w))) 1).
Proof.
  intros [Hrd Hch] Hn. unfold Orchestrate.run_shell.
  rewrite (bind_Ok _ _ _ _ _ (open_append_ok (rd </> n) w
             ltac:(by rewrite parent_div) (Hch n Hn))).
  unfold Orchestrate.popen_wait, after, run_events; simpl.
  rewrite Nat.add_0_r, <- app_assoc, Nat.add_1_r. reflexivity.
Qed.

End ControlLoop.

(** ** The state record survives a write and a reload *)

Lemma mapM_as_str (l : list string) :
  mapM Orchestrate.as_str (map JStr l) = Some l.
Proof. induction l as [|x l IH]; [done|]. simpl. by rewrite IH. Qed.

Lemma mapM_as_int (l : list Z) :
  mapM Orchestrate.as_int (map JInt l) = Some l.
Proof. induction l as [|x l IH]; [done|]. simpl. by rewrite IH. Qed.

Lemma RunState_of_asdict (s : Orchestrate.RunState) :
  Orchestrate.RunState_of_kwargs (Orchestrate.asdict s) = Some s.
Proof.
  destruct s as [rid lab wsp cat sta mc tc mp mrc trc err].
  unfold Orchestrate.RunState_of_kwargs, Orchestrate.asdict.
  change (forallb _ _) with true. cbv iota.
  change (assoc "run_id" _) with (Some (JStr rid)).
  change (assoc "label" _) with (Some (JStr lab)).
  change (assoc "workspace" _) with (Some (JStr wsp)).
  change (assoc "created_at" _) with (Some (JStr cat)).
  change (assoc "status" _) with (Some (JStr sta)).
  change (assoc "main_cmd" _) with (Some (JStr mc)).
  change (assoc "then_cmds" _) with (Some (JList (map JStr tc))).
  change (assoc "main_pid" _) with (Some (Orchestrate.json_opt JInt mp)).
  change (assoc "main_rc" _) with (Some (Orchestrate.json_opt JInt mrc)).
  change (assoc "then_rcs" _)
    with (Some (Orchestrate.json_opt (λ l, JList (map JInt l)) trc)).
  change (assoc "error" _) with (Some (Orchestrate.json_opt JStr err)).
  simpl. rewrite mapM_as_str. simpl.
  destruct mp, mrc, trc as [l|], err; simpl; rewrite ?mapM_as_int; done.
Qed.

Lemma reload_ok (state_path : Path) (s : Orchestrate.RunState) (w : World) :
  state_path ≠ [] →
  fs w !! state_path = Some (File (JsonText (Orchestrate.asdict s))) →
  Orchestrate.reload state_path w = (Ok s, after w [EvRead state_path] 0).
Proof.
  intros Hne Hsp.
  assert (read_json state_path w
          = (Ok (Orchestrate.asdict s), after w [EvRead state_path] 0)) as Hr.
  { unfold read_json. rewrite (bind_Ok _ _ _ _ _ (emit_after _ w)).
    unfold mbind, M_bind, get_fs.
    change (fs (after w [EvRead state_path] 0)) with (fs w).
    by rewrite node_nonempty, Hsp. }
  unfold Orchestrate.reload. rewrite (bind_Ok _ _ _ _ _ Hr).
  by rewrite RunState_of_asdict.
Qed.

(** ** The loop over the follow-ups *)

Section Followups.
Variable env : Env.
Variable rd : Path.
Variable st : Orchestrate.RunState.

Let state_path : Path := rd </> "state.json".
Let main_log : Path := rd </> "main.log".
Let then_log : Path := rd </> "then.log".

Lemma inside_quiet_runs (cmds : list string) :
  Forall (inside rd) (quiet_runs then_log cmds).
Proof.
  induction cmds as [|cmd cmds IH]; [constructor|].
  unfold quiet_runs; simpl. repeat constructor; simpl; eauto.
Qed.

Lemma then_log_file : "then.log" ∈ run_files.
Proof. unfold run_files. set_solver. Qed.

Lemma main_log_file : "main.log" ∈ run_files.
Proof. unfold run_files. set_solver. Qed.

(** Follow-ups that exit 0 are run one after the other and nothing is
    written to the state file between them. *)
Lemma followups_zeros (pre rest : list string) (i : nat) (acc : list Z)
    (w : World) :
  usable (fs w) rd →
  (∀ j, (j < length pre)%nat → wait env (nruns w + j) = 0) →
  Orchestrate.followups env state_path then_log st i (pre ++ rest) acc w
  = Orchestrate.followups env state_path then_log st (i + length pre) rest
      (acc ++ repeat 0 (length pre))
      (after w (quiet_runs then_log pre) (length pre)).
Proof.
  revert i acc w. induction pre as [|cmd pre IH]; intros i acc w Hu Hz.
  - simpl. by rewrite Nat.add_0_r, app_nil_r, after_nil.
  - change ((cmd :: pre) ++ rest)%list with (cmd :: (pre ++ rest))%list.
    cbn [Orchestrate.followups].
    rewrite (bind_Ok _ _ _ _ _
               (run_shell_ok env rd cmd "then.log" w Hu then_log_file)).
    pose proof (Hz 0%nat ltac:(simpl; lia)) as H0.
    rewrite Nat.add_0_r in H0. rewrite H0. cbn [Z.eqb negb].
    rewrite IH.
    + rewrite after_after. cbn [length].
      rewrite <- app_assoc. cbn [repeat app].
      by rewrite Nat.add_succ_r.
    + apply usable_replay; [done|]. apply inside_run_events.
    + intros j Hj. cbn [after nruns].
      rewrite <- Nat.add_assoc. apply Hz. simpl. lia.
Qed.

Lemma followups_first_failure (pre : list string) (cmd : string)
    (post : list string) (i : nat) (acc : list Z) (c : Z) (w : World) :
  usable (fs w) rd →
  (∀ j, (j < length pre)%nat → wait env (nruns w + j) = 0) →
  wait env (nruns w + length pre) = c → c ≠ 0 →
  Orchestrate.followups env state_path then_log st i (pre ++ cmd :: post)
    acc w
  = (Ok (Orchestrate.Returned 1),
     after w
       (quiet_runs then_log pre ++ run_events cmd then_log c
        ++ write_events state_path
             (Orchestrate.asdict
                (failed_at st (i + length pre)
                   (acc ++ repeat 0 (length pre) ++ [c]) c)))
       (length pre + 1)).
Proof.
  intros Hu Hz Hc Hne. rewrite followups_zeros by done.
  set (w1 := after w (quiet_runs then_log pre) (length pre)).
  assert (usable (fs w1) rd) as Hu1.
  { apply usable_replay; [done|]. apply inside_quiet_runs. }
  cbn [Orchestrate.followups].
  rewrite (bind_Ok _ _ _ _ _
             (run_shell_ok env rd cmd "then.log" w1 Hu1 then_log_file)).
  change (nruns w1) with (nruns w + length pre)%nat. rewrite Hc.
  destruct (Z.eqb_spec c 0) as [|_]; [done|]. cbn [negb].
  set (w2 := after w1 _ 1).
  assert (usable (fs w2) rd) as Hu2.
  { apply usable_replay; [done|]. apply inside_run_events. }
  rewrite (bind_Ok _ _ _ _ _ (write_state_ok rd _ w2 Hu2)).
  unfold w2, w1. rewrite !after_after.
  unfold failed_at. rewrite <- !app_assoc, Nat.add_0_r. reflexivity.
Qed.

Lemma followups_all_succeed (cmds : list string) (i : nat) (acc : list Z)
    (w : World) :
  usable (fs w) rd →
  (∀ j, (j < length cmds)%nat → wait env (nruns w + j) = 0) →
  Orchestrate.followups env state_path then_log st i cmds acc w
  = (Ok (Orchestrate.Fell_through (acc ++ repeat 0 (length cmds))),
     after w (quiet_runs then_log cmds) (length cmds)).
Proof.
  intros Hu Hz.
  rewrite <- (app_nil_r cmds) at 1. by rewrite followups_zeros.
Qed.

End Followups.

(** ** The three ways the control loop ends *)

Section Outcomes.
Variable env : Env.
Variable rd : Path.
Variable st : Orchestrate.RunState.

Let state_path : Path := rd </> "state.json".
Let main_log : Path := rd </> "main.log".
Let then_log : Path := rd </> "then.log".

Lemma control_loop_main_failed (c : Z) (w : World) :
  usable (fs w) rd →
  wait env (nruns w) = c → c ≠ 0 →
  Orchestrate.control_loop env rd st w
  = (Ok 1,
     after w
       (write_events state_path (Orchestrate.asdict (running st))
        ++ run_events (Orchestrate.main_cmd st) main_log c
        ++ write_events state_path
             (Orchestrate.asdict
                (Orchestrate.set_error
                   (Some ("main command failed with rc=" +:+ fmt_int c))
                   (Orchestrate.set_status "failed" (main_done st c)))))
       1).
Proof.
  intros Hu Hc Hne. unfold Orchestrate.control_loop.
  rewrite (bind_Ok _ _ _ _ _ (write_state_ok rd _ w Hu)).
  set (w1 := after w _ 0).
  assert (usable (fs w1) rd) as Hu1.
  { apply usable_replay; [done|]. apply inside_write_events. }
  rewrite (bind_Ok _ _ _ _ _
             (run_shell_ok env rd _ "main.log" w1 Hu1 main_log_file)).
  change (nruns w1) with (nruns w + 0)%nat. rewrite Nat.add_0_r, Hc.
  destruct (Z.eqb_spec c 0) as [|_]; [done|]. cbn [negb].
  set (w2 := after w1 _ 1).
  assert (usable (fs w2) rd) as Hu2.
  { apply usable_replay; [done|]. apply inside_run_events. }
  rewrite (bind_Ok _ _ _ _ _ (write_state_ok rd _ w2 Hu2)).
  unfold w2, w1. rewrite !after_after, <- ?app_assoc. reflexivity.
Qed.

Lemma control_loop_followup_failed (pre : list string) (cmd : string)
    (post : list string) (c : Z) (w : World) :
  usable (fs w) rd →
  wait env (nruns w) = 0 →
  Orchestrate.then_cmds st = (pre ++ cmd :: post)%list →
  (∀ j, (j < length pre)%nat → wait env (nruns w + 1 + j) = 0) →
  wait env (nruns w + 1 + length pre) = c → c ≠ 0 →
  Orchestrate.control_loop env rd st w
  = (Ok 1,
     after w
       (write_events state_path (Orchestrate.asdict (running st))
        ++ run_events (Orchestrate.main_cmd st) main_log 0
        ++ quiet_runs then_log pre
        ++ run_events cmd then_log c
        ++ write_events state_path
             (Orchestrate.asdict
                (failed_at (main_done st 0) (1 + length pre)
                   (repeat 0 (length pre) ++ [c]) c)))
       (1 + (length pre + 1))).
Proof.
  intros Hu H0 Hcmds Hz Hc Hne. unfold Orchestrate.control_loop.
  rewrite (bind_Ok _ _ _ _ _ (write_state_ok rd _ w Hu)).
  set (w1 := after w _ 0).
  assert (usable (fs w1) rd) as Hu1.
  { apply usable_replay; [done|]. apply inside_write_events. }
  rewrite (bind_Ok _ _ _ _ _
             (run_shell_ok env rd _ "main.log" w1 Hu1 main_log_file)).
  change (nruns w1) with (nruns w + 0)%nat. rewrite Nat.add_0_r, H0.
  cbn [Z.eqb negb].
  set (w2 := after w1 _ 1).
  assert (usable (fs w2) rd) as Hu2.
  { apply usable_replay; [done|]. apply inside_run_events. }
  change (Orchestrate.then_cmds _) with (Orchestrate.then_cmds st).
  rewrite Hcmds.
  rewrite (bind_Ok _ _ _ _ _
             (followups_first_failure env rd _ pre cmd post 1 [] c w2 Hu2
                ltac:(intros j Hj;
                      change (nruns w2) with (nruns w + 0 + 1)%nat;
                      rewrite Nat.add_0_r; by apply Hz)
                ltac:(change (nruns w2) with (nruns w + 0 + 1)%nat;
                      by rewrite Nat.add_0_r) Hne)).
  unfold w2, w1. rewrite !after_after, <- ?app_assoc. reflexivity.
Qed.

Lemma control_loop_completed (w : World) :
  usable (fs w) rd →
  wait env (nruns w) = 0 →
  (∀ j, (j < length (Orchestrate.then_cmds st))%nat →
        wait env (nruns w + 1 + j) = 0) →
  Orchestrate.control_loop env rd st w
  = (Ok 0,
     after w
       (write_events state_path (Orchestrate.asdict (running st))
        ++ run_events (Orchestrate.main_cmd st) main_log 0
        ++ quiet_runs then_log (Orchestrate.then_cmds st)
        ++ write_events state_path
             (Orchestrate.asdict
                (Orchestrate.set_status "completed"
                   (Orchestrate.set_then_rcs
                      (Some (repeat 0 (length (Orchestrate.then_cmds st))))
                      (main_done st 0)))))
       (1 + length (Orchestrate.then_cmds st))).
Proof.
  intros Hu H0 Hz. unfold Orchestrate.control_loop.
  rewrite (bind_Ok _ _ _ _ _ (write_state_ok rd _ w Hu)).
  set (w1 := after w _ 0).
  assert (usable (fs w1) rd) as Hu1.
  { apply usable_replay; [done|]. apply inside_write_events. }
  rewrite (bind_Ok _ _ _ _ _
             (run_shell_ok env rd _ "main.log" w1 Hu1 main_log_file)).
  change (nruns w1) with (nruns w + 0)%nat. rewrite Nat.add_0_r, H0.
  cbn [Z.eqb negb].
  set (w2 := after w1 _ 1).
  assert (usable (fs w2) rd) as Hu2.
  { apply usable_replay; [done|]. apply inside_run_events. }
  change (Orchestrate.then_cmds _) with (Orchestrate.then_cmds st).
  rewrite (bind_Ok _ _ _ _ _
             (followups_all_succeed env rd _ _ 1 [] w2 Hu2
                ltac:(intros j Hj;
                      change (nruns w2) with (nruns w + 0 + 1)%nat;
                      rewrite Nat.add_0_r; by apply Hz))).
  set (w3 := after w2 _ _).
  assert (usable (fs w3) rd) as Hu3.
  { apply usable_replay; [done|]. apply inside_quiet_runs. }
  cbn [app].
  rewrite (bind_Ok _ _ _ _ _ (write_state_ok rd _ w3 Hu3)).
  unfold w3, w2, w1. rewrite !after_after, <- ?app_assoc.
  rewrite Nat.add_0_r. reflexivity.
Qed.

End Outcomes.

(** ** Making the run directory *)

Lemma ancestors_shorter (q rd : Path) :
  q ∈ ancestors rd → (length q < length rd)%nat.
Proof.
  unfold ancestors. intros (k & -> & Hk%elem_of_seq)%list_elem_of_fmap.
  rewrite length_take. lia.
Qed.

Lemma is_file_mkdir (f : FS) (q p : Path) :
  is_file f p = false → is_file (<[q := Dir]> f) p = false.
Proof.
  unfold is_file. destruct p as [|c p]; [done|]. simpl.
  rewrite lookup_insert. by case_decide.
Qed.

Lemma mkdir_each_ok (qs : list Path) (w : World) :
  Forall (λ q, is_file (fs w) q = false) qs →
  ∃ evs, mkdir_each qs w = (Ok tt, after w evs 0)
         ∧ Forall (λ ev, ∃ q, ev = EvMkdir q ∧ q ∈ qs) evs.
Proof.
  revert w. induction qs as [|q qs IH]; intros w Hall.
  - exists []. by rewrite after_nil.
  - inversion Hall as [|? ? Hq Hrest]; subst.
    cbn [mkdir_each]. unfold mbind at 1. unfold M_bind, get_fs.
    unfold is_file in Hq.
    destruct (node (fs w) q) as [[|c]|] eqn:E; [|done|].
    + destruct (IH w Hrest) as (evs & -> & Hevs). exists evs. split; [done|].
      eapply Forall_impl; [exact Hevs|]. intros ev (q' & -> & ?).
      exists q'. split; [done|]. set_solver.
    + rewrite (bind_Ok _ _ _ _ _ (emit_after _ w)).
      destruct (IH (after w [EvMkdir q] 0)) as (evs & -> & Hevs).
      { eapply Forall_impl; [exact Hrest|]. intros p Hp. simpl.
        by apply is_file_mkdir. }
      exists (EvMkdir q :: evs). rewrite after_after. split; [done|].
      constructor; [exists q; set_solver|].
      eapply Forall_impl; [exact Hevs|]. intros ev (q' & -> & ?).
      exists q'. split; [done|]. set_solver.
Qed.

Lemma mkdir_ok (rd : Path) (exist_ok : bool) (w : World) :
  Forall (λ q, is_file (fs w) q = false) (ancestors rd) →
  node (fs w) rd = None ∨ (exist_ok = true ∧ node (fs w) rd = Some Dir) →
  ∃ evs, mkdir rd exist_ok w = (Ok tt, after w evs 0)
         ∧ Forall (λ ev, ∃ q, ev = EvMkdir q ∧ (length q ≤ length rd)%nat) evs
         ∧ node (replay evs (fs w)) rd = Some Dir.
Proof.
  intros Hanc Hrd. unfold mkdir, mbind at 1. unfold M_bind, get_fs.
  destruct Hrd as [Hnone | [-> Hdir]].
  - rewrite Hnone.
    destruct (mkdir_each_ok _ w Hanc) as (evs & Hevs & Hall).
    rewrite (bind_Ok _ _ _ _ _ Hevs), emit_after, after_after.
    exists (evs ++ [EvMkdir rd]). split; [done|]. split.
    + apply Forall_app. split.
      * eapply Forall_impl; [exact Hall|]. intros ev (q & -> & Hq).
        exists q. split; [done|]. apply ancestors_shorter in Hq. lia.
      * constructor; [|constructor]. by exists rd.
    + rewrite replay_app. unfold replay at 1. simpl.
      destruct rd as [|c rd']; [done|]. simpl. apply lookup_insert_eq.
  - rewrite Hdir. exists []. rewrite after_nil. by repeat split.
Qed.

(** ** From the command line to the control loop *)

Section Startup.
Variable env : Env.
Variable args : Orchestrate.Args.
Variable fs0 : FS.
Variable ws : Path.

Let rd : Path := run_dir_of env args ws.
Let state_path : Path := rd </> "state.json".

Hypothesis foreground : Orchestrate.args_detach args = false.
Hypothesis root_found :
  Orchestrate.resolve_workspace_root env (Orchestrate.args_workspace args)
    (initial fs0) = (Ok ws, initial fs0).
Hypothesis startable : can_start env fs0 rd = true.

Lemma run_dir_made :
  ∃ pre,
    (if truthy_str (environ_LONGRUN_RUN_DIR env) then
       mkdir (resolve env (default "" (environ_LONGRUN_RUN_DIR env))) true;;
       mret (resolve env (default "" (environ_LONGRUN_RUN_DIR env)))
     else Orchestrate.make_run_dir env ws (Orchestrate.args_label args))
      (initial fs0)
    = (Ok rd, after (initial fs0) pre 0)
    ∧ Forall is_mkdir pre
    ∧ usable (replay pre fs0) rd.
Proof.
  unfold can_start, can_host in startable.
  apply andb_true_iff in startable as [Hhost Hmode].
  apply andb_true_iff in Hhost as [Hhost Hfiles].
  apply andb_true_iff in Hhost as [Hanc Hrd].
  assert (Forall (λ q, is_file fs0 q = false) (ancestors rd)) as Hanc'.
  { apply Forall_forall. intros q Hq.
    rewrite forallb_forall in Hanc. apply negb_true_iff, Hanc.
    by apply list_elem_of_In. }
  assert (∀ evs,
            Forall (λ ev, ∃ q, ev = EvMkdir q ∧ (length q ≤ length rd)%nat) evs →
            node (replay evs fs0) rd = Some Dir →
            Forall is_mkdir evs ∧ usable (replay evs fs0) rd) as Hfin.
  { intros evs Hevs Hdir. split.
    - eapply Forall_impl; [exact Hevs|]. by intros ev (q & -> & _).
    - split; [done|]. intros n Hn. rewrite node_div.
      rewrite replay_untouched.
      + rewrite forallb_forall in Hfiles.
        apply list_elem_of_In, Hfiles, negb_true_iff in Hn.
        unfold is_dir in Hn. rewrite node_div in Hn.
        destruct (fs0 !! (rd </> n)) as [[|c]|]; done.
      + eapply Forall_impl; [exact Hevs|]. intros ev (q & -> & Hlen). simpl.
        intros E%list_elem_of_singleton. rewrite <- E in Hlen.
        unfold path_div in Hlen. rewrite length_app in Hlen. simpl in Hlen.
        lia. }
  assert (node fs0 rd = None
          ∨ (truthy_str (environ_LONGRUN_RUN_DIR env) = true
             ∧ node fs0 rd = Some Dir)) as Hcase.
  { apply negb_true_iff in Hrd. unfold is_file in Hrd.
    destruct (node fs0 rd) as [[|c]|]; [|done|by left].
    right. split; [|done]. apply orb_true_iff in Hmode as [?|?]; done. }
  unfold rd in *. unfold run_dir_of in *.
  destruct (truthy_str (environ_LONGRUN_RUN_DIR env)) eqn:Emode.
  - destruct (mkdir_ok _ true (initial fs0) Hanc') as (evs & Hevs & Hall & Hdir).
    { destruct Hcase as [?|[_ ?]]; [by left|by right]. }
    exists evs. rewrite (bind_Ok _ _ _ _ _ Hevs). split; [done|].
    by apply Hfin.
  - destruct (mkdir_ok _ false (initial fs0) Hanc') as (evs & Hevs & Hall & Hdir).
    { destruct Hcase as [?|[? _]]; [by left|done]. }
    exists evs. unfold Orchestrate.make_run_dir, Orchestrate.now_tag.
    rewrite (bind_Ok _ _ _ _ _ Hevs). split; [done|].
    by apply Hfin.
Qed.

(** [main] in the foreground comes down to the control loop, started on
    the record it has just written (and, as the reattached worker, read
    back). *)
Lemma main_reaches_control_loop :
  ∃ pre,
    Forall is_mkdir pre
    ∧ usable
        (replay (pre
                 ++ write_events state_path
                      (Orchestrate.asdict
                         (run_record env args ws "created" None None None))
                 ++ reload_events env state_path) fs0) rd
    ∧ Orchestrate.main env args (initial fs0)
      = Orchestrate.control_loop env rd
          (run_record env args ws "created" None None None)
          (after (initial fs0)
             (pre
              ++ write_events state_path
                   (Orchestrate.asdict
                      (run_record env args ws "created" None None None))
              ++ reload_events env state_path) 0).
Proof.
  destruct run_dir_made as (pre & Hpre & Hmk & Hu).
  exists pre. split; [done|].
  set (created := run_record env args ws "created" None None None).
  set (w0 := after (initial fs0) pre 0).
  set (w1 := after w0 (write_events state_path (Orchestrate.asdict created)) 0).
  assert (usable (fs w1) rd) as Hu1.
  { apply usable_replay; [done|]. apply inside_write_events. }
  assert (fs w1 !! state_path
          = Some (File (JsonText (Orchestrate.asdict created)))) as Hsp.
  { apply write_events_lookup. unfold state_path. by rewrite name_div. }
  assert (usable (replay (reload_events env state_path) (fs w1)) rd) as Hu2.
  { unfold reload_events. by destruct (truthy_str _). }
  split.
  { rewrite !replay_app. exact Hu2. }
  unfold Orchestrate.main.
  rewrite (bind_Ok _ _ _ _ _ root_found).
  rewrite (bind_Ok _ _ _ _ _ Hpre).
  fold rd state_path. fold created. fold w0.
  rewrite (bind_Ok _ _ _ _ _ (write_state_ok rd _ w0 Hu)).
  fold state_path w1. rewrite foreground.
  replace (after (initial fs0) _ 0)
    with (after w1 (reload_events env state_path) 0)
    by (unfold w1, w0; by rewrite !after_after, <- ?app_assoc).
  unfold reload_events.
  destruct (truthy_str (environ_LONGRUN_RUN_DIR env)).
  - by rewrite (bind_Ok _ _ _ _ _
                  (reload_ok state_path created w1 (div_nonempty _ _) Hsp)).
  - rewrite after_nil. reflexivity.
Qed.

End Startup.

(** ** Reading a finished run off its trace *)

Lemma commands_run_app (a b : list Event) :
  commands_run (a ++ b) = commands_run a ++ commands_run b.
Proof. unfold commands_run. apply omap_app. Qed.

Lemma commands_run_mkdirs (evs : list Event) :
  Forall is_mkdir evs → commands_run evs = [].
Proof.
  induction 1 as [|ev evs Hev _ IH]; [done|].
  by destruct ev.
Qed.

Lemma commands_run_reload (env : Env) (p : Path) :
  commands_run (reload_events env p) = [].
Proof. unfold reload_events. by destruct (truthy_str _). Qed.

Lemma commands_run_quiet (log : Path) (cmds : list string) :
  commands_run (quiet_runs log cmds) = cmds.
Proof.
  induction cmds as [|cmd cmds IH]; [done|].
  unfold quiet_runs in *. simpl. by rewrite IH.
Qed.

Lemma written_last (X : list Event) (path : Path) (obj : Json) (fs0 : FS) :
  name path ≠ "" →
  replay (X ++ write_events path obj) fs0 !! path
  = Some (File (JsonText obj)).
Proof. intros Hn. rewrite replay_app. by apply write_events_lookup. Qed.

Lemma map_zero (f : nat → Z) (a m : nat) :
  (∀ j, (a ≤ j < a + m)%nat → f j = 0) → map f (seq a m) = repeat 0 m.
Proof.
  revert a. induction m as [|m IH]; intros a Hz; [done|].
  simpl. rewrite Hz by lia. f_equal. apply IH. intros j Hj. apply Hz. lia.
Qed.

Lemma first_nonzero (f : nat → Z) (n : nat) :
  (∀ j, (j < n)%nat → f j = 0)
  ∨ ∃ m, (m < n)%nat ∧ (∀ j, (j < m)%nat → f j = 0) ∧ f m ≠ 0.
Proof.
  induction n as [|n [IH | (m & Hm & Hz & Hne)]].
  - left. intros j Hj. lia.
  - destruct (decide (f n = 0)) as [E|E].
    + left. intros j Hj. destruct (decide (j = n)) as [->|]; [done|].
      apply IH. lia.
    + right. exists n. split; [lia|]. by split.
  - right. exists m. split; [lia|]. by split.
Qed.

(** ** The shape of a foreground run *)

Lemma followup_events_quiet (log : Path) (pre : list string) :
  followup_events log pre (repeat 0 (length pre)) = quiet_runs log pre.
Proof.
  unfold followup_events, quiet_runs.
  induction pre as [|cmd pre IH]; [done|]. simpl. by rewrite IH.
Qed.

Lemma followup_events_snoc (log : Path) (pre : list string) (cmd : string)
    (c : Z) :
  followup_events log (pre ++ [cmd]) (repeat 0 (length pre) ++ [c])
  = quiet_runs log pre ++ run_events cmd log c.
Proof.
  unfold followup_events, quiet_runs.
  induction pre as [|x pre IH]; [done|]. simpl. by rewrite IH.
Qed.

Lemma commands_run_followups (log : Path) (cmds : list string)
    (codes : list Z) :
  length codes = length cmds →
  commands_run (followup_events log cmds codes) = cmds.
Proof.
  unfold followup_events. revert codes.
  induction cmds as [|cmd cmds IH]; intros [|c codes] Hlen; try done.
  simpl in *. f_equal. apply IH. lia.
Qed.

Section Foreground.
Variable env : Env.
Variable args : Orchestrate.Args.
Variable fs0 : FS.
Variable ws : Path.

Let rd : Path := run_dir_of env args ws.
Let state_path : Path := rd </> "state.json".
Let then_log : Path := rd </> "then.log".

Hypothesis foreground : Orchestrate.args_detach args = false.
Hypothesis root_found :
  Orchestrate.resolve_workspace_root env (Orchestrate.args_workspace args)
    (initial fs0) = (Ok ws, initial fs0).
Hypothesis startable : can_start env fs0 rd = true.

(** The main command fails. *)
Lemma foreground_main_failed (c : Z) :
  wait env 0 = c → c ≠ 0 →
  ∃ pre,
    Forall is_mkdir pre
    ∧ Orchestrate.main env args (initial fs0)
      = (Ok 1,
         after (initial fs0)
           (head_events env args ws pre c
            ++ write_events state_path
                 (Orchestrate.asdict
                    (run_record env args ws "failed" (Some c) None
                       (Some (main_failed_msg c)))))
           1).
Proof.
  intros Hc Hne.
  destruct (main_reaches_control_loop env args fs0 ws foreground root_found
              startable) as (pre & Hmk & Hu & ->).
  exists pre. split; [done|].
  set (w1 := after (initial fs0) _ 0).
  rewrite (control_loop_main_failed env _ _ c w1 Hu Hc Hne).
  unfold w1. rewrite after_after. unfold head_events.
  by rewrite <- !app_assoc.
Qed.

(** The main command succeeds: the chain runs up to some step [k], after
    which one write ends the run, as completed when every follow-up exited
    0 and as failed when the [k]-th was the first not to. *)
Lemma foreground_chain :
  wait env 0 = 0 →
  ∃ pre k status err code,
    Forall is_mkdir pre
    ∧ (k ≤ length (Orchestrate.args_then args))%nat
    ∧ (∀ j, (1 ≤ j < k)%nat → wait env j = 0)
    ∧ Orchestrate.main env args (initial fs0)
      = (Ok code,
         after (initial fs0)
           (head_events env args ws pre 0
            ++ followup_events then_log
                 (take k (Orchestrate.args_then args))
                 (map (wait env) (seq 1 k))
            ++ write_events state_path
                 (Orchestrate.asdict
                    (run_record env args ws status (Some 0)
                       (Some (map (wait env) (seq 1 k))) err)))
           (1 + k))
    ∧ ((status = "completed" ∧ code = 0 ∧ err = None
        ∧ k = length (Orchestrate.args_then args) ∧ wait env k = 0)
       ∨ (status = "failed" ∧ code = 1 ∧ (1 ≤ k)%nat ∧ wait env k ≠ 0
          ∧ err = Some (followup_failed_msg k (wait env k)))).
Proof.
  intros H0.
  destruct (main_reaches_control_loop env args fs0 ws foreground root_found
              startable) as (pre & Hmk & Hu & ->).
  set (w1 := after (initial fs0) _ 0) in *.
  set (cmds := Orchestrate.args_then args).
  destruct (first_nonzero (λ j, wait env (1 + j)) (length cmds))
    as [Hz | (m & Hm & Hz & Hne)].
  - exists pre, (length cmds), "completed", None, 0.
    split; [done|]. split; [done|]. split.
    { intros j Hj. specialize (Hz (j - 1)%nat ltac:(lia)).
      by replace (1 + (j - 1))%nat with j in Hz by lia. }
    assert (map (wait env) (seq 1 (length cmds)) = repeat 0 (length cmds))
      as Hcodes.
    { apply map_zero. intros j Hj. specialize (Hz (j - 1)%nat ltac:(lia)).
      by replace (1 + (j - 1))%nat with j in Hz by lia. }
    split.
    + rewrite (control_loop_completed env (run_dir_of env args ws)
                 (run_record env args ws "created" None None None)
                 w1 Hu H0 Hz).
      unfold w1. rewrite after_after. unfold head_events.
      rewrite Hcodes, firstn_all, followup_events_quiet.
      by rewrite <- !app_assoc.
    + left. repeat split; try done.
      destruct cmds as [|cmd cmds'] eqn:E; [done|].
      specialize (Hz (length cmds') ltac:(simpl; lia)).
      by replace (1 + length cmds')%nat with (length (cmd :: cmds')) in Hz.
  - destruct (lookup_lt_is_Some_2 cmds m Hm) as [cmd Hcmd].
    exists pre, (S m), "failed", (Some (followup_failed_msg (S m) (wait env (S m)))), 1.
    split; [done|]. split; [lia|]. split.
    { intros j Hj. specialize (Hz (j - 1)%nat ltac:(lia)).
      by replace (1 + (j - 1))%nat with j in Hz by lia. }
    assert (length (take m cmds) = m) as Hlen by (rewrite length_take; lia).
    assert (map (wait env) (seq 1 (S m)) = repeat 0 m ++ [wait env (S m)])
      as Hcodes.
    { rewrite seq_S, map_app. simpl. f_equal.
      apply map_zero. intros j Hj. specialize (Hz (j - 1)%nat ltac:(lia)).
      by replace (1 + (j - 1))%nat with j in Hz by lia. }
    assert (followup_events then_log (take (S m) cmds)
              (map (wait env) (seq 1 (S m)))
            = quiet_runs then_log (take m cmds)
              ++ run_events cmd then_log (wait env (S m))) as Hev.
    { rewrite Hcodes, (take_S_r _ _ _ Hcmd).
      pose proof (followup_events_snoc then_log (take m cmds) cmd
                    (wait env (S m))) as E.
      by rewrite Hlen in E. }
    split.
    + rewrite (control_loop_followup_failed env (run_dir_of env args ws)
                 (run_record env args ws "created" None None None)
                 (take m cmds) cmd
                 (drop (S m) cmds) (wait env (S m)) w1 Hu H0).
      * unfold w1. rewrite after_after. unfold head_events.
        rewrite Hev, Hcodes, <- !app_assoc, Hlen.
        replace (0 + (1 + (m + 1)))%nat with (1 + S m)%nat by lia.
        reflexivity.
      * simpl. by rewrite take_drop_middle.
      * intros j Hj. rewrite Hlen in Hj. by apply Hz.
      * by rewrite Hlen.
      * done.
    + right. repeat split; try done. lia.
Qed.

End Foreground.

(** C7. A foreground run whose main command exits with [c], nonzero:
    [main] returns 1, the only command it has run is the main one, and
    the state file it leaves holds the full record with [status] failed,
    [main_rc] [c], the error "main command failed with rc=<c>" and no
    follow-up exit codes ([then_rcs] is left at [None]). *)
Theorem main_failure_recorded (env : Env) (args : Orchestrate.Args)
    (fs0 : FS) (ws : Path) (c : Z) :
  Orchestrate.args_detach args = false →
  Orchestrate.resolve_workspace_root env (Orchestrate.args_workspace args)
    (initial fs0) = (Ok ws, initial fs0) →
  can_start env fs0 (run_dir_of env args ws) = true →
  wait env 0 = c → c ≠ 0 →
  let out := Orchestrate.main env args (initial fs0) in
  out.1 = Ok 1
  ∧ fs out.2 !! (run_dir_of env args ws </> "state.json")
    = Some (File (JsonText (Orchestrate.asdict
        (run_record env args ws "failed" (Some c) None
           (Some ("main command failed with rc=" +:+ fmt_int c))))))
  ∧ commands_run (trace out.2) = [Orchestrate.args_cmd args].
Proof.
  intros Hfg Hroot Hstart Hc Hne out. subst out.
  destruct (foreground_main_failed env args fs0 ws Hfg Hroot Hstart c Hc Hne)
    as (pre & Hmk & ->).
  cbn [fst snd after fs trace initial]. split; [done|]. split.
  - apply written_last. by rewrite name_div.
  - unfold head_events.
    rewrite !commands_run_app, (commands_run_mkdirs pre Hmk),
      commands_run_reload.
    reflexivity.
Qed.

Lemma main_failure_recorded_witness :
  let out :=
    Orchestrate.main (with_wait (λ _, 2) demo_env) demo_args (initial ∅) in
  out.1 = Ok 1
  ∧ fs out.2 !! (demo_run_dir </> "state.json")
    = Some (File (JsonText (JObj
        [ ("run_id", JStr "job_20240102_030405");
          ("label", JStr "job");
          ("workspace", JStr "/work");
          ("created_at", JStr "2024-01-02T03:04:05");
          ("status", JStr "failed");
          ("main_cmd", JStr "make");
          ("then_cmds", JList [JStr "a"; JStr "b"; JStr "c"]);
          ("main_pid", JNull);
          ("main_rc", JInt 2);
          ("then_rcs", JNull);
          ("error", JStr "main command failed with rc=2") ])))
  ∧ commands_run (trace out.2) = ["make"].
Proof.
  apply (main_failure_recorded (with_wait (λ _, 2) demo_env) demo_args ∅
           ["work"] 2);
    [reflexivity | reflexivity | reflexivity | reflexivity | discriminate].
Defined.

(** C6. A foreground run whose main command exits 0 and whose [n]-th
    follow-up (counted from 1) is the first to exit nonzero, with [c]:
    [main] returns 1; the commands run are the main one and follow-ups
    1 to [n], none after; the state file holds [status] failed, the error
    "follow-up failed at step <n> rc=<c>" and as [then_rcs] the codes of
    follow-ups 1 to [n]. *)
Theorem followup_failure_recorded (env : Env) (args : Orchestrate.Args)
    (fs0 : FS) (ws : Path) (n : nat) (c : Z) :
  Orchestrate.args_detach args = false →
  Orchestrate.resolve_workspace_root env (Orchestrate.args_workspace args)
    (initial fs0) = (Ok ws, initial fs0) →
  can_start env fs0 (run_dir_of env args ws) = true →
  wait env 0 = 0 →
  (1 ≤ n ≤ length (Orchestrate.args_then args))%nat →
  (∀ j, (1 ≤ j < n)%nat → wait env j = 0) →
  wait env n = c → c ≠ 0 →
  let out := Orchestrate.main env args (initial fs0) in
  out.1 = Ok 1
  ∧ fs out.2 !! (run_dir_of env args ws </> "state.json")
    = Some (File (JsonText (Orchestrate.asdict
        (run_record env args ws "failed" (Some 0)
           (Some (map (wait env) (seq 1 n)))
           (Some ("follow-up failed at step " +:+ fmt_nat n
                    +:+ " rc=" +:+ fmt_int c))))))
  ∧ commands_run (trace out.2)
    = Orchestrate.args_cmd args :: take n (Orchestrate.args_then args).
Proof.
  intros Hfg Hroot Hstart H0 Hn Hz Hc Hne out. subst out.
  destruct (foreground_chain env args fs0 ws Hfg Hroot Hstart H0)
    as (pre & k & status & err & code & Hmk & Hk & Hzk & -> & Hend).
  assert (k = n ∧ status = "failed" ∧ code = 1
          ∧ err = Some (followup_failed_msg n c)) as (-> & -> & -> & ->).
  { destruct Hend as [(_ & _ & _ & -> & Hlast) | (-> & -> & Hk1 & Hkne & ->)].
    - exfalso. destruct (decide (n = length (Orchestrate.args_then args)))
        as [E|E].
      + rewrite <- E in Hlast. congruence.
      + rewrite Hzk in Hc by lia. congruence.
    - assert (k = n) as ->.
      { destruct (Nat.lt_trichotomy k n) as [Hlt|[E|Hgt]]; [|done|].
        - rewrite Hz in Hkne by lia. done.
        - rewrite Hzk in Hc by lia. congruence. }
      by rewrite Hc. }
  cbn [fst snd after fs trace initial]. split; [done|]. split.
  - rewrite app_assoc. apply written_last. by rewrite name_div.
  - unfold head_events.
    rewrite !commands_run_app, (commands_run_mkdirs pre Hmk),
      commands_run_reload, commands_run_followups.
    + cbn [commands_run write_events run_events omap app].
      by rewrite app_nil_r.
    + rewrite length_map, length_seq, length_take. lia.
Qed.

Lemma followup_failure_recorded_witness :
  let out := Orchestrate.main demo_env demo_args (initial ∅) in
  out.1 = Ok 1
  ∧ fs out.2 !! (demo_run_dir </> "state.json")
    = Some (File (JsonText (JObj
        [ ("run_id", JStr "job_20240102_030405");
          ("label", JStr "job");
          ("workspace", JStr "/work");
          ("created_at", JStr "2024-01-02T03:04:05");
          ("status", JStr "failed");
          ("main_cmd", JStr "make");
          ("then_cmds", JList [JStr "a"; JStr "b"; JStr "c"]);
          ("main_pid", JNull);
          ("main_rc", JInt 0);
          ("then_rcs", JList [JInt 0; JInt 5]);
          ("error", JStr "follow-up failed at step 2 rc=5") ])))
  ∧ commands_run (trace out.2) = ["make"; "a"; "b"].
Proof.
  apply (followup_failure_recorded demo_env demo_args ∅ ["work"] 2 5);
    [ reflexivity | reflexivity | reflexivity | reflexivity
    | simpl; lia
    | intros j Hj; assert (j = 1%nat) as -> by lia; reflexivity
    | reflexivity | discriminate ].
Defined.

(** C8. A foreground run whose main command and follow-ups (none, or
    more) all exit 0 ends with [main] returning 0 and the state file
    holding [status] completed with no error.  Whatever the exit codes,
    the value [main] returns, which is the exit status of the process, is 0
    when the state it leaves is completed and 1 when it is failed. *)
Theorem exit_code_mirrors_status (env : Env) (args : Orchestrate.Args)
    (fs0 : FS) (ws : Path) :
  Orchestrate.args_detach args = false →
  Orchestrate.resolve_workspace_root env (Orchestrate.args_workspace args)
    (initial fs0) = (Ok ws, initial fs0) →
  can_start env fs0 (run_dir_of env args ws) = true →
  let out := Orchestrate.main env args (initial fs0) in
  let state_path := run_dir_of env args ws </> "state.json" in
  (wait env 0 = 0 →
   (∀ j, (1 ≤ j ≤ length (Orchestrate.args_then args))%nat → wait env j = 0) →
   out.1 = Ok 0
   ∧ exit_status out.1 = 0
   ∧ fs out.2 !! state_path
     = Some (File (JsonText (Orchestrate.asdict
         (run_record env args ws "completed" (Some 0)
            (Some (repeat 0 (length (Orchestrate.args_then args))))
            None)))))
  ∧ ∃ st,
      fs out.2 !! state_path = Some (File (JsonText (Orchestrate.asdict st)))
      ∧ ((Orchestrate.status st = "completed" ∧ exit_status out.1 = 0)
         ∨ (Orchestrate.status st = "failed" ∧ exit_status out.1 = 1)).
Proof.
  intros Hfg Hroot Hstart out state_path. subst out state_path. split.
  - intros H0 Hz.
    destruct (foreground_chain env args fs0 ws Hfg Hroot Hstart H0)
      as (pre & k & status & err & code & Hmk & Hk & Hzk & -> & Hend).
    destruct Hend as [(-> & -> & -> & -> & _) | (_ & _ & Hk1 & Hkne & _)].
    + cbn [fst snd after fs trace initial exit_status].
      split; [done|]. split; [done|].
      rewrite app_assoc, written_last by (by rewrite name_div).
      rewrite map_zero; [done|]. intros j Hj. apply Hz. lia.
    + exfalso. apply Hkne, Hz. lia.
  - destruct (decide (wait env 0 = 0)) as [H0|H0].
    + destruct (foreground_chain env args fs0 ws Hfg Hroot Hstart H0)
        as (pre & k & status & err & code & Hmk & Hk & Hzk & -> & Hend).
      eexists. cbn [fst snd after fs trace initial exit_status]. split.
      { rewrite app_assoc. apply written_last. by rewrite name_div. }
      destruct Hend as [(-> & -> & _) | (-> & -> & _)]; [by left|by right].
    + destruct (foreground_main_failed env args fs0 ws Hfg Hroot Hstart _
                  eq_refl H0) as (pre & Hmk & ->).
      eexists. cbn [fst snd after fs trace initial exit_status]. split.
      { apply written_last. by rewrite name_div. }
      by right.
Qed.

Lemma exit_code_mirrors_status_witness :
  let out :=
    Orchestrate.main (with_wait (λ _, 0) demo_env) demo_args (initial ∅) in
  out.1 = Ok 0
  ∧ exit_status out.1 = 0
  ∧ fs out.2 !! (demo_run_dir </> "state.json")
    = Some (File (JsonText (JObj
        [ ("run_id", JStr "job_20240102_030405");
          ("label", JStr "job");
          ("workspace", JStr "/work");
          ("created_at", JStr "2024-01-02T03:04:05");
          ("status", JStr "completed");
          ("main_cmd", JStr "make");
          ("then_cmds", JList [JStr "a"; JStr "b"; JStr "c"]);
          ("main_pid", JNull);
          ("main_rc", JInt 0);
          ("then_rcs", JList [JInt 0; JInt 0; JInt 0]);
          ("error", JNull) ]))).
Proof.
  apply (exit_code_mirrors_status (with_wait (λ _, 0) demo_env) demo_args ∅
           ["work"]);
    [reflexivity | reflexivity | reflexivity | reflexivity | reflexivity].
Defined.

(** ** What is on disk while the chain runs *)

Lemma proper_prefix_past (H : list Event) (R : Event) (X : list Event)
    (Wlast : Event) (evs : list Event) :
  R ∉ H →
  evs `prefix_of` (H ++ [R]) ++ X ++ [Wlast] →
  evs ≠ (H ++ [R]) ++ X ++ [Wlast] →
  R ∈ evs →
  ∃ j, evs = (H ++ [R]) ++ take j X.
Proof.
  intros HR [rest Hpre] Hne Hin.
  set (T := (H ++ [R]) ++ X ++ [Wlast]) in *.
  assert (evs = take (length evs) T) as Hevs.
  { rewrite Hpre. by rewrite take_app_length. }
  assert (length evs < length T)%nat as Hlt.
  { destruct (decide (length evs < length T)%nat) as [|Hge]; [done|].
    exfalso. apply Hne. rewrite Hevs. apply take_ge. lia. }
  destruct (decide (length evs ≤ length H)%nat) as [Hle|Hgt].
  - exfalso. apply HR. rewrite Hevs in Hin. unfold T in Hin.
    rewrite <- !app_assoc in Hin. rewrite take_app_le in Hin by done.
    by apply subseteq_take in Hin.
  - exists (length evs - length (H ++ [R]))%nat.
    rewrite Hevs at 1. unfold T.
    rewrite take_app_ge by (rewrite length_app; simpl; lia).
    f_equal. apply take_app_le.
    unfold T in Hlt. rewrite !length_app in Hlt. simpl in Hlt.
    rewrite length_app. simpl. lia.
Qed.

Section ChainOnDisk.
Variable env : Env.
Variable args : Orchestrate.Args.
Variable ws : Path.

Let rd : Path := run_dir_of env args ws.
Let state_path : Path := rd </> "state.json".

Lemma followups_leave_state (cmds : list string) (codes : list Z) :
  Forall (λ ev, state_path ∉ touched ev)
    (followup_events (rd </> "then.log") cmds codes).
Proof.
  unfold followup_events. revert codes.
  induction cmds as [|cmd cmds IH]; intros [|c codes]; try constructor.
  - simpl. intros E%list_elem_of_singleton. by apply div_inj in E.
  - apply Forall_cons. split; [simpl; set_solver|]. apply IH.
Qed.

Lemma tmp_writes_leave_state (obj : Json) :
  Forall (λ ev, state_path ∉ touched ev)
    [ EvTruncate (tmp_of state_path);
      EvWriteFlush (tmp_of state_path) (JsonText obj) ].
Proof.
  assert (tmp_of state_path ≠ state_path) as Hne.
  { apply tmp_of_ne. unfold state_path. by rewrite name_div. }
  apply Forall_cons. split; [simpl; set_solver|].
  apply Forall_cons. split; [simpl; set_solver|]. constructor.
Qed.

(** Right after the main command the state file holds the record written
    on entering [running]. *)
Lemma head_state (pre : list Event) (c : Z) (fs0 : FS) :
  replay (head_events env args ws pre c) fs0 !! state_path
  = Some (File (JsonText (Orchestrate.asdict
      (run_record env args ws "running" None None None)))).
Proof.
  unfold head_events. rewrite !app_assoc. rewrite replay_app.
  rewrite replay_untouched.
  - rewrite <- !app_assoc, !app_assoc. apply written_last.
    by rewrite name_div.
  - unfold run_events. apply Forall_cons. split; [|apply Forall_cons; split].
    + simpl. intros E%list_elem_of_singleton. by apply div_inj in E.
    + simpl. set_solver.
    + constructor.
Qed.

Lemma head_events_split (pre : list Event) (c : Z) :
  Forall is_mkdir pre →
  ∃ H, head_events env args ws pre c
       = H ++ [EvRun (Orchestrate.args_cmd args) (rd </> "main.log") c]
       ∧ Forall (λ ev, ¬ is_run ev) H.
Proof.
  intros Hmk.
  exists (pre
          ++ write_events state_path
               (Orchestrate.asdict
                  (run_record env args ws "created" None None None))
          ++ reload_events env state_path
          ++ write_events state_path
               (Orchestrate.asdict
                  (run_record env args ws "running" None None None))
          ++ [EvOpenAppend (rd </> "main.log")]).
  split.
  - unfold head_events, run_events. by rewrite <- !app_assoc.
  - rewrite !Forall_app. repeat split.
    + eapply Forall_impl; [exact Hmk|]. intros ev Hm Hr. by destruct ev.
    + repeat constructor; by intros [].
    + unfold reload_events. destruct (truthy_str _); repeat constructor.
      by intros [].
    + repeat constructor; by intros [].
    + repeat constructor. by intros [].
Qed.

End ChainOnDisk.

(** C1, as the code has it.  In a foreground run whose main command
    exits 0 the state file is not written while the chain runs: from the
    end of the main command until the rename that ends the run it holds
    the record written on entering [running], with no exit code in it,
    however many follow-ups have finished.  Only the write that ends the
    run (after the first follow-up that exits nonzero, or after the last
    one) records exit codes, and those are exactly the codes of the [k]
    follow-ups that ran. *)
Theorem followup_codes_persisted_at_the_end (env : Env)
    (args : Orchestrate.Args) (fs0 : FS) (ws : Path) :
  Orchestrate.args_detach args = false →
  Orchestrate.resolve_workspace_root env (Orchestrate.args_workspace args)
    (initial fs0) = (Ok ws, initial fs0) →
  can_start env fs0 (run_dir_of env args ws) = true →
  wait env 0 = 0 →
  let out := Orchestrate.main env args (initial fs0) in
  let rd := run_dir_of env args ws in
  ∃ k status err,
    (k ≤ length (Orchestrate.args_then args))%nat
    ∧ commands_run (trace out.2)
      = Orchestrate.args_cmd args :: take k (Orchestrate.args_then args)
    ∧ fs out.2 !! (rd </> "state.json")
      = Some (File (JsonText (Orchestrate.asdict
          (run_record env args ws status (Some 0)
             (Some (map (wait env) (seq 1 k))) err))))
    ∧ ∀ evs,
        evs `prefix_of` trace out.2 →
        evs ≠ trace out.2 →
        EvRun (Orchestrate.args_cmd args) (rd </> "main.log") 0 ∈ evs →
        replay evs fs0 !! (rd </> "state.json")
        = Some (File (JsonText (Orchestrate.asdict
            (run_record env args ws "running" None None None)))).
Proof.
  intros Hfg Hroot Hstart H0 out rd. subst out rd.
  destruct (foreground_chain env args fs0 ws Hfg Hroot Hstart H0)
    as (pre & k & status & err & code & Hmk & Hk & Hzk & -> & Hend).
  exists k, status, err.
  cbn [fst snd after fs trace initial]. split; [done|]. split; [|split].
  - unfold head_events.
    rewrite !commands_run_app, (commands_run_mkdirs pre Hmk),
      commands_run_reload, commands_run_followups.
    + cbn [commands_run write_events run_events omap app].
      by rewrite app_nil_r.
    + rewrite length_map, length_seq, length_take. lia.
  - rewrite app_assoc. apply written_last. by rewrite name_div.
  - intros evs Hpre Hne Hin.
    destruct (head_events_split env args ws pre 0 Hmk) as (H & EH & Hnorun).
    set (sp := run_dir_of env args ws </> "state.json") in *.
    set (F := followup_events _ _ _) in *.
    set (obj := Orchestrate.asdict _) in Hpre, Hne.
    assert (head_events env args ws pre 0 ++ F ++ write_events sp obj
            = (H ++ [EvRun (Orchestrate.args_cmd args)
                       (run_dir_of env args ws </> "main.log") 0])
              ++ (F ++ [EvTruncate (tmp_of sp);
                        EvWriteFlush (tmp_of sp) (JsonText obj)])
              ++ [EvReplace (tmp_of sp) sp]) as ET.
    { rewrite EH. unfold write_events. by rewrite <- !app_assoc. }
    simpl in Hpre, Hne. rewrite ET in Hpre, Hne.
    assert (EvRun (Orchestrate.args_cmd args)
              (run_dir_of env args ws </> "main.log") 0 ∉ H) as Hfresh.
    { intros Hbad. rewrite Forall_forall in Hnorun.
      by apply Hnorun in Hbad. }
    destruct (proper_prefix_past _ _ _ _ _ Hfresh Hpre Hne Hin) as [j ->].
    rewrite replay_app, replay_untouched.
    + rewrite <- EH. apply head_state.
    + apply Forall_take, Forall_app. split.
      * apply followups_leave_state.
      * apply tmp_writes_leave_state.
Qed.

Lemma followup_codes_persisted_at_the_end_witness :
  let out := Orchestrate.main demo_env demo_args (initial ∅) in
  replay (take 14 (trace out.2)) ∅ !! (demo_run_dir </> "state.json")
  = Some (File (JsonText (Orchestrate.asdict
      (run_record demo_env demo_args ["work"] "running" None None None)))).
Proof.
  destruct (followup_codes_persisted_at_the_end demo_env demo_args ∅ ["work"])
    as (k & status & err & _ & _ & _ & H);
    [reflexivity | reflexivity | reflexivity | reflexivity |].
  apply H.
  - apply prefix_take.
  - intros E. apply (f_equal length) in E. vm_compute in E. discriminate.
  - apply list_elem_of_In. vm_compute. do 11 right. left. reflexivity.
Defined.

(** C1 as stated fails: when the first follow-up of the demonstration run
    has finished with exit code 0 and the second is about to start, the
    state file on disk still says [running] with [then_rcs] null; the
    code 0 has been appended to the list in memory only. *)
Lemma no_persist_between_followups :
  let out := Orchestrate.main demo_env demo_args (initial ∅) in
  let done_so_far := take 14 (trace out.2) in
  last done_so_far = Some (EvRun "a" (demo_run_dir </> "then.log") 0)
  ∧ trace out.2 !! 15%nat = Some (EvRun "b" (demo_run_dir </> "then.log") 5)
  ∧ state_field (replay done_so_far ∅) (demo_run_dir </> "state.json")
      "status" = Some (JStr "running")
  ∧ state_field (replay done_so_far ∅) (demo_run_dir </> "state.json")
      "then_rcs" = Some JNull
  ∧ state_field (replay done_so_far ∅) (demo_run_dir </> "state.json")
      "then_rcs" ≠ Some (JList [JInt 0]).
Proof. vm_compute. repeat split; (reflexivity || discriminate). Qed.

(** ** The reattached worker *)

(** C3 fails on the code.  The parent, run with [--detach] at 03:04:05,
    leaves a state file with [status] created and its own [created_at].
    The worker it spawns, started one second later with [LONGRUN_RUN_DIR]
    naming that directory, builds a fresh record and writes it over the
    parent's before it reloads: the record it reads back is its own, and
    [created_at] on disk is the worker's time from then on. *)
Theorem reattached_worker_rewrites_created_at :
  let state_path := demo_run_dir </> "state.json" in
  let parent := Orchestrate.main demo_env detach_args (initial ∅) in
  let worker := Orchestrate.main worker_env demo_args (initial (fs parent.2)) in
  parent.1 = Ok 0
  ∧ state_field (fs parent.2) state_path "status" = Some (JStr "created")
  ∧ state_field (fs parent.2) state_path "created_at"
    = Some (JStr "2024-01-02T03:04:05")
  ∧ environ_LONGRUN_RUN_DIR worker_env = Some (str demo_run_dir)
  ∧ take 3 (trace worker.2)
    = write_events state_path
        (Orchestrate.asdict
           (run_record worker_env demo_args ["work"] "created" None None None))
  ∧ state_field (replay (take 3 (trace worker.2)) (fs parent.2)) state_path
      "created_at" = Some (JStr "2024-01-02T03:04:06")
  ∧ state_field (fs worker.2) state_path "created_at"
    = Some (JStr "2024-01-02T03:04:06").
Proof. vm_compute. repeat split; reflexivity. Qed.

(** ** The latest run *)

#[local] Instance name_le_trans : Transitive Status.name_le.
Proof.
  intros p q r. unfold Status.name_le. intros H1 H2.
  change (String.le (name p) (name r)).
  by trans (name q).
Qed.

#[local] Instance name_le_total : Total Status.name_le.
Proof. intros p q. unfold Status.name_le. apply String.le_total. Qed.

(** [latest_run_dir] answers with a directory right below the runs root
    whose name no other such directory exceeds in the order of strings. *)
Lemma latest_run_dir_greatest (ws : Path) (w : World) (rd : Path) (w' : World) :
  Status.latest_run_dir ws w = (Ok (Some rd), w') →
  let base := ws </> ".codex" </> "longrun" in
  parent rd = base
  ∧ is_dir (fs w) rd = true
  ∧ ∀ q, q ∈ iterdir (fs w) base → is_dir (fs w) q = true →
         String.le (name q) (name rd).
Proof.
  unfold Status.latest_run_dir, mbind, M_bind, emit, get_fs, mret, M_ret.
  simpl. destruct (is_dir (fs w) _); simpl; [|done].
  set (base := ws </> ".codex" </> "longrun").
  set (dirs := filter _ (iterdir (fs w) base)).
  intros H.
  assert (last (merge_sort Status.name_le dirs) = Some rd) as Hlast.
  { destruct dirs; [done|]. by injection H. }
  clear H. apply last_Some in Hlast as [S' HS].
  assert (∀ q, q ∈ dirs ↔ q ∈ S' ++ [rd]) as Hperm.
  { intros q. by rewrite <- HS, merge_sort_Permutation. }
  assert (rd ∈ dirs) as Hrd by (apply Hperm; set_solver).
  apply list_elem_of_filter in Hrd as [Hdir Hrd].
  apply list_elem_of_filter in Hrd as [[Hpar _] _].
  split; [done|]. split; [by apply Is_true_true|].
  intros q Hq Hqd.
  assert (q ∈ S' ++ [rd]) as Hin.
  { apply Hperm, list_elem_of_filter. split; [by apply Is_true_true|done]. }
  pose proof (StronglySorted_merge_sort Status.name_le dirs) as Hsorted.
  rewrite HS in Hsorted.
  apply elem_of_app in Hin as [Hin | ->%list_elem_of_singleton].
  - apply (StronglySorted_app_1_elem_of Status.name_le S' [rd] q rd Hsorted);
      [done | set_solver].
  - change (String.le (name rd) (name rd)). reflexivity.
Qed.

(** Two names with one label compare as their time tags do. *)
Lemma same_label_order (label t1 t2 : string) :
  String.leb (label +:+ t1) (label +:+ t2) = String.leb t1 t2.
Proof.
  unfold String.leb. induction label as [|c label IH]; [done|].
  change (String c label +:+ t1) with (String c (label +:+ t1)).
  change (String c label +:+ t2) with (String c (label +:+ t2)).
  simpl. unfold Ascii.compare. by rewrite N.compare_refl.
Qed.

(** C9 fails on the code when the runs carry different labels.  The
    workspace holds the run [b_20240101_000000] and the later run
    [a_20250101_000000]; [latest_run_dir] answers with the former, whose
    name is the greater string, although its time tag is the smaller. *)
Theorem latest_run_dir_prefers_label :
  let older := runs_root </> "b_20240101_000000" in
  let newer := runs_root </> "a_20250101_000000" in
  is_dir demo_fs older = true
  ∧ is_dir demo_fs newer = true
  ∧ String.ltb (tag_of_name (name older)) (tag_of_name (name newer)) = true
  ∧ (Status.latest_run_dir ["work"] (initial demo_fs)).1 = Ok (Some older).
Proof. vm_compute. repeat split; reflexivity. Qed.

(** * Further properties of the two scripts *)

(** ** Operations performed, compositionally *)

Lemma emits_ret {A : Type} (P : Event → Prop) (Q : A → Prop) (a : A) :
  Q a → emits P Q (mret a).
Proof. intros HQ w. exists []. simpl. by rewrite app_nil_r. Qed.

Lemma emits_raise {A : Type} (P : Event → Prop) (Q : A → Prop) (e : Exn) :
  emits P Q (raise e).
Proof. intros w. exists []. simpl. by rewrite app_nil_r. Qed.

Lemma emits_get_fs (P : Event → Prop) : emits P (λ _, True) get_fs.
Proof. intros w. exists []. simpl. by rewrite app_nil_r. Qed.

Lemma emits_with_fs {A : Type} (P : Event → Prop) (Q : A → Prop)
    (k : FS → M A) :
  (∀ f, emits P Q (k f)) → emits P Q (get_fs ≫= k).
Proof. intros H w. exact (H (fs w) w). Qed.

Lemma emits_emit (P : Event → Prop) (ev : Event) :
  P ev → emits P (λ _, True) (emit ev).
Proof. intros HP w. exists [ev]. simpl. repeat split; by try constructor. Qed.

Lemma emits_bind {A B : Type} (P : Event → Prop) (Q : A → Prop)
    (R : B → Prop) (m : M A) (f : A → M B) :
  emits P Q m → (∀ a, Q a → emits P R (f a)) → emits P R (m ≫= f).
Proof.
  intros Hm Hf w. destruct (Hm w) as (evs1 & Hfs1 & Htr1 & HP1 & HQ).
  unfold mbind, M_bind. destruct (m w) as [[a|e] w1]; simpl in *.
  - destruct (Hf a HQ w1) as (evs2 & Hfs2 & Htr2 & HP2 & HR).
    exists (evs1 ++ evs2).
    rewrite Hfs2, Htr2, Hfs1, Htr1, replay_app, <- app_assoc.
    repeat split; try done. by apply Forall_app.
  - by exists evs1.
Qed.

Lemma emits_weaken {A : Type} (P : Event → Prop) (Q Q' : A → Prop) (m : M A) :
  emits P Q m → (∀ a, Q a → Q' a) → emits P Q' m.
Proof.
  intros Hm HQ w. destruct (Hm w) as (evs & ? & ? & ? & H).
  exists evs. repeat split; try done. destruct (m w).1; auto.
Qed.

Lemma emits_any {A : Type} (P : Event → Prop) (Q : A → Prop) (m : M A) :
  emits P Q m → emits P (λ _, True) m.
Proof. intros Hm. by apply (emits_weaken P Q). Qed.

Lemma emits_popen_wait (env : Env) (P : Event → Prop) (cmd : string)
    (log : Path) :
  (∀ rc, P (EvRun cmd log rc)) →
  emits P (λ _, True) (Orchestrate.popen_wait env cmd log).
Proof.
  intros HP w. exists [EvRun cmd log (wait env (nruns w))]. simpl.
  repeat split; try done. by constructor.
Qed.

Lemma emits_check_writable (P : Event → Prop) (p : Path) :
  emits P (λ _, True) (check_writable p).
Proof.
  intros w. destruct (check_writable_cases p w) as [-> | [e ->]];
    exists []; simpl; by rewrite app_nil_r.
Qed.

Lemma emits_open_append (P : Event → Prop) (p : Path) :
  P (EvOpenAppend p) → emits P (λ _, True) (open_append p).
Proof.
  intros HP. unfold open_append.
  eapply emits_bind; [apply emits_check_writable|]. intros _ _.
  by apply emits_emit.
Qed.

Lemma emits_replace (P : Event → Prop) (src dst : Path) :
  P (EvReplace src dst) → emits P (λ _, True) (replace src dst).
Proof.
  intros HP. unfold replace. apply emits_with_fs. intros f.
  destruct (node f src); [|apply emits_raise].
  destruct (node f dst) as [[|c]|];
    first [apply emits_raise | by apply emits_emit].
Qed.

Lemma emits_write_text (P : Event → Prop) (p : Path) (c : Content) :
  P (EvTruncate p) → P (EvWriteFlush p c) →
  emits P (λ _, True) (write_text p c).
Proof.
  intros H1 H2. unfold write_text.
  eapply emits_bind; [apply emits_check_writable|]. intros _ _.
  eapply emits_bind; [by apply emits_emit|]. intros _ _.
  by apply emits_emit.
Qed.

Lemma emits_mkdir_each (P : Event → Prop) (qs : list Path) :
  (∀ q, q ∈ qs → P (EvMkdir q)) → emits P (λ _, True) (mkdir_each qs).
Proof.
  induction qs as [|q qs IH]; intros HP; [by apply emits_ret|].
  cbn [mkdir_each]. apply emits_with_fs. intros f.
  assert (emits P (λ _, True) (mkdir_each qs)) as Hrest.
  { apply IH. intros q' Hq'. apply HP. set_solver. }
  destruct (node f q) as [[|c]|].
  - apply Hrest.
  - apply emits_raise.
  - apply (emits_bind P (λ _, True)); [|done].
    apply emits_emit, HP. set_solver.
Qed.

Lemma emits_mkdir (P : Event → Prop) (p : Path) (exist_ok : bool) :
  (∀ q, q = p ∨ q ∈ ancestors p → P (EvMkdir q)) →
  emits P (λ _, True) (mkdir p exist_ok).
Proof.
  intros HP. unfold mkdir. apply emits_with_fs. intros f.
  destruct (node f p) as [[|c]|].
  - destruct exist_ok; [by apply emits_ret|apply emits_raise].
  - apply emits_raise.
  - apply (emits_bind P (λ _, True)).
    + apply emits_mkdir_each. auto.
    + intros _ _. apply emits_emit, HP. by left.
Qed.

(** [write_json] on an entry of [rd] stays with [rd]. *)
Lemma emits_write_json (rd : Path) (n : string) (obj : Json) :
  emits (within rd) (λ _, True) (Orchestrate.write_json (rd </> n) obj).
Proof.
  unfold Orchestrate.write_json.
  destruct (String.eqb_spec n "") as [->|Hn].
  - unfold with_suffix. rewrite name_div. simpl. apply emits_raise.
  - rewrite with_suffix_tmp by (by rewrite name_div). rewrite tmp_of_div.
    eapply emits_bind.
    + apply emits_write_text; simpl; eauto.
    + intros _ _. apply emits_replace. simpl. eauto.
Qed.

Lemma emits_run_shell (env : Env) (rd : Path) (cmd n : string) :
  emits (within rd) (λ _, True) (Orchestrate.run_shell env cmd (rd </> n)).
Proof.
  unfold Orchestrate.run_shell.
  eapply emits_bind; [apply emits_open_append; simpl; eauto|].
  intros _ _. by apply emits_popen_wait.
Qed.

Lemma emits_followups (env : Env) (rd : Path) (st : Orchestrate.RunState)
    (i : nat) (cmds : list string) (acc : list Z) :
  emits (within rd) (λ _, True)
    (Orchestrate.followups env (rd </> "state.json") (rd </> "then.log")
       st i cmds acc).
Proof.
  revert i acc. induction cmds as [|cmd cmds IH]; intros i acc.
  - by apply emits_ret.
  - cbn [Orchestrate.followups].
    eapply emits_bind; [apply emits_run_shell|]. intros rc _.
    destruct (negb (rc =? 0)); [|apply IH].
    eapply emits_bind; [apply emits_write_json|]. intros _ _.
    by apply emits_ret.
Qed.

Lemma emits_control_loop (env : Env) (rd : Path) (st : Orchestrate.RunState) :
  emits (within rd) (λ _, True) (Orchestrate.control_loop env rd st).
Proof.
  unfold Orchestrate.control_loop.
  eapply emits_bind; [apply emits_write_json|]. intros _ _.
  eapply emits_bind; [apply emits_run_shell|]. intros rc _.
  destruct (negb (rc =? 0)).
  - eapply emits_bind; [apply emits_write_json|]. intros _ _.
    by apply emits_ret.
  - eapply emits_bind; [apply emits_followups|]. intros [code|codes] _.
    + by apply emits_ret.
    + eapply emits_bind; [apply emits_write_json|]. intros _ _.
      by apply emits_ret.
Qed.

Lemma emits_reload (P : Event → Prop) (p : Path) :
  P (EvRead p) → emits P (λ _, True) (Orchestrate.reload p).
Proof.
  intros HP. unfold Orchestrate.reload.
  eapply (emits_bind P (λ _, True)).
  - unfold read_json. eapply emits_bind; [by apply emits_emit|]. intros _ _.
    apply emits_with_fs. intros f.
    destruct (node f p) as [[|[j|]]|];
      first [apply emits_raise | by apply emits_ret].
  - intros d _. destruct (Orchestrate.RunState_of_kwargs d);
      [by apply emits_ret | apply emits_raise].
Qed.

(** Everything [main] does once the workspace root [ws] is known stays
    with the run directory. *)
Lemma main_within (env : Env) (args : Orchestrate.Args) (ws : Path) (w : World) :
  Orchestrate.resolve_workspace_root env (Orchestrate.args_workspace args) w
  = (Ok ws, w) →
  ∃ evs,
    fs (Orchestrate.main env args w).2 = replay evs (fs w)
    ∧ trace (Orchestrate.main env args w).2 = trace w ++ evs
    ∧ Forall (within (run_dir_of env args ws)) evs.
Proof.
  intros Hroot. unfold Orchestrate.main. rewrite (bind_Ok _ _ _ _ _ Hroot).
  set (rd := run_dir_of env args ws).
  lazymatch goal with
  | |- ∃ evs, fs (?m w).2 = _ ∧ _ =>
      cut (emits (within rd) (λ _ : Z, True) m);
        [intros H; destruct (H w) as (evs & ? & ? & ? & _); by exists evs|]
  end.
  eapply (emits_bind _ (λ run_dir, run_dir = rd)).
  - unfold rd, run_dir_of.
    destruct (truthy_str (environ_LONGRUN_RUN_DIR env)).
    + eapply emits_bind; [apply emits_mkdir; intros q Hq; exact Hq|].
      intros _ _. by apply emits_ret.
    + unfold Orchestrate.make_run_dir, Orchestrate.now_tag.
      eapply emits_bind; [apply emits_mkdir; intros q Hq; exact Hq|].
      intros _ _. by apply emits_ret.
  - intros run_dir ->.
    eapply emits_bind; [apply emits_write_json|]. intros _ _.
    destruct (Orchestrate.args_detach args).
    + eapply emits_bind; [apply emits_open_append; simpl; eauto|]. intros _ _.
      eapply emits_bind; [by apply emits_emit|]. intros _ _.
      eapply emits_bind; [apply emits_write_json|]. intros _ _.
      eapply emits_bind; [by apply emits_emit|]. intros _ _.
      by apply emits_ret.
    + eapply (emits_bind _ (λ _, True)).
      * destruct (truthy_str (environ_LONGRUN_RUN_DIR env));
          [by apply emits_reload | by apply emits_ret].
      * intros st _. apply emits_control_loop.
Qed.

Lemma apply_event_keeps (ev : Event) (f : FS) (q : Path) :
  is_Some (f !! q) →
  (∀ src dst, ev = EvReplace src dst → src ≠ q) →
  is_Some (apply_event ev f !! q).
Proof.
  intros Hq Hsrc. destruct ev; simpl; try done.
  - rewrite lookup_insert. by case_decide.
  - rewrite lookup_insert. by case_decide.
  - rewrite lookup_insert. by case_decide.
  - destruct (f !! src) eqn:E; [|done].
    rewrite lookup_insert. case_decide; [done|].
    rewrite lookup_delete. case_decide; [|done].
    by destruct (Hsrc src dst eq_refl).
  - destruct (f !! p) eqn:E; [done|].
    rewrite lookup_insert. by case_decide.
Qed.

Lemma replay_keeps (evs : list Event) (f : FS) (q : Path) :
  is_Some (f !! q) →
  Forall (λ ev, ∀ src dst, ev = EvReplace src dst → src ≠ q) evs →
  is_Some (replay evs f !! q).
Proof.
  revert f. induction evs as [|ev evs IH]; intros f Hq Hall; [done|].
  inversion Hall; subst. apply IH; [|done]. by apply apply_event_keeps.
Qed.

Lemma ancestors_prefix (q p : Path) : q ∈ ancestors p → q `prefix_of` p.
Proof.
  unfold ancestors. intros (k & -> & _)%list_elem_of_fmap. apply prefix_take.
Qed.

(** X1. Whatever [main] of [orchestrate.py] does and however it ends
    (returning, or raising at any point), once the workspace root is known
    it leaves alone every path that is not the run directory, a directory
    above it or an entry directly inside it; and the only entries it ever
    removes are its own temporary files [<name>.tmp] inside the run
    directory, so no state file, log or directory that was there before
    is lost. *)
Theorem main_stays_with_run_dir (env : Env) (args : Orchestrate.Args)
    (fs0 : FS) (ws : Path) :
  Orchestrate.resolve_workspace_root env (Orchestrate.args_workspace args)
    (initial fs0) = (Ok ws, initial fs0) →
  let out := Orchestrate.main env args (initial fs0) in
  let rd := run_dir_of env args ws in
  (∀ q, q ≠ rd → q ∉ ancestors rd → (∀ n, q ≠ rd </> n) →
        fs out.2 !! q = fs0 !! q)
  ∧ (∀ q, is_Some (fs0 !! q) → (∀ n, q ≠ rd </> (n +:+ ".tmp")) →
          is_Some (fs out.2 !! q)).
Proof.
  intros Hroot out rd. subst out.
  destruct (main_within env args ws (initial fs0) Hroot)
    as (evs & -> & _ & Hall).
  fold rd in Hall. simpl. split.
  - intros q Hrd Hanc Hin. apply replay_untouched.
    eapply Forall_impl; [exact Hall|]. intros ev Hev.
    destruct ev; simpl in *; set_solver.
  - intros q Hq Htmp. apply replay_keeps; [done|].
    eapply Forall_impl; [exact Hall|]. intros ev Hev src dst ->.
    simpl in Hev. destruct Hev as (n & -> & _). intros E. by apply (Htmp n).
Qed.

Lemma main_stays_with_run_dir_witness :
  let out := Orchestrate.main demo_env demo_args (initial demo_fs) in
  let other := runs_root </> "b_20240101_000000" </> "state.json" in
  fs out.2 !! other = demo_fs !! other.
Proof.
  intros out other.
  destruct (main_stays_with_run_dir demo_env demo_args demo_fs ["work"])
    as [H _]; [reflexivity|].
  apply H.
  - discriminate.
  - intros Hin%ancestors_prefix%prefix_length. vm_compute in Hin. lia.
  - intros n E. vm_compute in E. discriminate E.
Defined.

(** ** The status reporter only looks *)







(** ** Allocating the run directory *)






Lemma bind_get_fs {A : Type} (k : FS → M A) (w : World) :
  (get_fs ≫= k) w = k (fs w) w.
Proof. reflexivity. Qed.




(** X4. When the path of the run directory is already taken (by a
    directory or by a file) and the process was not told to reuse one,
    [main] ends in [FileExistsError] before anything is done: nothing is
    created, written or run, and the entry that is there is not touched. *)
Theorem run_dir_collision_is_fatal (env : Env) (args : Orchestrate.Args)
    (fs0 : FS) (ws : Path) :
  Orchestrate.resolve_workspace_root env (Orchestrate.args_workspace args)
    (initial fs0) = (Ok ws, initial fs0) →
  truthy_str (environ_LONGRUN_RUN_DIR env) = false →
  is_Some (node fs0 (run_dir_of env args ws)) →
  Orchestrate.main env args (initial fs0) = (Raise FileExistsError, initial fs0).
Proof.
  intros Hroot Hmode [n Hn]. unfold Orchestrate.main.
  rewrite (bind_Ok _ _ _ _ _ Hroot), Hmode.
  unfold run_dir_of in Hn. rewrite Hmode in Hn.
  apply bind_Raise.
  unfold Orchestrate.make_run_dir, Orchestrate.now_tag. apply bind_Raise.
  unfold mkdir, mbind, M_bind, get_fs. simpl. rewrite Hn. by destruct n.
Qed.

Lemma run_dir_collision_is_fatal_witness :
  Orchestrate.main
    (with_wait (λ _, 0) demo_env) demo_args
    (initial (<[demo_run_dir := Dir]> demo_fs))
  = (Raise FileExistsError, initial (<[demo_run_dir := Dir]> demo_fs)).
Proof.
  apply (run_dir_collision_is_fatal _ demo_args _ ["work"]);
    [reflexivity | reflexivity | by eexists].
Defined.

(** ** One write, one file *)

(** X5. A [write_json] that succeeds changes one entry of the disk: the
    target holds the new document, the temporary file is gone again (also
    one left behind by an earlier, interrupted write), and every other
    path is as it was. *)
Theorem write_json_changes_one_file (path : Path) (obj : Json) (w : World) :
  name path ≠ "" →
  node (fs w) (parent path) = Some Dir →
  node (fs w) (tmp_of path) ≠ Some Dir →
  node (fs w) path ≠ Some Dir →
  let out := Orchestrate.write_json path obj w in
  out.1 = Ok tt
  ∧ fs out.2 !! path = Some (File (JsonText obj))
  ∧ fs out.2 !! tmp_of path = None
  ∧ ∀ q, q ≠ path → q ≠ tmp_of path → fs out.2 !! q = fs w !! q.
Proof.
  intros Hn Hp Ht Hd out. subst out.
  rewrite (write_json_ok path obj w Hn Hp Ht Hd). cbn [fst snd after fs].
  destruct (write_events_lookup path obj (fs w) Hn) as (_ & Hnew & Htmp).
  split; [done|]. split; [done|]. split; [done|].
  intros q Hq1 Hq2. apply replay_untouched.
  unfold write_events. repeat (apply Forall_cons; split); simpl; set_solver.
Qed.

Lemma write_json_changes_one_file_witness :
  let path := runs_root </> "b_20240101_000000" </> "state.json" in
  let out :=
    Orchestrate.write_json path (JObj [("status", JStr "running")])
      (initial (<[tmp_of path := File OtherText]> demo_fs)) in
  out.1 = Ok tt
  ∧ fs out.2 !! path
    = Some (File (JsonText (JObj [("status", JStr "running")])))
  ∧ fs out.2 !! tmp_of path = None.
Proof.
  intros path out.
  destruct (write_json_changes_one_file path
              (JObj [("status", JStr "running")])
              (initial (<[tmp_of path := File OtherText]> demo_fs)))
    as (H1 & H2 & H3 & _);
    [discriminate | reflexivity | discriminate | discriminate |].
  by repeat split.
Defined.

(** ** Running one command *)

(** X6. [run_shell] opens the log before it starts anything: when the
    log's path is a directory it raises [IsADirectoryError] and the
    command is not run.  Otherwise it runs the command once, returns its
    exit code, leaves a log that is already there in place (it is opened
    for appending) and creates an empty one when there is none; no other
    entry changes. *)
Theorem run_shell_opens_log_first (env : Env) (cmd : string) (log : Path)
    (w : World) :
  node (fs w) (parent log) = Some Dir →
  (is_dir (fs w) log = true →
   Orchestrate.run_shell env cmd log w = (Raise IsADirectoryError, w))
  ∧ (is_dir (fs w) log = false →
     let out := Orchestrate.run_shell env cmd log w in
     out.1 = Ok (wait env (nruns w))
     ∧ nruns out.2 = S (nruns w)
     ∧ commands_run (trace out.2) = commands_run (trace w) ++ [cmd]
     ∧ (is_Some (fs w !! log) → fs out.2 = fs w)
     ∧ (fs w !! log = None → fs out.2 = <[log := File OtherText]> (fs w))).
Proof.
  intros Hp. split.
  - intros Hd. unfold Orchestrate.run_shell. apply bind_Raise.
    unfold open_append. apply bind_Raise.
    unfold check_writable, mbind, M_bind, get_fs. rewrite Hp.
    unfold is_dir in Hd. by destruct (node (fs w) log) as [[|c]|].
  - intros Hd out. subst out.
    assert (node (fs w) log ≠ Some Dir) as Hnd.
    { unfold is_dir in Hd. by destruct (node (fs w) log) as [[|c]|]. }
    assert (log ≠ []) as Hne by (by intros ->).
    unfold Orchestrate.run_shell.
    rewrite (bind_Ok _ _ _ _ _ (open_append_ok log w Hp Hnd)).
    unfold Orchestrate.popen_wait. simpl. rewrite Nat.add_0_r.
    split; [done|]. split; [done|]. split; [|split].
    + rewrite !commands_run_app. simpl. by rewrite app_nil_r.
    + intros [n Hn]. by rewrite Hn.
    + intros Hn. by rewrite Hn.
Qed.

Lemma run_shell_opens_log_first_witness :
  Orchestrate.run_shell demo_env "make" (runs_root </> "b_20240101_000000")
    (initial demo_fs)
  = (Raise IsADirectoryError, initial demo_fs).
Proof.
  destruct (run_shell_opens_log_first demo_env "make"
              (runs_root </> "b_20240101_000000") (initial demo_fs))
    as [H _]; [reflexivity|].
  by apply H.
Defined.

(** ** Records on disk *)

(** X7. A record written by [write_json] and read back by the reload of
    [main] is the same record, whatever its fields hold (any strings,
    any exit codes, set or unset optional fields). *)
Theorem state_round_trip (s : Orchestrate.RunState) (path : Path) (w : World) :
  name path ≠ "" →
  node (fs w) (parent path) = Some Dir →
  node (fs w) (tmp_of path) ≠ Some Dir →
  node (fs w) path ≠ Some Dir →
  (Orchestrate.write_json path (Orchestrate.asdict s);;
   Orchestrate.reload path) w
  = (Ok s,
     after w (write_events path (Orchestrate.asdict s) ++ [EvRead path]) 0).
Proof.
  intros Hn Hp Ht Hd.
  rewrite (bind_Ok _ _ _ _ _ (write_json_ok path _ w Hn Hp Ht Hd)).
  rewrite (reload_ok path s).
  - by rewrite after_after.
  - by apply name_nonempty.
  - apply write_events_lookup. done.
Qed.

Lemma state_round_trip_witness :
  let s := run_record demo_env demo_args ["work"] "failed" (Some 0)
             (Some [0; -9]) (Some "follow-up failed at step 2 rc=-9") in
  let path := runs_root </> "b_20240101_000000" </> "state.json" in
  ((Orchestrate.write_json path (Orchestrate.asdict s);;
    Orchestrate.reload path) (initial demo_fs)).1 = Ok s.
Proof.
  intros s path.
  rewrite (state_round_trip s path (initial demo_fs));
    [reflexivity | discriminate | reflexivity | discriminate | discriminate].
Defined.

Lemma kwargs_unknown_key (kvs : list (string * Json)) (k : string) (v : Json) :
  (k, v) ∈ kvs → k ∉ Orchestrate.field_names →
  Orchestrate.RunState_of_kwargs (JObj kvs) = None.
Proof.
  intros Hin Hk. unfold Orchestrate.RunState_of_kwargs.
  destruct (forallb _ kvs) eqn:E; [|done]. exfalso.
  rewrite forallb_forall in E.
  apply list_elem_of_In, E in Hin. cbn [fst] in Hin.
  apply existsb_exists in Hin as (x & Hx & Heq).
  apply String.eqb_eq in Heq as ->. by apply Hk, list_elem_of_In.
Qed.

Lemma kwargs_missing_field (kvs : list (string * Json)) (k : string) :
  k ∈ required_fields → assoc k kvs = None →
  Orchestrate.RunState_of_kwargs (JObj kvs) = None.
Proof.
  intros Hk Hnone. unfold Orchestrate.RunState_of_kwargs.
  destruct (forallb _ kvs); [|done].
  unfold required_fields in Hk.
  repeat (apply elem_of_cons in Hk as [->|Hk]);
    [..|by apply elem_of_nil in Hk];
    rewrite ?Hnone; simpl;
    repeat (match goal with
            | |- context [assoc ?x kvs ≫= ?f] =>
                destruct (assoc x kvs ≫= f); simpl; [|reflexivity]
            end);
    reflexivity.
Qed.

(** X8. The reload refuses a state file whose JSON is not a record of
    the expected shape: when the document is not an object, has a key
    that is no field of [RunState], or lacks one of the seven fields
    without default, building the record raises [TypeError]; the file has
    been read and nothing else has happened. *)
Theorem reload_rejects_other_shapes (path : Path) (d : Json) (w : World) :
  path ≠ [] →
  fs w !! path = Some (File (JsonText d)) →
  match d with
  | JObj kvs =>
      (∃ k v, (k, v) ∈ kvs ∧ k ∉ Orchestrate.field_names)
      ∨ (∃ k, k ∈ required_fields ∧ assoc k kvs = None)
  | _ => True
  end →
  Orchestrate.reload path w = (Raise TypeError, after w [EvRead path] 0).
Proof.
  intros Hne Hfile Hshape.
  assert (read_json path w = (Ok d, after w [EvRead path] 0)) as Hr.
  { unfold read_json. rewrite (bind_Ok _ _ _ _ _ (emit_after _ w)).
    rewrite bind_get_fs.
    change (fs (after w [EvRead path] 0)) with (fs w).
    by rewrite node_nonempty, Hfile. }
  unfold Orchestrate.reload. rewrite (bind_Ok _ _ _ _ _ Hr).
  assert (Orchestrate.RunState_of_kwargs d = None) as ->; [|done].
  destruct d as [| | | | |kvs]; try done.
  destruct Hshape as [(k & v & Hin & Hk) | (k & Hk & Hnone)].
  - by apply (kwargs_unknown_key kvs k v).
  - by apply (kwargs_missing_field kvs k).
Qed.

Lemma reload_rejects_other_shapes_witness :
  Orchestrate.reload (runs_root </> "b_20240101_000000" </> "state.json")
    (initial demo_fs)
  = (Raise TypeError,
     after (initial demo_fs)
       [EvRead (runs_root </> "b_20240101_000000" </> "state.json")] 0).
Proof.
  apply (reload_rejects_other_shapes _
           (JObj [ ("label", JStr "b"); ("status", JStr "completed");
                   ("main_rc", JInt 0) ]));
    [discriminate | reflexivity |].
  right. exists "run_id". split; [|reflexivity].
  unfold required_fields. apply list_elem_of_here.
Defined.

(** ** Choosing the latest run *)

Lemma latest_run_dir_result (ws : Path) (w : World) :
  (Status.latest_run_dir ws w).1
  = Ok (if is_dir (fs w) (ws </> ".codex" </> "longrun") then
          match filter (λ p, is_dir (fs w) p)
                  (iterdir (fs w) (ws </> ".codex" </> "longrun")) with
          | [] => None
          | dirs => last (merge_sort Status.name_le dirs)
          end
        else None).
Proof.
  unfold Status.latest_run_dir.
  rewrite (bind_Ok _ _ _ _ _ (emit_after _ w)), bind_get_fs.
  change (fs (after w _ 0)) with (fs w).
  destruct (is_dir (fs w) _); [|done]. simpl.
  rewrite (bind_Ok _ _ _ _ _ (emit_after _ _)).
  by destruct (filter _ _).
Qed.

Lemma latest_run_dir_none (ws : Path) (w : World) :
  (is_dir (fs w) (ws </> ".codex" </> "longrun") = false
   ∨ ∀ q, q ∈ iterdir (fs w) (ws </> ".codex" </> "longrun") →
          is_dir (fs w) q = false) →
  (Status.latest_run_dir ws w).1 = Ok None.
Proof.
  intros Hnone. rewrite latest_run_dir_result.
  destruct (is_dir (fs w) _); [|done].
  destruct Hnone as [?|Hnone]; [done|].
  destruct (filter _ _) as [|d dirs] eqn:E; [done|]. exfalso.
  assert (d ∈ filter (λ p, is_dir (fs w) p)
                 (iterdir (fs w) (ws </> ".codex" </> "longrun")))
    as Hin by (rewrite E; set_solver).
  apply list_elem_of_filter in Hin as [Hd Hin].
  apply Is_true_true in Hd. by rewrite (Hnone d Hin) in Hd.
Qed.

(** X9. [latest_run_dir] never raises.  It answers [None] exactly when
    the runs root is not a directory or holds no directory; otherwise it
    answers with a directory directly below the runs root whose name is
    greater than or equal to the name of every directory there, in the
    order of strings.  Plain files in the runs root are ignored. *)
Theorem latest_run_dir_picks_greatest_name (ws : Path) (w : World) :
  let base := ws </> ".codex" </> "longrun" in
  let out := Status.latest_run_dir ws w in
  (∃ o, out.1 = Ok o)
  ∧ (out.1 = Ok None ↔
     is_dir (fs w) base = false
     ∨ ∀ q, q ∈ iterdir (fs w) base → is_dir (fs w) q = false)
  ∧ ∀ rd, out.1 = Ok (Some rd) →
      parent rd = base
      ∧ is_dir (fs w) rd = true
      ∧ ∀ q, q ∈ iterdir (fs w) base → is_dir (fs w) q = true →
             String.le (name q) (name rd).
Proof.
  intros base out. subst out. split; [|split].
  - rewrite latest_run_dir_result. by eexists.
  - rewrite latest_run_dir_result. fold base.
    destruct (is_dir (fs w) base); [|split; [by left|done]].
    destruct (filter _ _) as [|d dirs] eqn:E.
    + split; [|done]. intros _. right. intros q Hq.
      destruct (is_dir (fs w) q) eqn:Hd; [|done].
      assert (q ∈ filter (λ p, is_dir (fs w) p) (iterdir (fs w) base)) as Hin.
      { apply list_elem_of_filter. split; [by apply Is_true_true|done]. }
      rewrite E in Hin. by apply elem_of_nil in Hin.
    + split.
      * intros [= Hlast]. apply last_None in Hlast.
        apply (f_equal length) in Hlast.
        rewrite (Permutation_length (merge_sort_Permutation _ _)) in Hlast.
        done.
      * intros [?|Hnone]; [done|]. exfalso.
        assert (d ∈ filter (λ p, is_dir (fs w) p) (iterdir (fs w) base))
          as Hin by (rewrite E; set_solver).
        apply list_elem_of_filter in Hin as [Hd Hin].
        apply Is_true_true in Hd. by rewrite (Hnone d Hin) in Hd.
  - intros rd Hrd.
    destruct (Status.latest_run_dir ws w) as [r w'] eqn:E. simpl in Hrd.
    subst r. by apply (latest_run_dir_greatest ws w rd w').
Qed.

Lemma latest_run_dir_member (ws : Path) (w : World) (rd : Path) :
  (Status.latest_run_dir ws w).1 = Ok (Some rd) →
  rd ∈ iterdir (fs w) (ws </> ".codex" </> "longrun").
Proof.
  rewrite latest_run_dir_result.
  destruct (is_dir (fs w) _); [|intros [=]].
  destruct (filter _ _) as [|d dirs] eqn:Ef; [intros [=]|].
  intros [= E1]. apply last_Some_elem_of in E1.
  rewrite merge_sort_Permutation, <- Ef in E1.
  by apply list_elem_of_filter in E1 as [_ ?].
Qed.

Lemma string_le_iff_leb (a b : string) : String.le a b ↔ String.leb a b = true.
Proof. unfold String.le. by rewrite Is_true_true. Qed.

(** X10. When every run directory carries the same label, so that the
    names differ in their time tags only, the directory [--latest]
    resolves to has the greatest time tag: no other run's tag is greater
    as a string.  (For the fixed-width tags of [now_tag] the order of
    strings is the order of time.) *)
Theorem latest_is_newest_under_one_label (ws : Path) (w : World)
    (label : string) (rd : Path) :
  let base := ws </> ".codex" </> "longrun" in
  (Status.latest_run_dir ws w).1 = Ok (Some rd) →
  (∀ q, q ∈ iterdir (fs w) base → is_dir (fs w) q = true →
        ∃ tag, name q = label +:+ "_" +:+ tag) →
  ∃ tag, name rd = label +:+ "_" +:+ tag
         ∧ ∀ q tag', q ∈ iterdir (fs w) base → is_dir (fs w) q = true →
                     name q = label +:+ "_" +:+ tag' →
                     String.le tag' tag.
Proof.
  intros base Hrd Hlabel.
  destruct (Status.latest_run_dir ws w) as [r w'] eqn:E. simpl in Hrd.
  subst r.
  destruct (latest_run_dir_greatest ws w rd w' E) as (Hpar & Hdir & Hmax).
  fold base in Hpar, Hmax.
  assert (rd ∈ iterdir (fs w) base) as Hin.
  { apply latest_run_dir_member. by rewrite E. }
  destruct (Hlabel rd Hin Hdir) as [tag Htag]. exists tag. split; [done|].
  intros q tag' Hq Hqd Hname.
  specialize (Hmax q Hq Hqd). rewrite Hname, Htag in Hmax.
  apply string_le_iff_leb in Hmax. apply string_le_iff_leb.
  rewrite <- !append_assoc in Hmax. by rewrite same_label_order in Hmax.
Qed.

Lemma latest_is_newest_under_one_label_witness :
  ∃ tag,
    name (runs_root </> "job_20240102_030406")
    = "job" +:+ "_" +:+ tag
    ∧ String.le "20240102_030405" tag.
Proof.
  pose (f := <[runs_root </> "job_20240102_030406" := Dir]>
               (<[runs_root </> "job_20240102_030405" := Dir]>
                  (<[runs_root := Dir]> (∅ : FS)))).
  assert (iterdir f (["work"] </> ".codex" </> "longrun")
          = [runs_root </> "job_20240102_030406";
             runs_root </> "job_20240102_030405"]) as Hls
    by (vm_compute; reflexivity).
  destruct (latest_is_newest_under_one_label ["work"] (initial f)
              "job" (runs_root </> "job_20240102_030406"))
    as (tag & Htag & Hmax).
  - vm_compute. reflexivity.
  - intros q Hq _. cbn [fs initial] in Hq. rewrite Hls in Hq.
    apply list_elem_of_In in Hq.
    destruct Hq as [<-|[<-|[]]].
    + exists "20240102_030406". vm_compute. reflexivity.
    + exists "20240102_030405". vm_compute. reflexivity.
  - exists tag. split; [exact Htag|].
    apply (Hmax (runs_root </> "job_20240102_030405")).
    + cbn [fs initial]. rewrite Hls. apply list_elem_of_In. right. left. reflexivity.
    + vm_compute. reflexivity.
    + vm_compute. reflexivity.
Defined.

(** ** Reporting on a run *)

Lemma report_of_record (args : Status.Args) (rd : Path)
    (st : Orchestrate.RunState) (w : World) :
  Status.args_json args = false →
  is_dir (fs w) rd = true →
  fs w !! (rd </> "state.json")
  = Some (File (JsonText (Orchestrate.asdict st))) →
  Status.report args (Some rd) w
  = (Ok 0,
     after w
       ([EvStat rd; EvStat (rd </> "state.json"); EvRead (rd </> "state.json")]
        ++ report_lines rd st) 0).
Proof.
  intros Hjson Hdir Hfile.
  assert (∀ evs, after w evs 0
                 = {| fs := replay evs (fs w); trace := trace w ++ evs;
                      nruns := nruns w |}) as Hafter.
  { intros evs. unfold after. by rewrite Nat.add_0_r. }
  rewrite Hafter.
  unfold Status.report, Status.print_field, read_json, report_lines.
  unfold mbind, M_bind, emit, get_fs, mret, M_ret. simpl.
  rewrite Hdir. simpl. unfold is_file. rewrite node_div, Hfile. simpl.
  rewrite node_div, Hfile. simpl. rewrite Hjson.
  destruct st as [rid lab wsp cat sta mc tc mp mrc trc err]. simpl.
  change (dict_get "main_rc" _) with (Orchestrate.json_opt JInt mrc).
  change (dict_get "error" _) with (Orchestrate.json_opt JStr err).
  change (dict_get "label" _) with (JStr lab).
  change (dict_get "status" _) with (JStr sta).
  destruct mrc as [c|], err as [e|]; simpl;
    try destruct (String.eqb e ""); simpl;
    by rewrite <- ?app_assoc.
Qed.

(** X11. [status.py] reads the records [orchestrate.py] writes: for a
    run directory whose state file holds any record written from a
    [RunState], the summary prints the directory's name as the run id,
    the record's label and status, its [main_rc] whenever one is set
    (also when it is 0), its error when one is set and not empty, then
    the names of the logs, and [main] returns 0. *)
Theorem status_reports_record (env : Env) (args : Status.Args) (fs0 : FS)
    (rd : Path) (w1 : World) (st : Orchestrate.RunState) :
  Status.select_run_dir env args (initial fs0) = (Ok (Some rd), w1) →
  Status.args_json args = false →
  is_dir fs0 rd = true →
  fs0 !! (rd </> "state.json")
  = Some (File (JsonText (Orchestrate.asdict st))) →
  Status.main env args (initial fs0)
  = (Ok 0,
     after w1
       ([EvStat rd; EvStat (rd </> "state.json"); EvRead (rd </> "state.json")]
        ++ report_lines rd st) 0).
Proof.
  intros Hsel Hjson Hdir Hfile.
  pose proof (select_run_dir_fs env args _ _ _ Hsel) as Hfs. simpl in Hfs.
  unfold Status.main. rewrite (bind_Ok _ _ _ _ _ Hsel).
  apply report_of_record; by rewrite ?Hfs.
Qed.

Lemma status_reports_record_witness :
  let rd := runs_root </> "job_20240102_030405" in
  let st := run_record demo_env demo_args ["work"] "failed" (Some 0)
              (Some [0; 5]) (Some "follow-up failed at step 2 rc=5") in
  let fs1 : FS :=
    <[rd </> "state.json" := File (JsonText (Orchestrate.asdict st))]>
      (<[rd := Dir]> demo_fs) in
  trace (Status.main demo_env
           (Status.mkArgs (Some "/work") (Some "job_20240102_030405")
              false false) (initial fs1)).2
  = [ EvStat rd; EvStat (rd </> "state.json"); EvRead (rd </> "state.json");
      EvPrint "run_id: job_20240102_030405";
      EvPrintField "label" (JStr "job");
      EvPrintField "status" (JStr "failed");
      EvPrintField "main_rc" (JInt 0);
      EvPrintField "error" (JStr "follow-up failed at step 2 rc=5");
      EvPrint "logs: main.log / then.log / orchestrator.log" ].
Proof.
  intros rd st fs1.
  rewrite (status_reports_record demo_env _ fs1 rd (initial fs1) st);
    reflexivity.
Defined.

(** X12. A run that cannot be found is reported, not crashed on.  With
    [--run-id] naming something that is not a directory below the runs
    root (nothing there, or a file), and with [--latest] when the runs
    root is not a directory or holds no directory, [main] prints
    "(no runs found)", returns 1 and reads no state file. *)
Theorem status_run_not_found (env : Env) (args : Status.Args) (fs0 : FS)
    (ws : Path) :
  Status.resolve_workspace_root env (Status.args_workspace args)
    (initial fs0) = (Ok ws, initial fs0) →
  let base := ws </> ".codex" </> "longrun" in
  let out := Status.main env args (initial fs0) in
  (Status.args_latest args = false →
   truthy_str (Status.args_run_id args) = true →
   is_dir fs0 (base </> default "" (Status.args_run_id args)) = false →
   out = (Ok 1,
          after (initial fs0)
            [ EvStat (base </> default "" (Status.args_run_id args));
              EvPrint "(no runs found)" ] 0))
  ∧ (Status.args_latest args = true →
     is_dir fs0 base = false
     ∨ (∀ q, q ∈ iterdir fs0 base → is_dir fs0 q = false) →
     out.1 = Ok 1
     ∧ last (trace out.2) = Some (EvPrint "(no runs found)")
     ∧ Forall (λ ev, ∀ p, ev ≠ EvRead p) (trace out.2)).
Proof.
  intros Hroot base out. subst out. split.
  - intros Hl Hr Hd. unfold Status.main, Status.select_run_dir.
    rewrite (bind_Ok _ (Status.report args) (initial fs0)
               (Some (base </> default "" (Status.args_run_id args)))
               (initial fs0)).
    + unfold Status.report.
      rewrite (bind_Ok _ _ _ _ _ (emit_after _ _)), bind_get_fs.
      change (fs (after (initial fs0) _ 0)) with fs0. rewrite Hd. simpl.
      rewrite (bind_Ok _ _ _ _ _ (emit_after _ _)). by rewrite after_after.
    + rewrite (bind_Ok _ _ _ _ _ Hroot). by rewrite Hl, Hr.
  - intros Hl Hnone.
    pose proof (latest_run_dir_none ws (initial fs0))
      as Hiff.
    destruct (Status.latest_run_dir ws (initial fs0)) as [r w1] eqn:E.
    simpl in Hiff. apply Hiff in Hnone. subst r.
    assert (Status.select_run_dir env args (initial fs0) = (Ok None, w1))
      as Hsel.
    { unfold Status.select_run_dir. rewrite (bind_Ok _ _ _ _ _ Hroot).
      by rewrite Hl. }
    unfold Status.main. rewrite (bind_Ok _ _ _ _ _ Hsel).
    unfold Status.report.
    rewrite (bind_Ok _ _ _ _ _ (emit_after _ _)). simpl.
    split; [done|]. split; [apply last_snoc|].
    apply Forall_app. split; [|by repeat constructor].
    assert (trace w1 = trace (Status.latest_run_dir ws (initial fs0)).2) as ->
      by (by rewrite E).
    unfold Status.latest_run_dir.
    rewrite (bind_Ok _ _ _ _ _ (emit_after _ _)), bind_get_fs.
    change (fs (after (initial fs0) _ 0)) with fs0.
    destruct (is_dir fs0 _); simpl; [|by repeat constructor].
    rewrite (bind_Ok _ _ _ _ _ (emit_after _ _)).
    destruct (filter _ _); simpl; by repeat constructor.
Qed.

Lemma status_run_not_found_witness :
  Status.main demo_env
    (Status.mkArgs (Some "/work") (Some "c_20260101_000000") false false)
    (initial demo_fs)
  = (Ok 1,
     after (initial demo_fs)
       [ EvStat (runs_root </> "c_20260101_000000");
         EvPrint "(no runs found)" ] 0).
Proof.
  destruct (status_run_not_found demo_env
              (Status.mkArgs (Some "/work") (Some "c_20260101_000000")
                 false false) demo_fs ["work"]) as [H _]; [reflexivity|].
  by apply H.
Defined.

(** ** What a reader can find in the state file *)

(** In a trace made of stretches that leave [path] alone and of whole
    writes of documents satisfying [D], every point in time shows at
    [path] what was there at the start or one of those documents. *)
Lemma snapshots (path : Path) (D : Json → Prop)
    (segs : list (list Event + Json)) (f : FS) (n : nat) :
  name path ≠ "" →
  Forall (λ s, match s with
               | inl evs => Forall (λ ev, path ∉ touched ev) evs
               | inr obj => D obj
               end) segs →
  replay (take n (concat (map (stretch_events path) segs))) f !! path
  = f !! path
  ∨ ∃ obj, D obj
           ∧ replay (take n (concat (map (stretch_events path) segs))) f
             !! path = Some (File (JsonText obj)).
Proof.
  intros Hn. revert f n. induction segs as [|s segs IH]; intros f n Hall.
  - left. cbn [map concat]. by rewrite take_nil.
  - inversion Hall as [|? ? Hs Hrest]; subst.
    cbn [map concat]. rewrite take_app, replay_app.
    set (f1 := replay (take n (stretch_events path s)) f).
    assert (f1 !! path = f !! path
            ∨ ∃ obj, D obj ∧ f1 !! path = Some (File (JsonText obj))) as H1.
    { unfold f1. destruct s as [evs|obj]; simpl.
      - left. apply replay_untouched. by apply Forall_take.
      - destruct (write_events_lookup path obj f Hn) as (Hold & Hnew & _).
        destruct (decide (n < 3)%nat) as [Hlt|Hge].
        + left. by apply Hold.
        + right. exists obj. split; [done|].
          rewrite take_ge by (simpl; lia). exact Hnew. }
    destruct (IH f1 (n - length (stretch_events path s))%nat Hrest)
      as [E | (obj & HD & E)].
    + rewrite E. exact H1.
    + right. by exists obj.
Qed.

Lemma consistent_created (env : Env) (args : Orchestrate.Args) (ws : Path)
    (status : string) :
  status = "created" ∨ status = "running" →
  consistent (run_record env args ws status None None None).
Proof. intros H. left. by repeat split. Qed.

Lemma within_mkdir_leaves (rd : Path) (n : string) (ev : Event) :
  is_mkdir ev → within rd ev → rd </> n ∉ touched ev.
Proof.
  destruct ev; try done. simpl. intros _ Hq E%list_elem_of_singleton.
  subst p. destruct Hq as [Hq|Hq%ancestors_shorter].
  - by apply div_ne_self in Hq.
  - unfold path_div in Hq. rewrite length_app in Hq. simpl in Hq. lia.
Qed.

(** X13. Whenever the state file of a foreground run is looked at (or
    the run is killed), it holds what it held before the run started or
    the full record of this run in a consistent state: created or running
    with no result yet; completed with main code 0, no error and a zero
    code for every follow-up; or failed with an error message and the
    failing code as the last one recorded.  A reader never finds, say,
    [failed] without a message or [completed] with a nonzero code. *)
Theorem state_file_always_consistent (env : Env) (args : Orchestrate.Args)
    (fs0 : FS) (ws : Path) :
  Orchestrate.args_detach args = false →
  Orchestrate.resolve_workspace_root env (Orchestrate.args_workspace args)
    (initial fs0) = (Ok ws, initial fs0) →
  can_start env fs0 (run_dir_of env args ws) = true →
  let out := Orchestrate.main env args (initial fs0) in
  let state_path := run_dir_of env args ws </> "state.json" in
  ∀ n,
    replay (take n (trace out.2)) fs0 !! state_path = fs0 !! state_path
    ∨ ∃ st,
        replay (take n (trace out.2)) fs0 !! state_path
        = Some (File (JsonText (Orchestrate.asdict st)))
        ∧ consistent st
        ∧ Orchestrate.run_id st = name (run_dir_of env args ws)
        ∧ Orchestrate.main_cmd st = Orchestrate.args_cmd args
        ∧ Orchestrate.then_cmds st = Orchestrate.args_then args.
Proof.
  intros Hfg Hroot Hstart out state_path n. subst out.
  set (rd := run_dir_of env args ws) in *.
  set (D := λ obj, ∃ st, obj = Orchestrate.asdict st ∧ consistent st
                         ∧ Orchestrate.run_id st = name rd
                         ∧ Orchestrate.main_cmd st = Orchestrate.args_cmd args
                         ∧ Orchestrate.then_cmds st
                           = Orchestrate.args_then args).
  destruct (main_within env args ws (initial fs0) Hroot)
    as (evs & _ & Htr & Hwithin).
  simpl in Htr. fold rd in Hwithin.
  assert (∀ pre, Forall is_mkdir pre → Forall (within rd) pre →
                 Forall (λ ev, state_path ∉ touched ev) pre) as Hpre.
  { intros pre H1 H2. apply Forall_forall. intros ev Hev.
    rewrite Forall_forall in H1, H2.
    by apply within_mkdir_leaves; [apply H1 | apply H2]. }
  assert (Forall (λ ev, state_path ∉ touched ev) (reload_events env state_path))
    as Hreload.
  { unfold reload_events. destruct (truthy_str _); repeat constructor.
    simpl. set_solver. }
  assert (∀ c, Forall (λ ev, state_path ∉ touched ev)
                 (run_events (Orchestrate.args_cmd args) (rd </> "main.log") c))
    as Hmain.
  { intros c. unfold run_events.
    apply Forall_cons. split; [|apply Forall_cons; split; [|constructor]].
    - simpl. intros E%list_elem_of_singleton. by apply div_inj in E.
    - simpl. set_solver. }
  assert (D (Orchestrate.asdict
               (run_record env args ws "created" None None None))) as Dc.
  { eexists. split; [done|]. split; [apply consistent_created; by left|done]. }
  assert (D (Orchestrate.asdict
               (run_record env args ws "running" None None None))) as Dr.
  { eexists. split; [done|]. split; [apply consistent_created; by right|done]. }
  assert (name state_path ≠ "") as Hname by (unfold state_path; by rewrite name_div).
  cut (replay (take n (trace (Orchestrate.main env args (initial fs0)).2)) fs0
       !! state_path = fs0 !! state_path
       ∨ ∃ obj, D obj
                ∧ replay (take n (trace (Orchestrate.main env args
                                           (initial fs0)).2)) fs0
                  !! state_path = Some (File (JsonText obj))).
  { intros [E | (obj & (st & -> & Hst) & E)]; [by left|].
    right. by exists st. }
  destruct (decide (wait env 0 = 0)) as [H0|H0].
  - destruct (foreground_chain env args fs0 ws Hfg Hroot Hstart H0)
      as (pre & k & status & err & code & Hmk & Hk & Hzk & E & Hend).
    rewrite E in Htr |- *. simpl in Htr |- *.
    assert (Forall (within rd) pre) as Hpw.
    { rewrite <- Htr in Hwithin. unfold head_events in Hwithin.
      apply Forall_app in Hwithin as [Hw _].
      by apply Forall_app in Hw as [Hw _]. }
    set (final := run_record env args ws status (Some 0)
                    (Some (map (wait env) (seq 1 k))) err).
    assert (D (Orchestrate.asdict final)) as Df.
    { exists final. split; [done|]. split; [|done].
      destruct Hend as [(-> & _ & -> & Hkl & Hlast) | (-> & _ & Hk1 & Hne & ->)].
      - right. left. simpl. repeat split.
        rewrite map_zero, Hkl; [done|].
        intros j Hj. destruct (decide (j = k)) as [->|Hjne]; [done|].
        apply Hzk. lia.
      - right. right. simpl. split; [done|]. split; [by eexists|]. right.
        split; [done|]. destruct k as [|k]; [lia|].
        exists k, (wait env (S k)). split; [done|]. split; [lia|].
        f_equal. rewrite seq_S, map_app. simpl. f_equal.
        apply map_zero. intros j Hj. apply Hzk. lia. }
    pose proof (snapshots state_path D
             [ inl pre; inr (Orchestrate.asdict
                               (run_record env args ws "created" None None None));
               inl (reload_events env state_path);
               inr (Orchestrate.asdict
                      (run_record env args ws "running" None None None));
               inl (run_events (Orchestrate.args_cmd args) (rd </> "main.log") 0);
               inl (followup_events (rd </> "then.log")
                      (take k (Orchestrate.args_then args))
                      (map (wait env) (seq 1 k)));
               inr (Orchestrate.asdict final) ] fs0 n Hname) as Hsnap.
    cbn [map concat stretch_events] in Hsnap. rewrite app_nil_r in Hsnap.
    unfold head_events. fold rd state_path.
    rewrite <- ?app_assoc in Hsnap. rewrite <- ?app_assoc. apply Hsnap.
    apply Forall_cons; split; [by apply Hpre|].
    apply Forall_cons; split; [exact Dc|].
    apply Forall_cons; split; [exact Hreload|].
    apply Forall_cons; split; [exact Dr|].
    apply Forall_cons; split; [apply Hmain|].
    apply Forall_cons; split; [apply followups_leave_state|].
    apply Forall_cons; split; [exact Df|]. constructor.
  - destruct (foreground_main_failed env args fs0 ws Hfg Hroot Hstart _
                eq_refl H0) as (pre & Hmk & E).
    rewrite E in Htr |- *. simpl in Htr |- *.
    assert (Forall (within rd) pre) as Hpw.
    { rewrite <- Htr in Hwithin. unfold head_events in Hwithin.
      apply Forall_app in Hwithin as [Hw _].
      by apply Forall_app in Hw as [Hw _]. }
    set (final := run_record env args ws "failed" (Some (wait env 0)) None
                    (Some (main_failed_msg (wait env 0)))).
    assert (D (Orchestrate.asdict final)) as Df.
    { exists final. split; [done|]. split; [|done].
      right. right. simpl. split; [done|]. split; [by eexists|]. left.
      by exists (wait env 0). }
    pose proof (snapshots state_path D
             [ inl pre; inr (Orchestrate.asdict
                               (run_record env args ws "created" None None None));
               inl (reload_events env state_path);
               inr (Orchestrate.asdict
                      (run_record env args ws "running" None None None));
               inl (run_events (Orchestrate.args_cmd args) (rd </> "main.log")
                      (wait env 0));
               inr (Orchestrate.asdict final) ] fs0 n Hname) as Hsnap.
    cbn [map concat stretch_events] in Hsnap. rewrite app_nil_r in Hsnap.
    unfold head_events. fold rd state_path.
    rewrite <- ?app_assoc in Hsnap. rewrite <- ?app_assoc. apply Hsnap.
    apply Forall_cons; split; [by apply Hpre|].
    apply Forall_cons; split; [exact Dc|].
    apply Forall_cons; split; [exact Hreload|].
    apply Forall_cons; split; [exact Dr|].
    apply Forall_cons; split; [apply Hmain|].
    apply Forall_cons; split; [exact Df|]. constructor.
Qed.

Lemma state_file_always_consistent_witness :
  let out := Orchestrate.main demo_env demo_args (initial ∅) in
  let state_path := demo_run_dir </> "state.json" in
  replay (take 9 (trace out.2)) ∅ !! state_path = (∅ : FS) !! state_path
  ∨ ∃ st,
      replay (take 9 (trace out.2)) ∅ !! state_path
      = Some (File (JsonText (Orchestrate.asdict st)))
      ∧ consistent st
      ∧ Orchestrate.run_id st = name demo_run_dir
      ∧ Orchestrate.main_cmd st = Orchestrate.args_cmd demo_args
      ∧ Orchestrate.then_cmds st = Orchestrate.args_then demo_args.
Proof.
  apply (state_file_always_consistent demo_env demo_args ∅ ["work"]);
    reflexivity.
Defined.

(** ** The detaching parent *)

Lemma run_dir_made_within (env : Env) (args : Orchestrate.Args) (fs0 : FS)
    (ws : Path) :
  can_start env fs0 (run_dir_of env args ws) = true →
  ∃ pre,
    (if truthy_str (environ_LONGRUN_RUN_DIR env) then
       mkdir (resolve env (default "" (environ_LONGRUN_RUN_DIR env))) true;;
       mret (resolve env (default "" (environ_LONGRUN_RUN_DIR env)))
     else Orchestrate.make_run_dir env ws (Orchestrate.args_label args))
      (initial fs0)
    = (Ok (run_dir_of env args ws), after (initial fs0) pre 0)
    ∧ Forall is_mkdir pre
    ∧ Forall (within (run_dir_of env args ws)) pre
    ∧ usable (replay pre fs0) (run_dir_of env args ws).
Proof.
  intros Hstart.
  destruct (run_dir_made env args fs0 ws Hstart) as (pre & E & Hmk & Hu).
  exists pre. split; [exact E|]. split; [done|]. split; [|done].
  set (rd := run_dir_of env args ws) in *.
  lazymatch type of E with
  | ?m (initial fs0) = _ =>
      assert (emits (within rd) (λ _ : Path, True) m) as Hem
  end.
  { unfold rd, run_dir_of.
    destruct (truthy_str (environ_LONGRUN_RUN_DIR env)).
    - eapply emits_bind; [apply emits_mkdir; intros q Hq; exact Hq|].
      intros _ _. by apply emits_ret.
    - unfold Orchestrate.make_run_dir, Orchestrate.now_tag.
      eapply emits_bind; [apply emits_mkdir; intros q Hq; exact Hq|].
      intros _ _. by apply emits_ret. }
  destruct (Hem (initial fs0)) as (evs & _ & Htr & Hall & _).
  rewrite E in Htr. simpl in Htr. by subst evs.
Qed.

Lemma handover_leaves (rd : Path) (q : Path) (evs : list Event) :
  (∀ n, n ∈ detach_files → q ≠ rd </> n) →
  Forall (handover rd) evs → Forall (λ ev, q ∉ touched ev) evs.
Proof.
  intros Hq Hall. eapply Forall_impl; [exact Hall|].
  intros ev Hev Hin. destruct (Hev q Hin) as (n & Hn & ->).
  by apply (Hq n).
Qed.

Lemma usable_handover (rd : Path) (evs : list Event) (f : FS) :
  usable f rd → Forall (handover rd) evs → usable (replay evs f) rd.
Proof.
  intros [Hrd Hch] Hall. split.
  - destruct (decide (rd = [])) as [->|Hne]; [done|].
    rewrite node_nonempty in * by done.
    rewrite replay_untouched; [done|].
    apply (handover_leaves rd); [|done].
    intros n _ E. by apply (div_ne_self rd n).
  - intros n Hn. rewrite node_div.
    rewrite replay_untouched; [rewrite <- node_div; by apply Hch|].
    apply (handover_leaves rd); [|done].
    intros m Hm E%div_inj. subst m. revert Hn Hm.
    unfold run_files, detach_files. set_solver.
Qed.

Lemma handover_detach_tail (env : Env) (rd : Path) :
  Forall (handover rd) (detach_tail env rd).
Proof.
  assert ("detached.json.tmp" ∈ detach_files ∧ "detached.json" ∈ detach_files)
    as [Ht Hd] by (unfold detach_files; set_solver).
  unfold detach_tail, write_events. rewrite tmp_of_div.
  repeat constructor; intros q Hq; simpl in Hq.
  - apply list_elem_of_singleton in Hq as ->. by exists "detached.json.tmp".
  - apply list_elem_of_singleton in Hq as ->. by exists "detached.json.tmp".
  - apply elem_of_cons in Hq as [->|Hq].
    + by exists "detached.json.tmp".
    + apply list_elem_of_singleton in Hq as ->. by exists "detached.json".
  - by apply elem_of_nil in Hq.
Qed.

Lemma handover_spawn (rd : Path) (argv : list string) (e : option string)
    (pid : Z) :
  Forall (handover rd)
    [ EvOpenAppend (rd </> "orchestrator.log");
      EvSpawn argv e (rd </> "orchestrator.log") pid ].
Proof.
  repeat constructor; intros q Hq; simpl in Hq; [|set_solver].
  exists "orchestrator.log". unfold detach_files. set_solver.
Qed.

(** The detaching parent, step by step. *)
Lemma detach_shape (env : Env) (args : Orchestrate.Args) (fs0 : FS)
    (ws : Path) :
  Orchestrate.args_detach args = true →
  Orchestrate.resolve_workspace_root env (Orchestrate.args_workspace args)
    (initial fs0) = (Ok ws, initial fs0) →
  can_start env fs0 (run_dir_of env args ws) = true →
  can_detach fs0 (run_dir_of env args ws) = true →
  ∃ pre,
    Forall is_mkdir pre
    ∧ Forall (within (run_dir_of env args ws)) pre
    ∧ usable (replay pre fs0) (run_dir_of env args ws)
    ∧ Orchestrate.main env args (initial fs0)
      = (Ok 0, after (initial fs0) (pre ++ detach_events env args ws) 0).
Proof.
  intros Hdet Hroot Hstart Hcan.
  destruct (run_dir_made_within env args fs0 ws Hstart)
    as (pre & Hpre & Hmk & Hwi & Hu).
  exists pre. split; [done|]. split; [done|]. split; [done|].
  set (rd := run_dir_of env args ws) in *.
  set (created := run_record env args ws "created" None None None).
  set (w0 := after (initial fs0) pre 0).
  set (w1 := after w0 (write_events (rd </> "state.json")
                         (Orchestrate.asdict created)) 0).
  assert (usable (fs w1) rd) as Hu1.
  { apply usable_replay; [done|]. apply inside_write_events. }
  assert (∀ n, n ∈ detach_files → fs w1 !! (rd </> n) = fs0 !! (rd </> n))
    as Hkeep.
  { intros n Hn. unfold w1, w0. cbn [fs after initial].
    rewrite !replay_untouched; [done| |].
    - apply Forall_forall. intros ev Hev. rewrite Forall_forall in Hmk, Hwi.
      by apply within_mkdir_leaves; [apply Hmk | apply Hwi].
    - unfold write_events. rewrite tmp_of_div.
      repeat constructor; simpl; intros Hin;
        assert (n = "state.json" +:+ ".tmp" ∨ n = "state.json") as Hcase
          by (revert Hin; rewrite ?elem_of_cons, ?elem_of_nil;
              intros Hq; repeat destruct Hq as [Hq|Hq]; try done;
              apply div_inj in Hq; auto);
        revert Hn; unfold detach_files;
        destruct Hcase as [-> | ->]; set_solver. }
  assert (∀ n, n ∈ detach_files → node (fs w1) (rd </> n) ≠ Some Dir)
    as Hfiles.
  { intros n Hn. rewrite node_div, (Hkeep n Hn), <- node_div.
    unfold can_detach in Hcan. rewrite forallb_forall in Hcan.
    apply list_elem_of_In, Hcan, negb_true_iff in Hn.
    unfold is_dir in Hn. by destruct (node fs0 (rd </> n)) as [[|c]|]. }
  set (orch_log := rd </> "orchestrator.log").
  set (argv := worker_argv env args ws).
  set (w2 := after w1 [EvOpenAppend orch_log;
                       EvSpawn argv (Some (str rd)) orch_log (popen_pid env)] 0).
  assert (usable (fs w2) rd) as Hu2.
  { apply usable_handover; [done|]. apply handover_spawn. }
  assert (∀ n, n ∈ detach_files → n ≠ "orchestrator.log" →
               node (fs w2) (rd </> n) ≠ Some Dir) as Hfiles2.
  { intros n Hn Hne. rewrite node_div. unfold w2. cbn [fs after].
    rewrite replay_untouched; [rewrite <- node_div; by apply Hfiles|].
    repeat constructor; simpl; [|set_solver].
    intros E%list_elem_of_singleton. by apply div_inj in E. }
  unfold Orchestrate.main.
  rewrite (bind_Ok _ _ _ _ _ Hroot).
  rewrite (bind_Ok _ _ _ _ _ Hpre).
  fold rd created w0.
  rewrite (bind_Ok _ _ _ _ _ (write_state_ok rd _ w0 Hu)).
  fold w1. rewrite Hdet.
  rewrite (bind_Ok _ _ _ _ _ (open_append_ok orch_log w1
             ltac:(unfold orch_log; rewrite parent_div; apply Hu1)
             ltac:(apply Hfiles; unfold detach_files; set_solver))).
  rewrite (bind_Ok _ _ _ _ _ (emit_after _ _)).
  rewrite after_after. fold argv orch_log w2.
  rewrite (bind_Ok _ _ _ _ _
             (write_json_ok (rd </> "detached.json") _ w2
                ltac:(by rewrite name_div)
                ltac:(rewrite parent_div; apply Hu2)
                ltac:(rewrite tmp_of_div; apply Hfiles2;
                      [unfold detach_files; set_solver | done])
                ltac:(apply Hfiles2;
                      [unfold detach_files; set_solver | done]))).
  rewrite (bind_Ok _ _ _ _ _ (emit_after _ _)).
  unfold w2, w1, w0. rewrite !after_after.
  unfold detach_events, detach_tail. fold rd created argv orch_log.
  cbn [Orchestrate.run_id]. by rewrite <- ?app_assoc.
Qed.

Lemma detach_files_apart (rd : Path) (n m : string) :
  n ∈ run_files → m ∈ detach_files → rd </> n ≠ rd </> m.
Proof.
  intros Hn Hm E%div_inj. subst m. revert Hn Hm.
  unfold run_files, detach_files. set_solver.
Qed.

Lemma handover_detach_rest (env : Env) (args : Orchestrate.Args) (ws : Path) :
  Forall (handover (run_dir_of env args ws))
    ([ EvOpenAppend (run_dir_of env args ws </> "orchestrator.log");
       EvSpawn (worker_argv env args ws) (Some (str (run_dir_of env args ws)))
         (run_dir_of env args ws </> "orchestrator.log") (popen_pid env) ]
     ++ detach_tail env (run_dir_of env args ws)).
Proof.
  apply Forall_app. split; [apply handover_spawn | apply handover_detach_tail].
Qed.

(** X14. With [--detach], [main] runs and waits for no command itself.
    After making the run directory it writes the record with status
    created, opens [orchestrator.log], starts exactly one worker (this
    script with the same label, command and follow-ups, the resolved
    workspace root, no [--detach], and [LONGRUN_RUN_DIR] set to the run
    directory), writes the worker's pid to [detached.json], prints the run
    id and returns 0.  When it returns, the state file still says created
    and [detached.json] holds the pid. *)
Theorem detach_hands_over (env : Env) (args : Orchestrate.Args) (fs0 : FS)
    (ws : Path) :
  Orchestrate.args_detach args = true →
  Orchestrate.resolve_workspace_root env (Orchestrate.args_workspace args)
    (initial fs0) = (Ok ws, initial fs0) →
  can_start env fs0 (run_dir_of env args ws) = true →
  can_detach fs0 (run_dir_of env args ws) = true →
  let rd := run_dir_of env args ws in
  let out := Orchestrate.main env args (initial fs0) in
  out.1 = Ok 0
  ∧ (∃ pre, Forall is_mkdir pre
            ∧ trace out.2 = pre ++ detach_events env args ws)
  ∧ commands_run (trace out.2) = []
  ∧ nruns out.2 = 0%nat
  ∧ fs out.2 !! (rd </> "state.json")
    = Some (File (JsonText (Orchestrate.asdict
        (run_record env args ws "created" None None None))))
  ∧ fs out.2 !! (rd </> "detached.json")
    = Some (File (JsonText
        (JObj [("orchestrator_pid", JInt (popen_pid env))]))).
Proof.
  intros Hdet Hroot Hstart Hcan rd out. subst out.
  destruct (detach_shape env args fs0 ws Hdet Hroot Hstart Hcan)
    as (pre & Hmk & _ & _ & ->).
  cbn [fst snd after fs trace nruns initial app].
  split; [done|]. split; [by exists pre|]. split; [|split; [done|split]].
  - rewrite commands_run_app, (commands_run_mkdirs pre Hmk). reflexivity.
  - unfold detach_events. fold rd. rewrite !app_assoc, <- app_assoc.
    rewrite replay_app, replay_untouched.
    + apply written_last. by rewrite name_div.
    + apply (handover_leaves rd); [|apply handover_detach_rest].
      intros n Hn. apply detach_files_apart; [|done].
      unfold run_files. set_solver.
  - unfold detach_events, detach_tail. fold rd. rewrite !app_assoc.
    rewrite replay_app. cbn [replay fold_left apply_event].
    rewrite <- !app_assoc, !app_assoc.
    apply written_last. by rewrite name_div.
Qed.

Lemma detach_hands_over_witness :
  let out := Orchestrate.main demo_env detach_args (initial ∅) in
  out.1 = Ok 0
  ∧ (∃ pre, Forall is_mkdir pre
            ∧ trace out.2 = pre ++ detach_events demo_env detach_args ["work"])
  ∧ commands_run (trace out.2) = []
  ∧ nruns out.2 = 0%nat
  ∧ fs out.2 !! (demo_run_dir </> "state.json")
    = Some (File (JsonText (Orchestrate.asdict
        (run_record demo_env detach_args ["work"] "created" None None None))))
  ∧ fs out.2 !! (demo_run_dir </> "detached.json")
    = Some (File (JsonText (JObj [("orchestrator_pid", JInt 4242)]))).
Proof.
  apply (detach_hands_over demo_env detach_args ∅ ["work"]);
    vm_compute; reflexivity.
Defined.

(** ** From the parent to the worker *)

Lemma str_truthy (p : Path) : truthy_str (Some (str p)) = true.
Proof. by destruct p. Qed.

Lemma within_keeps_ancestors (rd q : Path) (evs : list Event) (f : FS) :
  q ∈ ancestors rd → Forall (within rd) evs →
  is_file f q = false → is_file (replay evs f) q = false.
Proof.
  intros Hq Hall. revert f. induction Hall as [|ev evs Hev _ IH]; [done|].
  intros f Hf. apply IH. clear IH.
  destruct q as [|c q']; [done|]. unfold is_file in *.
  rewrite node_nonempty in * by done.
  pose proof (ancestors_shorter _ _ Hq) as Hlen.
  assert (∀ n, c :: q' ≠ rd </> n) as Hne.
  { intros n E. rewrite E in Hlen. unfold path_div in Hlen.
    rewrite length_app in Hlen. simpl in Hlen. lia. }
  destruct ev; try done; simpl in Hev |- *.
  - rewrite lookup_insert. by case_decide.
  - destruct Hev as [n ->]. by rewrite lookup_insert_ne.
  - destruct Hev as [n ->]. by rewrite lookup_insert_ne.
  - destruct Hev as (n & -> & ->).
    destruct (f !! (rd </> (n +:+ ".tmp"))); [|done].
    rewrite lookup_insert_ne by done. by rewrite lookup_delete_ne.
  - destruct Hev as [n ->].
    destruct (f !! (rd </> n)); [done|]. by rewrite lookup_insert_ne.
Qed.

Lemma spawned_app (a b : list Event) :
  spawned (a ++ b) = spawned a || spawned b.
Proof. apply existsb_app. Qed.

Lemma spawned_take_false (evs : list Event) (n : nat) :
  spawned evs = false → spawned (take n evs) = false.
Proof.
  unfold spawned. revert n. induction evs as [|ev evs IH]; intros [|n] H;
    try done.
  simpl in *. apply orb_false_iff in H as [-> H]. by apply IH.
Qed.

Lemma spawned_mkdirs (pre : list Event) :
  Forall is_mkdir pre → spawned pre = false.
Proof. induction 1 as [|ev evs Hev _ IH]; [done|]. by destruct ev. Qed.

(** A point of the parent's trace past the start of the worker. *)
Lemma past_the_spawn (A : list Event) (ev : Event) (tail : list Event)
    (n : nat) :
  spawned A = false →
  spawned (take n (A ++ ev :: tail)) = true →
  take n (A ++ ev :: tail)
  = A ++ ev :: take (n - S (length A)) tail.
Proof.
  intros HA Hn. destruct (decide (n ≤ length A)%nat) as [Hle|Hgt].
  - rewrite take_app_le in Hn by done.
    by rewrite (spawned_take_false A n HA) in Hn.
  - rewrite take_app_ge by lia.
    destruct (n - length A)%nat as [|m] eqn:E; [lia|].
    simpl. do 3 f_equal. lia.
Qed.

(** The disk at any moment after the parent has started the worker lets
    the worker start in the run directory. *)
Lemma worker_can_start (env wenv : Env) (args : Orchestrate.Args) (fs0 : FS)
    (ws : Path) (n : nat) :
  Orchestrate.args_detach args = true →
  Orchestrate.resolve_workspace_root env (Orchestrate.args_workspace args)
    (initial fs0) = (Ok ws, initial fs0) →
  can_start env fs0 (run_dir_of env args ws) = true →
  can_detach fs0 (run_dir_of env args ws) = true →
  spawned (take n (trace (Orchestrate.main env args (initial fs0)).2)) = true →
  environ_LONGRUN_RUN_DIR wenv = Some (str (run_dir_of env args ws)) →
  resolve wenv (str (run_dir_of env args ws)) = run_dir_of env args ws →
  resolve wenv (str ws) = ws →
  let f1 := replay (take n (trace (Orchestrate.main env args (initial fs0)).2))
              fs0 in
  run_dir_of wenv (worker_args args ws) ws = run_dir_of env args ws
  ∧ Orchestrate.resolve_workspace_root wenv
      (Orchestrate.args_workspace (worker_args args ws)) (initial f1)
    = (Ok ws, initial f1)
  ∧ can_start wenv f1 (run_dir_of env args ws) = true.
Proof.
  intros Hdet Hroot Hstart Hcan Hsp Henv Hrd Hws f1.
  set (rd := run_dir_of env args ws) in *.
  split; [|split].
  - unfold run_dir_of at 1. rewrite Henv, str_truthy. exact Hrd.
  - unfold Orchestrate.resolve_workspace_root, worker_args.
    cbn [Orchestrate.args_workspace]. by rewrite str_truthy, Hws.
  - destruct (main_within env args ws (initial fs0) Hroot)
      as (evs & _ & Htr & Hwithin).
    cbn [trace initial app] in Htr. fold rd in Hwithin.
    destruct (detach_shape env args fs0 ws Hdet Hroot Hstart Hcan)
      as (pre & Hmk & _ & Hu & E).
    fold rd in Hu.
    assert (usable f1 rd) as Hu1.
    { unfold f1. rewrite E in Hsp |- *. cbn [snd trace after initial app] in *.
      unfold detach_events in *. fold rd in Hsp |- *.
      set (W := write_events (rd </> "state.json") _) in *.
      set (op := EvOpenAppend (rd </> "orchestrator.log")) in *.
      set (sp := EvSpawn _ _ _ _) in *.
      replace (pre ++ W ++ [op; sp] ++ detach_tail env rd)
        with ((pre ++ W ++ [op]) ++ sp :: detach_tail env rd) in *
        by (by rewrite <- !app_assoc).
      rewrite past_the_spawn; [|by rewrite !spawned_app, spawned_mkdirs|done].
      pose proof (handover_spawn rd (worker_argv env args ws)
                    (Some (str rd)) (popen_pid env)) as Hos.
      fold op sp in Hos. apply Forall_cons in Hos as [Hop Hos].
      rewrite <- !app_assoc, !replay_app.
      apply usable_handover.
      - apply usable_handover; [|by apply Forall_cons].
        apply usable_replay; [done|]. apply inside_write_events.
      - apply Forall_cons. split; [by apply Forall_cons in Hos as [? _]|].
        apply Forall_take, handover_detach_tail. }
    unfold can_start, can_host in Hstart |- *.
    apply andb_true_iff in Hstart as [Hhost _].
    apply andb_true_iff in Hhost as [Hhost _].
    apply andb_true_iff in Hhost as [Hanc _].
    rewrite Henv, str_truthy, andb_true_r.
    destruct Hu1 as [Hdir Hfiles].
    apply andb_true_iff. split; [apply andb_true_iff; split|].
    + apply forallb_forall. intros q Hq. apply negb_true_iff.
      unfold f1. rewrite <- Htr in Hwithin.
      apply (within_keeps_ancestors rd);
        [by apply list_elem_of_In | by apply Forall_take |].
      rewrite forallb_forall in Hanc. by apply negb_true_iff, Hanc.
    + unfold is_file. by rewrite Hdir.
    + apply forallb_forall. intros m Hm%list_elem_of_In.
      apply negb_true_iff. unfold is_dir. specialize (Hfiles m Hm).
      by destruct (node f1 (rd </> m)) as [[|c]|].
Qed.

(** ** How a foreground run ends *)

Lemma commands_run_head (env : Env) (args : Orchestrate.Args) (ws : Path)
    (pre : list Event) (c : Z) :
  Forall is_mkdir pre →
  commands_run (head_events env args ws pre c) = [Orchestrate.args_cmd args].
Proof.
  intros Hmk. unfold head_events.
  rewrite !commands_run_app, (commands_run_mkdirs pre Hmk),
    commands_run_reload.
  reflexivity.
Qed.

Lemma foreground_outcome (env : Env) (args : Orchestrate.Args) (fs0 : FS)
    (ws : Path) :
  Orchestrate.args_detach args = false →
  Orchestrate.resolve_workspace_root env (Orchestrate.args_workspace args)
    (initial fs0) = (Ok ws, initial fs0) →
  can_start env fs0 (run_dir_of env args ws) = true →
  ∃ code k status mrc trcs err,
    (Orchestrate.main env args (initial fs0)).1 = Ok code
    ∧ commands_run (trace (Orchestrate.main env args (initial fs0)).2)
      = Orchestrate.args_cmd args :: take k (Orchestrate.args_then args)
    ∧ fs (Orchestrate.main env args (initial fs0)).2
        !! (run_dir_of env args ws </> "state.json")
      = Some (File (JsonText (Orchestrate.asdict
          (run_record env args ws status mrc trcs err))))
    ∧ ((status = "completed" ∧ code = 0
        ∧ k = length (Orchestrate.args_then args) ∧ err = None)
       ∨ (status = "failed" ∧ code = 1 ∧ is_Some err)).
Proof.
  intros Hfg Hroot Hstart.
  destruct (decide (wait env 0 = 0)) as [H0|H0].
  - destruct (foreground_chain env args fs0 ws Hfg Hroot Hstart H0)
      as (pre & k & status & err & code & Hmk & Hk & Hzk & -> & Hend).
    exists code, k, status, (Some 0), (Some (map (wait env) (seq 1 k))), err.
    cbn [fst snd after fs trace initial app].
    split; [done|]. split; [|split].
    + rewrite !commands_run_app, (commands_run_head _ _ _ _ _ Hmk).
      rewrite commands_run_followups.
      * by rewrite app_nil_r.
      * rewrite length_map, length_seq, length_take. lia.
    + rewrite app_assoc. apply written_last. by rewrite name_div.
    + destruct Hend as [(-> & -> & -> & -> & _) | (-> & -> & _ & _ & ->)];
        [by left | right; by eauto].
  - destruct (foreground_main_failed env args fs0 ws Hfg Hroot Hstart _
                eq_refl H0) as (pre & Hmk & ->).
    exists 1, 0%nat, "failed", (Some (wait env 0)), None,
      (Some (main_failed_msg (wait env 0))).
    cbn [fst snd after fs trace initial app].
    split; [done|]. split; [|split].
    + rewrite commands_run_app, (commands_run_head _ _ _ _ _ Hmk).
      by rewrite take_0.
    + apply written_last. by rewrite name_div.
    + right. by eauto.
Qed.

(** X15. The parent and the worker fit together.  Take the disk at any
    moment after the parent of a detached run has started the worker, and
    a worker process whose [LONGRUN_RUN_DIR] is the run directory and
    whose command line carries the parent's label, command and follow-ups
    and the resolved workspace root.  That worker starts in the parent's
    run directory, runs the main command and then follow-ups in order, and
    ends with a record in the state file that has the parent's run id,
    label, commands and workspace and says completed when the worker
    returns 0 (every follow-up was run) or failed with an error message
    when it returns 1.  The record's [created_at] is the worker's starting
    time, not the parent's. *)
Theorem worker_takes_over (env wenv : Env) (args : Orchestrate.Args)
    (fs0 : FS) (ws : Path) (n : nat) :
  Orchestrate.args_detach args = true →
  Orchestrate.resolve_workspace_root env (Orchestrate.args_workspace args)
    (initial fs0) = (Ok ws, initial fs0) →
  can_start env fs0 (run_dir_of env args ws) = true →
  can_detach fs0 (run_dir_of env args ws) = true →
  spawned (take n (trace (Orchestrate.main env args (initial fs0)).2)) = true →
  environ_LONGRUN_RUN_DIR wenv = Some (str (run_dir_of env args ws)) →
  resolve wenv (str (run_dir_of env args ws)) = run_dir_of env args ws →
  resolve wenv (str ws) = ws →
  let rd := run_dir_of env args ws in
  let f1 := replay (take n (trace (Orchestrate.main env args (initial fs0)).2))
              fs0 in
  let worker := Orchestrate.main wenv (worker_args args ws) (initial f1) in
  ∃ code k st,
    worker.1 = Ok code
    ∧ commands_run (trace worker.2)
      = Orchestrate.args_cmd args :: take k (Orchestrate.args_then args)
    ∧ fs worker.2 !! (rd </> "state.json")
      = Some (File (JsonText (Orchestrate.asdict st)))
    ∧ Orchestrate.run_id st = name rd
    ∧ Orchestrate.label st = Orchestrate.args_label args
    ∧ Orchestrate.workspace st = str ws
    ∧ Orchestrate.created_at st = clock_iso wenv
    ∧ Orchestrate.main_cmd st = Orchestrate.args_cmd args
    ∧ Orchestrate.then_cmds st = Orchestrate.args_then args
    ∧ ((Orchestrate.status st = "completed" ∧ code = 0
        ∧ k = length (Orchestrate.args_then args)
        ∧ Orchestrate.error st = None)
       ∨ (Orchestrate.status st = "failed" ∧ code = 1
          ∧ is_Some (Orchestrate.error st))).
Proof.
  intros Hdet Hroot Hstart Hcan Hsp Henv Hrd Hws rd f1 worker.
  destruct (worker_can_start env wenv args fs0 ws n Hdet Hroot Hstart Hcan
              Hsp Henv Hrd Hws) as (Erd & Hwroot & Hwstart).
  fold rd f1 in Erd, Hwroot, Hwstart.
  rewrite <- Erd in Hwstart.
  destruct (foreground_outcome wenv (worker_args args ws) f1 ws eq_refl
              Hwroot Hwstart)
    as (code & k & status & mrc & trcs & err & Hcode & Hcmds & Hst & Hend).
  rewrite Erd in Hst.
  exists code, k, (run_record wenv (worker_args args ws) ws status mrc trcs err).
  split; [exact Hcode|]. split; [exact Hcmds|]. split; [exact Hst|].
  cbn [run_record Orchestrate.run_id Orchestrate.label Orchestrate.workspace
       Orchestrate.created_at Orchestrate.main_cmd Orchestrate.then_cmds
       Orchestrate.status Orchestrate.error worker_args
       Orchestrate.args_label Orchestrate.args_cmd Orchestrate.args_then].
  rewrite Erd. repeat (split; [reflexivity|]). exact Hend.
Qed.

Lemma worker_takes_over_witness :
  let parent := Orchestrate.main demo_env detach_args (initial ∅) in
  let f1 := replay (take 10 (trace parent.2)) ∅ in
  let worker :=
    Orchestrate.main worker_env (worker_args detach_args ["work"])
      (initial f1) in
  ∃ code k st,
    worker.1 = Ok code
    ∧ commands_run (trace worker.2) = "make" :: take k ["a"; "b"; "c"]
    ∧ fs worker.2 !! (demo_run_dir </> "state.json")
      = Some (File (JsonText (Orchestrate.asdict st)))
    ∧ Orchestrate.run_id st = name demo_run_dir
    ∧ Orchestrate.label st = "job"
    ∧ Orchestrate.workspace st = str ["work"]
    ∧ Orchestrate.created_at st = "2024-01-02T03:04:06"
    ∧ Orchestrate.main_cmd st = "make"
    ∧ Orchestrate.then_cmds st = ["a"; "b"; "c"]
    ∧ ((Orchestrate.status st = "completed" ∧ code = 0
        ∧ k = 3%nat ∧ Orchestrate.error st = None)
       ∨ (Orchestrate.status st = "failed" ∧ code = 1
          ∧ is_Some (Orchestrate.error st))).
Proof.
  apply (worker_takes_over demo_env worker_env detach_args ∅ ["work"] 10);
    vm_compute; reflexivity.
Defined.

(** ** The run directory stays usable *)







(** ** Asking for the status of a finished run *)


